(** * The Python task scheduler of IPython.parallel

    A shallow embedding of [IPython/parallel/controller/scheduler.py]: the
    chooser functions and the [TaskScheduler] class, followed by the
    properties of the scheduler that are checked against it.

    Conventions of the embedding.
    - Identifiers ([msg_id], engine idents) are strings.
    - A Python [set] is a duplicate-free list in insertion order, a Python
      [dict] an association list in insertion order.  Python leaves the
      iteration order of both unspecified; the embedding fixes it to the
      insertion order.
    - A method of [TaskScheduler] is a computation in the monad [M]: it
      takes the scheduler, and gives back the scheduler as the method left
      it together with either the returned value or the exception raised.
      An exception does not undo the assignments made before it.
    - The methods [fail_unreachable], [update_graph] and [maybe_run] call
      each other; the embedding bounds the depth of these calls by a
      number, as the interpreter's recursion limit does, and raises
      [RecursionError] beyond it. *)

From Stdlib Require Import List String ZArith Lia Bool Arith.
Import ListNotations.
Local Open Scope string_scope.
Local Open Scope Z_scope.
Local Open Scope list_scope.

Set Implicit Arguments.

(** ** Python values *)

Definition ident := string.

Module PySet.
(** [set] of strings: membership, [add], [remove], [union], ... *)
Definition t := list string.

Definition mem (x : string) (s : t) : bool := existsb (String.eqb x) s.

Definition add (x : string) (s : t) : t := if mem x s then s else s ++ [x].

Definition discard (x : string) (s : t) : t :=
  filter (fun y => negb (String.eqb x y)) s.

Definition union (a b : t) : t := fold_left (fun acc x => add x acc) b a.

Definition intersection (a b : t) : t := filter (fun x => mem x b) a.

Definition difference (a b : t) : t := filter (fun x => negb (mem x b)) a.

Definition issubset (a b : t) : bool := forallb (fun x => mem x b) a.

Definition isdisjoint (a b : t) : bool := forallb (fun x => negb (mem x b)) a.

(** [a == b] on sets. *)
Definition eqb (a b : t) : bool := issubset a b && issubset b a.

(** [set(l)] *)
Definition of_list (l : list string) : t := union [] l.

(** truth value of a set: non-empty *)
Definition truthy (s : t) : bool := match s with [] => false | _ => true end.
End PySet.

Module PyDict.
(** [dict] with string keys. *)
Section Dict.
Variable V : Type.
Definition t := list (string * V).

Fixpoint get (k : string) (d : t) : option V :=
  match d with
  | [] => None
  | (k', v) :: d' => if String.eqb k k' then Some v else get k d'
  end.

Definition contains (k : string) (d : t) : bool :=
  match get k d with Some _ => true | None => false end.

(** [d[k] = v] *)
Fixpoint set (k : string) (v : V) (d : t) : t :=
  match d with
  | [] => [(k, v)]
  | (k', v') :: d' =>
      if String.eqb k k' then (k', v) :: d' else (k', v') :: set k v d'
  end.

(** the dictionary left by [d.pop(k)] or [del d[k]] *)
Definition remove (k : string) (d : t) : t :=
  filter (fun kv => negb (String.eqb k (fst kv))) d.

Definition keys (d : t) : list string := map fst d.
End Dict.
End PyDict.

(** Exceptions that the scheduler's code can raise. *)
Inductive exn : Type :=
| KeyError (key : string)
| ValueError
| IndexError
| RecursionError.

Inductive result (A : Type) : Type :=
| Ok (a : A)
| Raise (e : exn).
Arguments Ok {A} a.
Arguments Raise {A} e.

(** ** Chooser functions *)

(** [min(loads)]; [ValueError] on the empty list. *)
Fixpoint list_min (l : list Z) : option Z :=
  match l with
  | [] => None
  | x :: l' =>
      match list_min l' with
      | None => Some x
      | Some m => Some (Z.min x m)
      end
  end.

(** [loads.index(x)]; [ValueError] when [x] is absent. *)
Fixpoint index_Z (x : Z) (l : list Z) : option nat :=
  match l with
  | [] => None
  | y :: l' => if Z.eqb x y then Some 0%nat else option_map S (index_Z x l')
  end.

Definition lru (loads : list Z) : result nat := Ok 0%nat.

Definition leastload (loads : list Z) : result nat :=
  match list_min loads with
  | None => Raise ValueError
  | Some m =>
      match index_Z m loads with
      | Some i => Ok i
      | None => Raise ValueError
      end
  end.

(** ** Messages *)

(** Modelled from the spec: the class [Dependency] of [dependency.py] is
    imported by the scheduler and is not part of this source file.  A
    [Dependency] is a set of msg_ids with the flags [all], [success] and
    [failure]; [check] and [unreachable] follow the spec's truth table, and
    the empty dependency is met and never unreachable. *)
Record Dependency : Type := mkDependency {
  dep_ids : PySet.t;
  dep_all : bool;
  dep_success : bool;
  dep_failure : bool
}.

Definition dep_check (d : Dependency) (completed failed : PySet.t) : bool :=
  match dep_ids d with
  | [] => true
  | _ =>
      let against0 := if dep_success d then completed else [] in
      let against := if dep_failure d then PySet.union against0 failed else against0 in
      if dep_all d then PySet.issubset (dep_ids d) against
      else negb (PySet.isdisjoint (dep_ids d) against)
  end.

Definition dep_unreachable (d : Dependency) (completed failed : PySet.t) : bool :=
  match dep_ids d with
  | [] => false
  | _ =>
      let against0 := if dep_success d then [] else completed in
      let against := if dep_failure d then against0 else PySet.union against0 failed in
      if dep_all d then negb (PySet.isdisjoint (dep_ids d) against)
      else PySet.issubset (dep_ids d) against
  end.

(** [MET = Dependency([])] *)
Definition MET : Dependency := mkDependency [] true true false.

(** The decoded header of a task submission: [header.get('targets', [])],
    [header.get('retries', 0)], [header.get('after', None)] (here [None]
    also stands for a false value), [header.get('follow', [])] and
    [header.get('timeout', None)] in seconds. *)
Record header : Type := mkHeader {
  h_msg_id : string;
  h_targets : list ident;
  h_retries : Z;
  h_after : option Dependency;
  h_follow : Dependency;
  h_timeout : option Z
}.

(** A submission as it arrives on the client stream: the identity of the
    client, then the header. *)
Record raw_msg : Type := mkRaw {
  raw_client : ident;
  raw_header : header
}.

(** A reply as it arrives on the engine stream: [idents = [engine, client]],
    the parent's msg_id, and the header's [dependencies_met] and [status]. *)
Record reply : Type := mkReply {
  rep_engine : ident;
  rep_client : ident;
  rep_msg_id : string;
  rep_dependencies_met : bool;
  rep_ok : bool
}.

Inductive why : Type := ImpossibleDependency | InvalidDependency | TaskTimeout.

(** What the scheduler puts on its streams. *)
Inductive frame : Type :=
| ClientError (client : ident) (msg_id : string) (w : why)
| ClientRelay (client engine : ident) (msg_id : string) (ok : bool)
| EngineTask (target : ident) (msg_id : string)
| MonInTask (msg_id : string)
| MonOutTask (msg_id : string)
| MonTrackTask (msg_id : string) (engine : ident).

(** The value held for a task in [depending] and in [pending[engine]]:
    [(raw_msg, targets, after, follow, timeout)].  [targets] is a Python set
    that the scheduler updates in place and that every record of the task
    shares; the record holds its address in [heap].  [timeout] is the
    deadline, [None] for a false value. *)
Record task : Type := mkTask {
  t_raw : raw_msg;
  t_targets : nat;
  t_after : Dependency;
  t_follow : Dependency;
  t_timeout : option Z
}.

(** ** The scheduler *)

Record TaskScheduler : Type := mkSched {
  graph : PyDict.t PySet.t; (* dict by msg_id of the msg_ids that depend on the key *)
  retries : PyDict.t Z; (* dict by msg_id of retries remaining *)
  depending : PyDict.t task; (* dict by msg_id of (raw_msg, targets, after, follow, timeout) *)
  pending : PyDict.t (PyDict.t task); (* dict by engine of submitted tasks *)
  completed : PyDict.t PySet.t; (* dict by engine of completed tasks *)
  failed : PyDict.t PySet.t; (* dict by engine of failed tasks *)
  destinations : PyDict.t ident; (* dict by msg_id of the engine where the job ran *)
  targets : list ident; (* list of target idents *)
  loads : list Z; (* list of engine loads *)
  all_completed : PySet.t; (* set of all completed tasks *)
  all_failed : PySet.t; (* set of all failed tasks *)
  all_done : PySet.t; (* set of all finished tasks *)
  all_ids : PySet.t; (* set of all submitted task ids *)
  blacklist : PyDict.t PySet.t; (* dict by msg_id of locations that signalled UnmetDependency *)
  hwm : Z; (* configured high water mark, 0 for none *)
  scheme : list Z -> result nat; (* configured chooser function *)
  receiving : bool; (* whether client_stream has its on_recv callback *)
  stranded : list ident; (* engines with a DelayedCallback for handle_stranded_tasks *)
  heap : list PySet.t; (* the target-set objects allocated so far *)
  sent : list frame (* what was sent on the streams, oldest first *)
}.

Definition set_graph (v : PyDict.t PySet.t) (s : TaskScheduler) : TaskScheduler :=
  mkSched v (retries s) (depending s) (pending s) (completed s) (failed s) (destinations s) (targets s) (loads s) (all_completed s) (all_failed s) (all_done s) (all_ids s) (blacklist s) (hwm s) (scheme s) (receiving s) (stranded s) (heap s) (sent s).
Definition set_retries (v : PyDict.t Z) (s : TaskScheduler) : TaskScheduler :=
  mkSched (graph s) v (depending s) (pending s) (completed s) (failed s) (destinations s) (targets s) (loads s) (all_completed s) (all_failed s) (all_done s) (all_ids s) (blacklist s) (hwm s) (scheme s) (receiving s) (stranded s) (heap s) (sent s).
Definition set_depending (v : PyDict.t task) (s : TaskScheduler) : TaskScheduler :=
  mkSched (graph s) (retries s) v (pending s) (completed s) (failed s) (destinations s) (targets s) (loads s) (all_completed s) (all_failed s) (all_done s) (all_ids s) (blacklist s) (hwm s) (scheme s) (receiving s) (stranded s) (heap s) (sent s).
Definition set_pending (v : PyDict.t (PyDict.t task)) (s : TaskScheduler) : TaskScheduler :=
  mkSched (graph s) (retries s) (depending s) v (completed s) (failed s) (destinations s) (targets s) (loads s) (all_completed s) (all_failed s) (all_done s) (all_ids s) (blacklist s) (hwm s) (scheme s) (receiving s) (stranded s) (heap s) (sent s).
Definition set_completed (v : PyDict.t PySet.t) (s : TaskScheduler) : TaskScheduler :=
  mkSched (graph s) (retries s) (depending s) (pending s) v (failed s) (destinations s) (targets s) (loads s) (all_completed s) (all_failed s) (all_done s) (all_ids s) (blacklist s) (hwm s) (scheme s) (receiving s) (stranded s) (heap s) (sent s).
Definition set_failed (v : PyDict.t PySet.t) (s : TaskScheduler) : TaskScheduler :=
  mkSched (graph s) (retries s) (depending s) (pending s) (completed s) v (destinations s) (targets s) (loads s) (all_completed s) (all_failed s) (all_done s) (all_ids s) (blacklist s) (hwm s) (scheme s) (receiving s) (stranded s) (heap s) (sent s).
Definition set_destinations (v : PyDict.t ident) (s : TaskScheduler) : TaskScheduler :=
  mkSched (graph s) (retries s) (depending s) (pending s) (completed s) (failed s) v (targets s) (loads s) (all_completed s) (all_failed s) (all_done s) (all_ids s) (blacklist s) (hwm s) (scheme s) (receiving s) (stranded s) (heap s) (sent s).
Definition set_targets (v : list ident) (s : TaskScheduler) : TaskScheduler :=
  mkSched (graph s) (retries s) (depending s) (pending s) (completed s) (failed s) (destinations s) v (loads s) (all_completed s) (all_failed s) (all_done s) (all_ids s) (blacklist s) (hwm s) (scheme s) (receiving s) (stranded s) (heap s) (sent s).
Definition set_loads (v : list Z) (s : TaskScheduler) : TaskScheduler :=
  mkSched (graph s) (retries s) (depending s) (pending s) (completed s) (failed s) (destinations s) (targets s) v (all_completed s) (all_failed s) (all_done s) (all_ids s) (blacklist s) (hwm s) (scheme s) (receiving s) (stranded s) (heap s) (sent s).
Definition set_all_completed (v : PySet.t) (s : TaskScheduler) : TaskScheduler :=
  mkSched (graph s) (retries s) (depending s) (pending s) (completed s) (failed s) (destinations s) (targets s) (loads s) v (all_failed s) (all_done s) (all_ids s) (blacklist s) (hwm s) (scheme s) (receiving s) (stranded s) (heap s) (sent s).
Definition set_all_failed (v : PySet.t) (s : TaskScheduler) : TaskScheduler :=
  mkSched (graph s) (retries s) (depending s) (pending s) (completed s) (failed s) (destinations s) (targets s) (loads s) (all_completed s) v (all_done s) (all_ids s) (blacklist s) (hwm s) (scheme s) (receiving s) (stranded s) (heap s) (sent s).
Definition set_all_done (v : PySet.t) (s : TaskScheduler) : TaskScheduler :=
  mkSched (graph s) (retries s) (depending s) (pending s) (completed s) (failed s) (destinations s) (targets s) (loads s) (all_completed s) (all_failed s) v (all_ids s) (blacklist s) (hwm s) (scheme s) (receiving s) (stranded s) (heap s) (sent s).
Definition set_all_ids (v : PySet.t) (s : TaskScheduler) : TaskScheduler :=
  mkSched (graph s) (retries s) (depending s) (pending s) (completed s) (failed s) (destinations s) (targets s) (loads s) (all_completed s) (all_failed s) (all_done s) v (blacklist s) (hwm s) (scheme s) (receiving s) (stranded s) (heap s) (sent s).
Definition set_blacklist (v : PyDict.t PySet.t) (s : TaskScheduler) : TaskScheduler :=
  mkSched (graph s) (retries s) (depending s) (pending s) (completed s) (failed s) (destinations s) (targets s) (loads s) (all_completed s) (all_failed s) (all_done s) (all_ids s) v (hwm s) (scheme s) (receiving s) (stranded s) (heap s) (sent s).
Definition set_hwm (v : Z) (s : TaskScheduler) : TaskScheduler :=
  mkSched (graph s) (retries s) (depending s) (pending s) (completed s) (failed s) (destinations s) (targets s) (loads s) (all_completed s) (all_failed s) (all_done s) (all_ids s) (blacklist s) v (scheme s) (receiving s) (stranded s) (heap s) (sent s).
Definition set_scheme (v : list Z -> result nat) (s : TaskScheduler) : TaskScheduler :=
  mkSched (graph s) (retries s) (depending s) (pending s) (completed s) (failed s) (destinations s) (targets s) (loads s) (all_completed s) (all_failed s) (all_done s) (all_ids s) (blacklist s) (hwm s) v (receiving s) (stranded s) (heap s) (sent s).
Definition set_receiving (v : bool) (s : TaskScheduler) : TaskScheduler :=
  mkSched (graph s) (retries s) (depending s) (pending s) (completed s) (failed s) (destinations s) (targets s) (loads s) (all_completed s) (all_failed s) (all_done s) (all_ids s) (blacklist s) (hwm s) (scheme s) v (stranded s) (heap s) (sent s).
Definition set_stranded (v : list ident) (s : TaskScheduler) : TaskScheduler :=
  mkSched (graph s) (retries s) (depending s) (pending s) (completed s) (failed s) (destinations s) (targets s) (loads s) (all_completed s) (all_failed s) (all_done s) (all_ids s) (blacklist s) (hwm s) (scheme s) (receiving s) v (heap s) (sent s).
Definition set_heap (v : list PySet.t) (s : TaskScheduler) : TaskScheduler :=
  mkSched (graph s) (retries s) (depending s) (pending s) (completed s) (failed s) (destinations s) (targets s) (loads s) (all_completed s) (all_failed s) (all_done s) (all_ids s) (blacklist s) (hwm s) (scheme s) (receiving s) (stranded s) v (sent s).
Definition set_sent (v : list frame) (s : TaskScheduler) : TaskScheduler :=
  mkSched (graph s) (retries s) (depending s) (pending s) (completed s) (failed s) (destinations s) (targets s) (loads s) (all_completed s) (all_failed s) (all_done s) (all_ids s) (blacklist s) (hwm s) (scheme s) (receiving s) (stranded s) (heap s) v.

(** ** The monad of methods *)

Definition M (A : Type) : Type := TaskScheduler -> result A * TaskScheduler.

Definition ret {A : Type} (a : A) : M A := fun s => (Ok a, s).

Definition raise {A : Type} (e : exn) : M A := fun s => (Raise e, s).

Definition bind {A B : Type} (m : M A) (f : A -> M B) : M B :=
  fun s =>
    match m s with
    | (Ok a, s') => f a s'
    | (Raise e, s') => (Raise e, s')
    end.

Definition get_self : M TaskScheduler := fun s => (Ok s, s).

Definition modify (f : TaskScheduler -> TaskScheduler) : M unit :=
  fun s => (Ok tt, f s).

(** [try: m except Exception: pass] *)
Definition try_pass (m : M unit) : M unit :=
  fun s =>
    match m s with
    | (Ok a, s') => (Ok a, s')
    | (Raise _, s') => (Ok tt, s')
    end.

(** [try: m except Exception: return] followed by [k] *)
Definition try_or_return (m : M unit) (k : M unit) : M unit :=
  fun s =>
    match m s with
    | (Ok _, s') => k s'
    | (Raise _, s') => (Ok tt, s')
    end.

Declare Scope py_scope.
Delimit Scope py_scope with py.
Notation "x <- m ;; k" := (bind m (fun x => k))
  (at level 61, m at next level, right associativity) : py_scope.
Notation "m ;; k" := (bind m (fun _ => k))
  (at level 61, right associativity) : py_scope.
Local Open Scope py_scope.

(** [for x in l: body] *)
Fixpoint for_each {A : Type} (l : list A) (body : A -> M unit) : M unit :=
  match l with
  | [] => ret tt
  | x :: l' => body x ;; for_each l' body
  end.

(** [filter(p, l)] for a predicate that reads the scheduler and may raise *)
Fixpoint filter_m {A : Type} (p : A -> M bool) (l : list A) : M (list A) :=
  match l with
  | [] => ret []
  | x :: l' =>
      b <- p x ;;
      r <- filter_m p l' ;;
      ret (if b then x :: r else r)
  end.

(** [d[k]], raising [KeyError] *)
Definition getitem {V : Type} (k : string) (d : PyDict.t V) : M V :=
  match PyDict.get k d with
  | Some v => ret v
  | None => raise (KeyError k)
  end.

(** [l[i]], raising [IndexError] *)
Definition getindex {A : Type} (i : nat) (l : list A) : M A :=
  match nth_error l i with
  | Some v => ret v
  | None => raise IndexError
  end.

(** [targets.index(uid)] *)
Fixpoint index_of (x : ident) (l : list ident) : option nat :=
  match l with
  | [] => None
  | y :: l' => if String.eqb x y then Some 0%nat else option_map S (index_of x l')
  end.

(** the list left by [l.pop(i)] *)
Fixpoint remove_nth {A : Type} (i : nat) (l : list A) : list A :=
  match i, l with
  | _, [] => []
  | O, _ :: l' => l'
  | S i', x :: l' => x :: remove_nth i' l'
  end.

(** the list after [l[i] = v] *)
Fixpoint set_nth {A : Type} (i : nat) (v : A) (l : list A) : list A :=
  match i, l with
  | _, [] => []
  | O, _ :: l' => v :: l'
  | S i', x :: l' => x :: set_nth i' v l'
  end.

(** The target set at an address. *)
Definition deref (s : TaskScheduler) (a : nat) : PySet.t := nth a (heap s) [].

Definition send (f : frame) : M unit :=
  modify (fun s => set_sent (sent s ++ [f]) s).

(** ** Methods to be overridden by subclasses *)

Definition add_job (idx : nat) : M unit :=
  s <- get_self ;;
  l <- getindex idx (loads s) ;;
  modify (set_loads (set_nth idx (l + 1) (loads s))) ;;
  s <- get_self ;;
  t <- getindex idx (targets s) ;;
  modify (set_targets (remove_nth idx (targets s) ++ [t])) ;;
  s <- get_self ;;
  l <- getindex idx (loads s) ;;
  modify (set_loads (remove_nth idx (loads s) ++ [l])).

Definition finish_job (idx : nat) : M unit :=
  s <- get_self ;;
  l <- getindex idx (loads s) ;;
  modify (set_loads (set_nth idx (l - 1) (loads s))).

(** ** Job submission *)

Definition save_unmet (msg_id : string) (t : task) : M unit :=
  modify (fun s => set_depending (PyDict.set msg_id t (depending s)) s) ;;
  s <- get_self ;;
  for_each
    (PySet.difference (PySet.union (dep_ids (t_after t)) (dep_ids (t_follow t)))
                      (all_done s))
    (fun dep_id =>
       modify (fun s =>
                 if PyDict.contains dep_id (graph s) then s
                 else set_graph (PyDict.set dep_id [] (graph s)) s) ;;
       s <- get_self ;;
       g <- getitem dep_id (graph s) ;;
       modify (set_graph (PyDict.set dep_id (PySet.add msg_id g) (graph s)))).

(** [[l[i] for i in indices]] *)
Fixpoint for_indices {A : Type} (l : list A) (indices : list nat) : M (list A) :=
  match indices with
  | [] => ret []
  | i :: rest =>
      x <- getindex i l ;;
      r <- for_indices l rest ;;
      ret (x :: r)
  end.

Definition submit_task (msg_id : string) (t : task) (indices : option (list nat))
  : M unit :=
  let subset := match indices with Some ((_ :: _) as l) => Some l | _ => None end in
  s <- get_self ;;
  lds <- match subset with
         | Some l => for_indices (loads s) l
         | None => ret (loads s)
         end ;;
  idx <- (fun s => (scheme s lds, s)) ;;
  idx <- match subset with
         | Some l => getindex idx l
         | None => ret idx
         end ;;
  target <- getindex idx (targets s) ;;
  send (EngineTask target msg_id) ;;
  add_job idx ;;
  s <- get_self ;;
  p <- getitem target (pending s) ;;
  modify (set_pending
            (PyDict.set target
               (PyDict.set msg_id
                  (mkTask (t_raw t) (t_targets t) MET (t_follow t) (t_timeout t)) p)
               (pending s))) ;;
  send (MonTrackTask msg_id target).

(** [for mid in follow.union(after): if mid in self.graph:
    self.graph[mid].remove(msg_id)]; [set.remove] raises [KeyError] when the
    element is absent. *)
Definition scrub_graph (msg_id : string) (follow after : Dependency) : M unit :=
  for_each (PySet.union (dep_ids follow) (dep_ids after))
    (fun mid =>
       s <- get_self ;;
       match PyDict.get mid (graph s) with
       | None => ret tt
       | Some g =>
           if PySet.mem msg_id g
           then modify (set_graph (PyDict.set mid (PySet.discard msg_id g) (graph s)))
           else raise (KeyError msg_id)
       end).

(** The check of [follow] for impossibility in [maybe_run]: with
    [follow.all], the dependencies that are done ran at more than one
    destination. *)
Definition follow_impossible (follow : Dependency) : M bool :=
  s <- get_self ;;
  if dep_all follow then
    let relevant0 := if dep_success follow then all_completed s else [] in
    let relevant := if dep_failure follow
                    then PySet.union relevant0 (all_failed s) else relevant0 in
    dests <- fold_left
               (fun acc m => d <- acc ;; e <- getitem m (destinations s) ;;
                             ret (PySet.add e d))
               (PySet.intersection (dep_ids follow) relevant) (ret []) ;;
    ret (Nat.ltb 1 (List.length dests))
  else ret false.

Section Recursion.
(** The method [update_graph] as the three methods below call it. *)
Variable update_graph : option string -> bool -> M unit.

Definition fail_unreachable_body (msg_id : string) (w : why) : M unit :=
  s <- get_self ;;
  match PyDict.get msg_id (depending s) with
  | None => ret tt (* logged: already failed *)
  | Some t =>
      modify (set_depending (PyDict.remove msg_id (depending s))) ;;
      scrub_graph msg_id (t_follow t) (t_after t) ;;
      modify (fun s => set_all_done (PySet.add msg_id (all_done s)) s) ;;
      modify (fun s => set_all_failed (PySet.add msg_id (all_failed s)) s) ;;
      send (ClientError (raw_client (t_raw t)) msg_id w) ;;
      send (MonOutTask msg_id) ;;
      update_graph (Some msg_id) false
  end.

(** The filter [can_run] of [maybe_run]. *)
Definition can_run (t : task) (bl : PySet.t) (idx : nat) : M bool :=
  s <- get_self ;;
  l <- (if Z.eqb (hwm s) 0 then ret 0 else getindex idx (loads s)) ;;
  if negb (Z.eqb (hwm s) 0) && Z.eqb l (hwm s) then ret false
  else
    target <- getindex idx (targets s) ;;
    if PySet.mem target bl then ret false
    else if PySet.truthy (deref s (t_targets t))
            && negb (PySet.mem target (deref s (t_targets t)))
    then ret false
    else
      c <- getitem target (completed s) ;;
      f <- getitem target (failed s) ;;
      ret (dep_check (t_follow t) c f).

(** [maybe_run(msg_id, raw_msg, targets, after, follow, timeout)]; the
    five last arguments are the fields of [t]. *)
Definition maybe_run_body (msg_id : string) (t : task) : M bool :=
  modify (fun s =>
            if PyDict.contains msg_id (blacklist s) then s
            else set_blacklist (PyDict.set msg_id [] (blacklist s)) s) ;;
  s <- get_self ;;
  bl <- getitem msg_id (blacklist s) ;;
  let follow := t_follow t in
  if PySet.truthy (dep_ids follow) || PySet.truthy (deref s (t_targets t))
     || PySet.truthy bl || negb (Z.eqb (hwm s) 0)
  then
    indices <- filter_m (can_run t bl) (seq 0 (List.length (targets s))) ;;
    match indices with
    | _ :: _ => submit_task msg_id t (Some indices) ;; ret true
    | [] =>
        (* couldn't run *)
        impossible <- follow_impossible follow ;;
        if impossible then
          modify (fun s => set_depending (PyDict.set msg_id t (depending s)) s) ;;
          fail_unreachable_body msg_id ImpossibleDependency ;;
          ret false
        else if PySet.truthy (deref s (t_targets t)) then
          (* targets.difference_update(blacklist) *)
          modify (fun s => set_heap
                             (set_nth (t_targets t)
                                (PySet.difference (deref s (t_targets t)) bl) (heap s)) s) ;;
          s <- get_self ;;
          if negb (PySet.truthy (deref s (t_targets t)))
             || negb (PySet.truthy (PySet.intersection (deref s (t_targets t)) (targets s)))
          then
            modify (fun s => set_depending (PyDict.set msg_id t (depending s)) s) ;;
            fail_unreachable_body msg_id ImpossibleDependency ;;
            ret false
          else ret false
        else ret false
    end
  else
    submit_task msg_id t None ;; ret true.

Definition update_graph_body (dep_id : option string) (success : bool) : M unit :=
  s <- get_self ;;
  (* jobs = self.graph.pop(dep_id, []) *)
  let popped := match dep_id with
                | Some d => match PyDict.get d (graph s) with Some g => g | None => [] end
                | None => []
                end in
  modify (fun s => match dep_id with
                   | Some d => set_graph (PyDict.remove d (graph s)) s
                   | None => s
                   end) ;;
  let jobs :=
    if match dep_id with None => true | Some _ => false end
       || (negb (Z.eqb (hwm s) 0) && existsb (fun load => Z.eqb load (hwm s - 1)) (loads s))
    then PyDict.keys (depending s)
    else popped in
  for_each jobs
    (fun msg_id =>
       s <- get_self ;;
       t <- getitem msg_id (depending s) ;;
       if dep_unreachable (t_after t) (all_completed s) (all_failed s)
          || dep_unreachable (t_follow t) (all_completed s) (all_failed s)
       then fail_unreachable_body msg_id ImpossibleDependency
       else if dep_check (t_after t) (all_completed s) (all_failed s)
       then
         ran <- maybe_run_body msg_id
                  (mkTask (t_raw t) (t_targets t) MET (t_follow t) (t_timeout t)) ;;
         if ran then
           s <- get_self ;;
           _ <- getitem msg_id (depending s) ;;
           modify (set_depending (PyDict.remove msg_id (depending s))) ;;
           scrub_graph msg_id (t_follow t) (t_after t)
         else ret tt
       else ret tt).
End Recursion.

Fixpoint update_graph (depth : nat) (dep_id : option string) (success : bool) : M unit :=
  match depth with
  | O => raise RecursionError
  | S d => update_graph_body (update_graph d) dep_id success
  end.

Definition fail_unreachable (depth : nat) : string -> why -> M unit :=
  fail_unreachable_body (update_graph depth).

Definition maybe_run (depth : nat) : string -> task -> M bool :=
  maybe_run_body (update_graph depth).

(** ** Result handling *)

Definition handle_result (depth : nat) (r : reply) (success : bool) : M unit :=
  let engine := rep_engine r in
  let msg_id := rep_msg_id r in
  send (ClientRelay (rep_client r) engine msg_id (rep_ok r)) ;;
  modify (fun s => set_blacklist (PyDict.remove msg_id (blacklist s)) s) ;;
  s <- get_self ;;
  p <- getitem engine (pending s) ;;
  _ <- getitem msg_id p ;;
  modify (set_pending (PyDict.set engine (PyDict.remove msg_id p) (pending s))) ;;
  (if success then
     s <- get_self ;;
     c <- getitem engine (completed s) ;;
     modify (set_completed (PyDict.set engine (PySet.add msg_id c) (completed s))) ;;
     modify (fun s => set_all_completed (PySet.add msg_id (all_completed s)) s)
   else
     s <- get_self ;;
     f <- getitem engine (failed s) ;;
     modify (set_failed (PyDict.set engine (PySet.add msg_id f) (failed s))) ;;
     modify (fun s => set_all_failed (PySet.add msg_id (all_failed s)) s)) ;;
  modify (fun s => set_all_done (PySet.add msg_id (all_done s)) s) ;;
  modify (fun s => set_destinations (PyDict.set msg_id engine (destinations s)) s) ;;
  update_graph depth (Some msg_id) success.

(** The second part of [handle_unmet_dependency]: the task taken from
    [pending[engine]] is failed when [blacklist[msg_id] == targets], and is
    otherwise run elsewhere or saved again. *)
Definition place_again (depth : nat) (msg_id : string) (args : task) : M unit :=
  s <- get_self ;;
  bl <- getitem msg_id (blacklist s) ;;
  if PySet.eqb bl (deref s (t_targets args)) then
    modify (set_depending (PyDict.set msg_id args (depending s))) ;;
    fail_unreachable depth msg_id ImpossibleDependency
  else
    ran <- maybe_run depth msg_id args ;;
    if ran then ret tt
    else
      (* resubmit failed *)
      s <- get_self ;;
      if PySet.mem msg_id (all_failed s) then ret tt
      else save_unmet msg_id args.

(** The last part of [handle_unmet_dependency]: with a high water mark,
    all waiting tasks are checked again when the engine has just left it. *)
Definition hwm_wakeup (depth : nat) (engine : ident) : M unit :=
  s <- get_self ;;
  if Z.eqb (hwm s) 0 then ret tt
  else
    match index_of engine (targets s) with
    | None => ret tt (* skip load-update for dead engines *)
    | Some idx =>
        l <- getindex idx (loads s) ;;
        if Z.eqb l (hwm s - 1) then update_graph depth None true else ret tt
    end.

Definition handle_unmet_dependency (depth : nat) (r : reply) : M unit :=
  let engine := rep_engine r in
  let msg_id := rep_msg_id r in
  modify (fun s =>
            if PyDict.contains msg_id (blacklist s) then s
            else set_blacklist (PyDict.set msg_id [] (blacklist s)) s) ;;
  s <- get_self ;;
  bl <- getitem msg_id (blacklist s) ;;
  modify (set_blacklist (PyDict.set msg_id (PySet.add engine bl) (blacklist s))) ;;
  s <- get_self ;;
  p <- getitem engine (pending s) ;;
  args <- getitem msg_id p ;;
  modify (set_pending (PyDict.set engine (PyDict.remove msg_id p) (pending s))) ;;
  place_again depth msg_id args ;;
  hwm_wakeup depth engine.

Definition dispatch_result (depth : nat) (r : reply) : M unit :=
  try_or_return
    (s <- get_self ;;
     match index_of (rep_engine r) (targets s) with
     | None => ret tt (* skip load-update for dead engines *)
     | Some idx => finish_job idx
     end)
    (let msg_id := rep_msg_id r in
     if rep_dependencies_met r then
       s <- get_self ;;
       n <- getitem msg_id (retries s) ;;
       if negb (rep_ok r) && Z.ltb 0 n then
         (* failed *)
         modify (set_retries (PyDict.set msg_id (n - 1) (retries s))) ;;
         handle_unmet_dependency depth r
       else
         modify (set_retries (PyDict.remove msg_id (retries s))) ;;
         (* relay to client and update graph *)
         handle_result depth r (rep_ok r) ;;
         send (MonOutTask msg_id)
     else handle_unmet_dependency depth r).

(** ** [Un]Registration handling *)

Definition _register_engine (depth : nat) (uid : ident) : M unit :=
  modify (fun s => set_targets (uid :: targets s) s) ;;
  modify (fun s => set_loads (0 :: loads s) s) ;;
  modify (fun s => set_completed (PyDict.set uid [] (completed s)) s) ;;
  modify (fun s => set_failed (PyDict.set uid [] (failed s)) s) ;;
  modify (fun s => set_pending (PyDict.set uid [] (pending s)) s) ;;
  modify (fun s => if Nat.eqb (List.length (targets s)) 1 then set_receiving true s else s) ;;
  update_graph depth None true.

Definition _unregister_engine (uid : ident) : M unit :=
  modify (fun s => if Nat.eqb (List.length (targets s)) 1 then set_receiving false s else s) ;;
  s <- get_self ;;
  match index_of uid (targets s) with
  | None => raise ValueError
  | Some idx =>
      modify (set_targets (remove_nth idx (targets s))) ;;
      _ <- getindex idx (loads s) ;;
      modify (set_loads (remove_nth idx (loads s))) ;;
      s <- get_self ;;
      p <- getitem uid (pending s) ;;
      match p with
      | _ :: _ => modify (set_stranded (stranded s ++ [uid]))
      | [] =>
          _ <- getitem uid (completed s) ;;
          modify (set_completed (PyDict.remove uid (completed s))) ;;
          s <- get_self ;;
          _ <- getitem uid (failed s) ;;
          modify (set_failed (PyDict.remove uid (failed s)))
      end
  end.

(** The reply that [handle_stranded_tasks] builds for a lost task:
    [idents = [engine, idents[0]]], [status = 'error']. *)
Definition engine_died (engine : ident) (msg_id : string) (t : task) : reply :=
  mkReply engine (raw_client (t_raw t)) msg_id true false.

Definition handle_stranded_tasks (depth : nat) (engine : ident) : M unit :=
  s <- get_self ;;
  lost <- getitem engine (pending s) ;;
  for_each (PyDict.keys lost)
    (fun msg_id =>
       s <- get_self ;;
       p <- getitem engine (pending s) ;;
       match PyDict.get msg_id p with
       | None => ret tt (* prevent double-handling of messages *)
       | Some t => dispatch_result depth (engine_died engine msg_id t)
       end) ;;
  s <- get_self ;;
  _ <- getitem engine (completed s) ;;
  modify (set_completed (PyDict.remove engine (completed s))) ;;
  s <- get_self ;;
  _ <- getitem engine (failed s) ;;
  modify (set_failed (PyDict.remove engine (failed s))).

Inductive notification : Type :=
| registration_notification (queue : ident)
| unregistration_notification (queue : ident).

Definition dispatch_notification (depth : nat) (n : notification) : M unit :=
  try_pass
    match n with
    | registration_notification uid => _register_engine depth uid
    | unregistration_notification uid => _unregister_engine uid
    end.

(** ** Job submission (continued) *)

(** [Dependency(d)] for the record [d] found in a header: its ids as a set. *)
Definition as_dependency (d : Dependency) : Dependency :=
  mkDependency (PySet.of_list (dep_ids d)) (dep_all d) (dep_success d) (dep_failure d).

(** The reduction of [after] in [dispatch_submission]. *)
Definition reduce_after (a : option Dependency) (s : TaskScheduler) : Dependency :=
  match a with
  | None => MET
  | Some after0 =>
      let after := as_dependency after0 in
      let after1 :=
        if dep_all after && dep_success after
        then mkDependency (PySet.difference (dep_ids after) (all_completed s))
                          (dep_all after) (dep_success after) (dep_failure after)
        else after in
      let after2 :=
        if dep_all after1 && dep_failure after1
        then mkDependency (PySet.difference (dep_ids after1) (all_failed s))
                          (dep_all after1) (dep_success after1) (dep_failure after1)
        else after1 in
      if dep_check after2 (all_completed s) (all_failed s) then MET else after2
  end.

(** The verdict of the loop that validates [after] and [follow]. *)
Inductive validation : Type := Valid | Invalid | Unreachable.

Definition validate_dep (msg_id : string) (dep : Dependency) (s : TaskScheduler)
  : validation :=
  if negb (PySet.truthy (dep_ids dep)) then Valid
  else if PySet.mem msg_id (dep_ids dep)
          || PySet.truthy (PySet.difference (dep_ids dep) (all_ids s))
  then Invalid
  else if dep_unreachable dep (all_completed s) (all_failed s) then Unreachable
  else Valid.

Definition dispatch_submission (depth : nat) (now : Z) (raw : raw_msg) : M unit :=
  let hd := raw_header raw in
  let msg_id := h_msg_id hd in
  send (MonInTask msg_id) ;;
  modify (fun s => set_all_ids (PySet.add msg_id (all_ids s)) s) ;;
  s <- get_self ;;
  let targets := List.length (heap s) in
  modify (fun s => set_heap (heap s ++ [PySet.of_list (h_targets hd)]) s) ;;
  modify (fun s => set_retries (PyDict.set msg_id (h_retries hd) (retries s)) s) ;;
  s <- get_self ;;
  let after := reduce_after (h_after hd) s in
  let follow := as_dependency (h_follow hd) in
  let timeout := match h_timeout hd with
                 | Some t => if Z.eqb t 0 then None else Some (now + t)
                 | None => None
                 end in
  let args := mkTask raw targets after follow timeout in
  let verdict := match validate_dep msg_id after s with
                 | Valid => validate_dep msg_id follow s
                 | v => v
                 end in
  match verdict with
  | Invalid =>
      modify (fun s => set_depending (PyDict.set msg_id args (depending s)) s) ;;
      fail_unreachable depth msg_id InvalidDependency
  | Unreachable =>
      modify (fun s => set_depending (PyDict.set msg_id args (depending s)) s) ;;
      fail_unreachable depth msg_id ImpossibleDependency
  | Valid =>
      if dep_check after (all_completed s) (all_failed s) then
        (* time deps already met, try to run *)
        ran <- maybe_run depth msg_id args ;;
        if ran then ret tt
        else
          s <- get_self ;;
          if PySet.mem msg_id (all_failed s) then ret tt
          else save_unmet msg_id args
      else save_unmet msg_id args
  end.

Definition audit_timeouts (depth : nat) (now : Z) : M unit :=
  s <- get_self ;;
  for_each (PyDict.keys (depending s))
    (fun msg_id =>
       s <- get_self ;;
       (* must recheck, in case one failure cascaded to another *)
       match PyDict.get msg_id (depending s) with
       | None => ret tt
       | Some t =>
           match t_timeout t with
           | Some deadline =>
               if Z.ltb deadline now
               then fail_unreachable depth msg_id TaskTimeout
               else ret tt
           | None => ret tt
           end
       end).

(** ** The event loop *)

(** What the loop hands to the scheduler: a message on the client stream,
    on the engine stream or on the notifier stream, a tick of the auditor,
    and the delayed callback that [_unregister_engine] started. *)
Inductive event : Type :=
| Submission (now : Z) (raw : raw_msg)
| Result (r : reply)
| Notification (n : notification)
| Audit (now : Z)
| Stranded (engine : ident).

Definition handler (depth : nat) (ev : event) : M unit :=
  match ev with
  | Submission now raw => dispatch_submission depth now raw
  | Result r => dispatch_result depth r
  | Notification n => dispatch_notification depth n
  | Audit now => audit_timeouts depth now
  | Stranded engine =>
      modify (fun s => set_stranded
                         (filter (fun e => negb (String.eqb engine e)) (stranded s)) s) ;;
      handle_stranded_tasks depth engine
  end.

(** The scheduler after the loop ran one handler; an exception that
    escapes the handler is logged by the loop and the scheduler stays as
    the handler left it. *)
Definition step (depth : nat) (s : TaskScheduler) (ev : event) : TaskScheduler :=
  snd (handler depth ev s).

Definition run (depth : nat) (s : TaskScheduler) (evs : list event) : TaskScheduler :=
  fold_left (step depth) evs s.

(** A scheduler as [launch_scheduler] starts it. *)
Definition start (hwm : Z) (scheme : list Z -> result nat) : TaskScheduler :=
  mkSched [] [] [] [] [] [] [] [] [] [] [] [] [] [] hwm scheme false [] [] [].


(** ** Vocabulary of the properties *)

(** Started from a scheduler that satisfies [P], [m] leaves a scheduler
    that satisfies [Q], whether it returns or raises. *)
Definition hoare {A : Type} (P : TaskScheduler -> Prop) (m : M A)
  (Q : TaskScheduler -> Prop) : Prop :=
  forall s, P s -> Q (snd (m s)).

(** [m] keeps [P]. *)
Definition preserves {A : Type} (P : TaskScheduler -> Prop) (m : M A) : Prop :=
  hoare P m P.

(** The scheduler after [all_done.add(m)] and [all_failed.add(m)]. *)
Definition mark_failed (m : string) (s : TaskScheduler) : TaskScheduler :=
  set_all_failed (PySet.add m (all_failed s)) (set_all_done (PySet.add m (all_done s)) s).

(** The assignments that [update_graph], [fail_unreachable], [maybe_run],
    [submit_task] and [save_unmet] make, one at a time. *)
Inductive knot_move (s : TaskScheduler) : TaskScheduler -> Prop :=
| mv_blacklist_default : forall m,
    PyDict.contains m (blacklist s) = false ->
    knot_move s (set_blacklist (PyDict.set m [] (blacklist s)) s)
| mv_heap : forall a bl,
    knot_move s (set_heap (set_nth a (PySet.difference (deref s a) bl) (heap s)) s)
| mv_depending : forall v, knot_move s (set_depending v s)
| mv_graph : forall v, knot_move s (set_graph v s)
| mv_failed : forall m, knot_move s (mark_failed m s)
| mv_send : forall f,
    (forall c e m ok, f <> ClientRelay c e m ok) ->
    knot_move s (set_sent (sent s ++ [f]) s)
| mv_loads : forall v, knot_move s (set_loads v s)
| mv_targets : forall v, knot_move s (set_targets v s)
| mv_pending : forall v, knot_move s (set_pending v s).

Inductive knot_moves (s : TaskScheduler) : TaskScheduler -> Prop :=
| km_refl : knot_moves s s
| km_step : forall s1 s2, knot_moves s s1 -> knot_move s1 s2 -> knot_moves s s2.

(** [Q] is kept by every assignment of the recursive methods. *)
Definition knot_stable (Q : TaskScheduler -> Prop) : Prop :=
  forall s s', knot_move s s' -> Q s -> Q s'.

(** The frames that relay an engine's reply to the client. *)
Definition is_relay (f : frame) : bool :=
  match f with ClientRelay _ _ _ _ => true | _ => false end.

(** The replies of engines relayed to clients so far. *)
Definition relayed (s : TaskScheduler) : list frame := filter is_relay (sent s).




Definition register (uid : ident) : event := Notification (registration_notification uid).

(** A submission by ["client"] without retries and without timeout. *)
Definition submit (msg_id : string) (targets : list ident) (after : option Dependency)
  (follow : Dependency) : event :=
  Submission 0 (mkRaw "client" (mkHeader msg_id targets 0 after follow None)).

(** [Dependency(ids)] with the default flags: all of them, successful. *)
Definition on_success (ids : list string) : Dependency := mkDependency ids true true false.

(** *** The claims that the code does not meet, and their inputs *)


(** One engine, and a task that names it and an engine that never registered. *)
Definition half_registered_targets : list event :=
  [ register "E1"; submit "T1" ["E1"; "E2"] None MET ].

(** C3: [loads[i] == len(pending[targets[i]])] for every index. *)
Definition loads_match_pending (s : TaskScheduler) : bool :=
  Nat.eqb (List.length (targets s)) (List.length (loads s))
  && forallb (fun el => match PyDict.get (fst el) (pending s) with
                        | Some p => Z.eqb (snd el) (Z.of_nat (List.length p))
                        | None => false
                        end)
             (combine (targets s) (loads s)).

(** C3 as stated: every handler restores the relation. *)
Definition handler_restores_loads (depth : nat) (s : TaskScheduler) (ev : event) : Prop :=
  loads_match_pending s = true -> loads_match_pending (step depth s ev) = true.




(** [maybe_run] finds no engine that can run the task. *)
Definition no_eligible_engine (t : task) (bl : PySet.t) (s : TaskScheduler) : Prop :=
  fst (filter_m (can_run t bl) (seq 0 (List.length (targets s))) s) = Ok [].

(** C10 as stated: when [maybe_run] finds no eligible engine for a task
    with explicit targets, no engine of [blacklist[msg_id]] is left in the
    target set that the task's record holds. *)
Definition blacklist_leaves_targets (depth : nat) (msg_id : string) (t : task)
  (s : TaskScheduler) : Prop :=
  forall bl,
    PyDict.get msg_id (blacklist s) = Some bl ->
    no_eligible_engine t bl s ->
    PySet.truthy (deref s (t_targets t)) = true ->
    forall e, In e bl ->
              ~ In e (deref (snd (maybe_run depth msg_id t s)) (t_targets t)).

(** ["C"] follows ["A"] and ["B"], both done on ["E1"], and is sent there;
    ["B"] is then submitted again and done on ["E2"]. *)
Definition follow_in_two_places : list event :=
  [ register "E1"; register "E2";
    submit "A" ["E1"] None MET; Result (mkReply "E1" "client" "A" true true);
    submit "B" ["E1"] None MET; Result (mkReply "E1" "client" "B" true true);
    submit "C" ["E1"; "E2"] None (on_success ["A"; "B"]);
    submit "B" ["E2"] None MET; Result (mkReply "E2" "client" "B" true true) ].

(** The scheduler of [follow_in_two_places] when ["E1"] has answered that
    the dependencies of ["C"] are unmet, as [handle_unmet_dependency] has it
    when it calls [maybe_run]: ["E1"] in [blacklist["C"]] and ["C"] popped
    from [pending["E1"]]. *)
Definition follow_in_two_places_miss : TaskScheduler :=
  let s := run 5 (start 0 leastload) follow_in_two_places in
  set_pending (PyDict.set "E1" [] (pending s))
    (set_blacklist (PyDict.set "C" ["E1"] (blacklist s))
       (set_loads [0; 0] s)).

Definition task_C : task :=
  mkTask (mkRaw "client" (mkHeader "C" ["E1"; "E2"] 0 None (on_success ["A"; "B"]) None))
         2 MET (on_success ["A"; "B"]) None.

(** C5 and C6: the inputs on which the code fails. *)

(** ["T0"] has failed and ["T1"] runs; ["T2"] waits for ["T1"]; ["T3"] is
    to run after ["T1"] and ["T0"]. *)
Definition unreachable_at_submission : list event :=
  [ register "E1";
    submit "T0" [] None MET; Result (mkReply "E1" "client" "T0" true false);
    submit "T1" [] None MET;
    submit "T2" [] (Some (on_success ["T1"])) MET ].

Definition submit_T3 : event := submit "T3" [] (Some (on_success ["T1"; "T0"])) MET.

(** ["F"] runs; ["A"] follows ["F"]; ["B"] follows ["F"] and is to run
    after ["A"]. *)
Definition cascading_failure : list event :=
  [ register "E1"; submit "F" [] None MET;
    submit "A" [] None (on_success ["F"]);
    submit "B" [] (Some (on_success ["A"])) (on_success ["F"]) ].

(** The frames sent to clients about [msg_id]. *)
Definition client_replies (msg_id : string) (s : TaskScheduler) : list frame :=
  filter (fun f => match f with
                   | ClientError _ m _ => String.eqb m msg_id
                   | ClientRelay _ _ m _ => String.eqb m msg_id
                   | _ => false
                   end) (sent s).

(** [m] assigns nothing. *)
Definition reads {A : Type} (m : M A) : Prop := forall s, snd (m s) = s.

(** The scheduler after [targets.difference_update(blacklist)] on the
    target set at address [a]. *)
Definition difference_update (a : nat) (bl : PySet.t) (s : TaskScheduler) : TaskScheduler :=
  set_heap (set_nth a (PySet.difference (deref s a) bl) (heap s)) s.

(** The scheduler of [half_registered_targets] when ["E1"] has answered
    that the dependencies of ["T1"] are unmet, as [handle_unmet_dependency]
    has it when it calls [maybe_run]. *)
Definition half_registered_miss : TaskScheduler :=
  let s := run 5 (start 0 leastload) half_registered_targets in
  set_pending (PyDict.set "E1" [] (pending s))
    (set_blacklist (PyDict.set "T1" ["E1"] (blacklist s))
       (set_loads [0] s)).

Definition task_T1 : task :=
  mkTask (mkRaw "client" (mkHeader "T1" ["E1"; "E2"] 0 None MET None)) 0 MET MET None.




(** [all_done] holds the members of [all_completed] and of [all_failed]. *)
Definition done_union (s : TaskScheduler) : Prop :=
  forall x, In x (all_done s) <-> In x (all_completed s) \/ In x (all_failed s).

(** [Q] does not depend on the fields that only the handlers assign. *)
Definition frame_stable (Q : TaskScheduler -> Prop) : Prop :=
  (forall s v, Q s -> Q (set_retries v s)) /\
  (forall s v, Q s -> Q (set_blacklist v s)) /\
  (forall s v, Q s -> Q (set_completed v s)) /\
  (forall s v, Q s -> Q (set_failed v s)) /\
  (forall s v, Q s -> Q (set_destinations v s)) /\
  (forall s v, Q s -> Q (set_receiving v s)) /\
  (forall s v, Q s -> Q (set_stranded v s)) /\
  (forall s v, Q s -> Q (set_all_ids v s)) /\
  (forall s v, Q s -> Q (set_heap v s)) /\
  (forall s v, Q s -> Q (set_sent v s)).

(** *** The invariant of the scheduler *)

(** [msg_id] is in [pending[e]] for some engine [e]. *)
Definition pend (m : string) (s : TaskScheduler) : Prop :=
  exists e p, PyDict.get e (pending s) = Some p /\ PyDict.get m p <> None.

(** [msg_id] is in [depending]. *)
Definition waiting (m : string) (s : TaskScheduler) : Prop :=
  PyDict.get m (depending s) <> None.

(** [msg_id] was submitted and has not finished: it is in [all_ids], has
    its entry in [retries] and is not in [all_done]. *)
Definition unfinished (m : string) (s : TaskScheduler) : Prop :=
  ~ In m (all_done s) /\ In m (all_ids s) /\ PyDict.get m (retries s) <> None.

(** The load [l] of engine [e] is the number of its pending tasks. *)
Definition load_ok (pd : PyDict.t (PyDict.t task)) (e : ident) (l : Z) : Prop :=
  exists p, PyDict.get e pd = Some p /\ l = Z.of_nat (List.length p).

(** The engines: [targets] and [loads] are parallel, every load is the
    number of pending tasks of its engine, no engine is listed twice, and
    no task is pending twice. *)
Definition engines_ok (s : TaskScheduler) : Prop :=
  Forall2 (load_ok (pending s)) (targets s) (loads s) /\
  NoDup (targets s) /\
  (forall e p, PyDict.get e (pending s) = Some p -> NoDup (PyDict.keys p)) /\
  (forall e e' p p' m,
      PyDict.get e (pending s) = Some p -> PyDict.get e' (pending s) = Some p' ->
      PyDict.get m p <> None -> PyDict.get m p' <> None -> e = e').

(** The tasks: a pending task is not waiting, and pending and waiting tasks
    are unfinished. *)
Definition tasks_ok (s : TaskScheduler) : Prop :=
  (forall m, pend m s -> ~ waiting m s /\ unfinished m s) /\
  (forall m, waiting m s -> unfinished m s).

(** The finished tasks: [all_done] is the union of [all_completed] and
    [all_failed], which are disjoint, and every finished task was submitted. *)
Definition done_ok (s : TaskScheduler) : Prop :=
  done_union s /\
  (forall x, In x (all_completed s) -> ~ In x (all_failed s)) /\
  (forall x, In x (all_done s) -> In x (all_ids s)).

Definition Inv (s : TaskScheduler) : Prop := engines_ok s /\ tasks_ok s /\ done_ok s.

(** [msg_id] can be placed: it is unfinished and not pending. *)
Definition loose (m : string) (s : TaskScheduler) : Prop := ~ pend m s /\ unfinished m s.

(** The scheduler after [depending.pop(msg_id)]. *)
Definition unwait (m : string) (s : TaskScheduler) : TaskScheduler :=
  set_depending (PyDict.remove m (depending s)) s.

(** The scheduler after task [m] was sent to the engine at [idx]:
    [add_job(idx)] and [pending[target][msg_id] = ...]. *)
Definition dispatched (m : string) (t : task) (idx : nat) (e : ident) (l : Z)
  (p : PyDict.t task) (s : TaskScheduler) : TaskScheduler :=
  set_pending (PyDict.set e (PyDict.set m t p) (pending s))
    (set_loads (remove_nth idx (loads s) ++ [l + 1])
       (set_targets (remove_nth idx (targets s) ++ [e]) s)).

(** The messages that the event loop may hand over in scheduler [s]: a
    submission with a msg_id that was never submitted, a reply for a task
    that is pending on the replying engine, the registration of an engine
    that is not registered; anything else without condition. *)
Definition expected (s : TaskScheduler) (ev : event) : Prop :=
  match ev with
  | Submission _ raw => ~ In (h_msg_id (raw_header raw)) (all_ids s)
  | Result r =>
      exists p, PyDict.get (rep_engine r) (pending s) = Some p /\
                PyDict.get (rep_msg_id r) p <> None
  | Notification (registration_notification uid) => ~ In uid (targets s)
  | _ => True
  end.

(** A run in which every message is expected when it arrives. *)
Fixpoint expected_run (depth : nat) (s : TaskScheduler) (evs : list event) : Prop :=
  match evs with
  | [] => True
  | ev :: evs' => expected s ev /\ expected_run depth (step depth s ev) evs'
  end.

(** The outcome [out] of a method satisfies [Qok] when the method
    returned and [Qerr] when it raised. *)
Definition post {A : Type} (Qok : A -> TaskScheduler -> Prop)
  (Qerr : TaskScheduler -> Prop) (out : result A * TaskScheduler) : Prop :=
  match out with
  | (Ok a, s') => Qok a s'
  | (Raise _, s') => Qerr s'
  end.

(** [loads] after the load update of [dispatch_result] for a reply of
    [engine]: [finish_job(idx)] when the engine is registered. *)
Definition finished_loads (engine : ident) (s : TaskScheduler) : list Z :=
  match index_of engine (targets s) with
  | Some idx =>
      match nth_error (loads s) idx with
      | Some l => set_nth idx (l - 1) (loads s)
      | None => loads s
      end
  | None => loads s
  end.

(** An engine registers, a task is submitted, runs there, and succeeds. *)
Definition served_run : list event :=
  [ register "E1"; submit "T1" [] None MET;
    Result (mkReply "E1" "client" "T1" true true) ].

(** *** Re-scanning the waiting tasks (C7) *)


(** With a high water mark of one task, ["T2"] waits for its only target
    ["E1"], which is full; then ["E1"] unregisters. *)
Definition full_target_leaves : list event :=
  [ register "E1"; submit "T1" [] None MET; submit "T2" ["E1"] None MET;
    Notification (unregistration_notification "E1") ].

(** As [full_target_leaves], and ["E1"] stays. *)
Definition full_target_stays : list event :=
  [ register "E1"; submit "T1" [] None MET; submit "T2" ["E1"] None MET ].

(** [self.blacklist.setdefault(msg_id, set())]: the scheduler after it, and
    the set that it returns. *)
Definition with_blacklist (msg_id : string) (s : TaskScheduler) : TaskScheduler :=
  if PyDict.contains msg_id (blacklist s) then s
  else set_blacklist (PyDict.set msg_id [] (blacklist s)) s.

Definition blacklist_of (msg_id : string) (s : TaskScheduler) : PySet.t :=
  match PyDict.get msg_id (blacklist s) with
  | Some bl => bl
  | None => []
  end.

(** [maybe_run] cannot place the task and does not fail it: a filter is
    needed and lets no engine through, the follow dependencies did not run
    at more than one destination, and an engine that is registered is left
    in the targets once the blacklist is taken from them. *)
Definition blocked (msg_id : string) (t : task) (s : TaskScheduler) : Prop :=
  let bl := blacklist_of msg_id s in
  let tg := deref s (t_targets t) in
  PySet.truthy (dep_ids (t_follow t)) || PySet.truthy tg
    || PySet.truthy bl || negb (Z.eqb (hwm s) 0) = true /\
  no_eligible_engine t bl s /\
  fst (follow_impossible (t_follow t) s) = Ok false /\
  (PySet.truthy tg = true ->
   PySet.truthy (PySet.difference tg bl) = true /\
   PySet.truthy (PySet.intersection (PySet.difference tg bl) (targets s)) = true).

(** The loop of [update_graph] has nothing to do for the waiting task: its
    dependencies are not unreachable, and when its time dependencies are met
    it is [blocked]. *)
Definition still_waiting (msg_id : string) (t : task) (s : TaskScheduler) : Prop :=
  dep_unreachable (t_after t) (all_completed s) (all_failed s) = false /\
  dep_unreachable (t_follow t) (all_completed s) (all_failed s) = false /\
  (dep_check (t_after t) (all_completed s) (all_failed s) = true ->
   blocked msg_id (mkTask (t_raw t) (t_targets t) MET (t_follow t) (t_timeout t)) s).

Definition rescan_quiet (s : TaskScheduler) : Prop :=
  forall msg_id t, PyDict.get msg_id (depending s) = Some t -> still_waiting msg_id t s.

(** No two waiting tasks hold the same target set object. *)
Definition targets_unshared (s : TaskScheduler) : Prop :=
  forall m m' t t',
    PyDict.get m (depending s) = Some t -> PyDict.get m' (depending s) = Some t' ->
    t_targets t = t_targets t' -> m = m'.

(** [s'] is [s] but for [blacklist] and the target sets. *)
Definition same_but_location (s s' : TaskScheduler) : Prop :=
  s' = set_heap (heap s') (set_blacklist (blacklist s') s).

(** The scheduler after the loop of [update_graph] looked at a task that
    is [blocked]. *)
Definition looked_at (msg_id : string) (t : task) (s : TaskScheduler) : TaskScheduler :=
  if PySet.truthy (deref s (t_targets t))
  then difference_update (t_targets t) (blacklist_of msg_id s) (with_blacklist msg_id s)
  else with_blacklist msg_id s.

(** The ids that [save_unmet] and [fail_unreachable] look up in [graph]
    for a task: [follow.union(after)]. *)
Definition deps (t : task) : PySet.t :=
  PySet.union (dep_ids (t_follow t)) (dep_ids (t_after t)).

(** Every waiting task is among the waiters of each of its dependencies
    that has not finished. *)
Definition graph_consistent (s : TaskScheduler) : Prop :=
  forall m t d,
    PyDict.get m (depending s) = Some t -> In d (deps t) -> ~ In d (all_done s) ->
    exists g, PyDict.get d (graph s) = Some g /\ In m g.

(** What a scan of the waiting tasks relies on. *)
Definition scan_ready (s : TaskScheduler) : Prop :=
  graph_consistent s /\
  (forall m, waiting m s -> ~ In m (all_done s)) /\
  targets_unshared s /\
  List.length (targets s) = List.length (loads s).

(** Every waiting task is still waiting or is among the tasks [T] that the
    scan has yet to look at. *)
Definition scanning (T : list string) (s : TaskScheduler) : Prop :=
  scan_ready s /\
  forall m t, PyDict.get m (depending s) = Some t -> still_waiting m t s \/ In m T.

(** [s'] is [s] for the checks of a waiting task. *)
Definition same_view (s s' : TaskScheduler) : Prop :=
  all_completed s' = all_completed s /\ all_failed s' = all_failed s /\
  blacklist s' = blacklist s /\ heap s' = heap s /\ hwm s' = hwm s /\
  loads s' = loads s /\ targets s' = targets s /\
  completed s' = completed s /\ failed s' = failed s /\
  destinations s' = destinations s.

(** [self.graph.pop(dep_id, [])] *)
Definition waiters (dep_id : string) (s : TaskScheduler) : PySet.t :=
  match PyDict.get dep_id (graph s) with
  | Some g => g
  | None => []
  end.

(** [g'] has every waiter of [g] but [m]. *)
Definition graph_keeps (m : string) (g g' : PyDict.t PySet.t) : Prop :=
  forall d w x, PyDict.get d g = Some w -> In x w -> x <> m ->
                exists w', PyDict.get d g' = Some w' /\ In x w'.

(** [s'] is [s] after a task went to the engine at [idx], for the checks
    of the waiting tasks. *)
Definition dispatch_step (idx : nat) (e : ident) (l : Z) (s s' : TaskScheduler) : Prop :=
  nth_error (targets s) idx = Some e /\ nth_error (loads s) idx = Some l /\
  targets s' = remove_nth idx (targets s) ++ [e] /\
  loads s' = remove_nth idx (loads s) ++ [l + 1] /\
  all_completed s' = all_completed s /\ all_failed s' = all_failed s /\
  all_done s' = all_done s /\
  blacklist s' = blacklist s /\ heap s' = heap s /\ hwm s' = hwm s /\
  completed s' = completed s /\ failed s' = failed s /\
  destinations s' = destinations s /\
  depending s' = depending s /\ graph s' = graph s.

(** The scheduler of [full_target_leaves]. *)
Definition target_left : TaskScheduler := run 5 (start 1 leastload) full_target_leaves.

(** An engine registers and a task is submitted, which runs there; a
    second task waits for the first. *)
Definition one_running_one_waiting : list event :=
  [ register "E1"; submit "T1" [] None MET;
    submit "T2" [] (Some (on_success ["T1"])) MET ].

(** The finished tasks of [s] include [C], [F] and [D]. *)
Definition finished_include (C F D : PySet.t) (s : TaskScheduler) : Prop :=
  (forall x, In x C -> In x (all_completed s)) /\
  (forall x, In x F -> In x (all_failed s)) /\
  (forall x, In x D -> In x (all_done s)).

(** Two engines, one of which runs a task. *)
Definition two_engines_one_busy : TaskScheduler :=
  run 5 (start 0 leastload) [register "E1"; register "E2"; submit "T1" [] None MET].

(** The submission of ["T2"] by ["client"], without constraints. *)
Definition plain_T2 : raw_msg := mkRaw "client" (mkHeader "T2" [] 0 None MET None).

(** What a final reply [r] of an engine leaves in the scheduler [s'], from
    the scheduler [s] that received it with [completed[engine] = c] and
    [failed[engine] = f]. *)
Definition recorded (r : reply) (c f : PySet.t) (s s' : TaskScheduler) : Prop :=
  relayed s' =
    relayed s ++ [ClientRelay (rep_client r) (rep_engine r) (rep_msg_id r) (rep_ok r)] /\
  PyDict.get (rep_msg_id r) (retries s') = None /\
  PyDict.get (rep_msg_id r) (destinations s') = Some (rep_engine r) /\
  PySet.mem (rep_msg_id r) (all_done s') = true /\
  (if rep_ok r
   then all_completed s' = PySet.add (rep_msg_id r) (all_completed s) /\
        completed s' =
          PyDict.set (rep_engine r) (PySet.add (rep_msg_id r) c) (completed s) /\
        failed s' = failed s
   else PySet.mem (rep_msg_id r) (all_failed s') = true /\
        failed s' = PyDict.set (rep_engine r) (PySet.add (rep_msg_id r) f) (failed s) /\
        completed s' = completed s /\ all_completed s' = all_completed s).

(** The scheduler after the first part of [dispatch_submission], up to the
    reading of the dependencies, and the [args] that it builds. *)
Definition submitted (raw : raw_msg) (s : TaskScheduler) : TaskScheduler :=
  let hd := raw_header raw in
  set_retries (PyDict.set (h_msg_id hd) (h_retries hd) (retries s))
    (set_heap (heap s ++ [PySet.of_list (h_targets hd)])
       (set_all_ids (PySet.add (h_msg_id hd) (all_ids s))
          (set_sent (sent s ++ [MonInTask (h_msg_id hd)]) s))).

Definition submission_args (now : Z) (raw : raw_msg) (s : TaskScheduler) : task :=
  let hd := raw_header raw in
  mkTask raw (List.length (heap s)) (reduce_after (h_after hd) (submitted raw s))
    (as_dependency (h_follow hd))
    match h_timeout hd with
    | Some t => if Z.eqb t 0 then None else Some (now + t)
    | None => None
    end.

(** The verdict of [dispatch_submission] on the dependencies. *)
Definition submission_verdict (now : Z) (raw : raw_msg) (s : TaskScheduler)
  : validation :=
  let m := h_msg_id (raw_header raw) in
  let t := submission_args now raw s in
  match validate_dep m (t_after t) (submitted raw s) with
  | Valid => validate_dep m (t_follow t) (submitted raw s)
  | v => v
  end.

(** Some msg_id of [l] has waiters in [graph]. *)
Definition awaited (l : list string) (s : TaskScheduler) : bool :=
  existsb (fun mid => PyDict.contains mid (graph s)) l.

(** Task [m] is in no set of [graph]. *)
Definition unregistered (m : string) (s : TaskScheduler) : Prop :=
  forall mid g, PyDict.get mid (graph s) = Some g -> PySet.mem m g = false.

(** The scheduler after [fail_unreachable] has failed task [m] of [client]
    for the reason [w], before it calls [update_graph]. *)
Definition failed_task (m : string) (client : ident) (w : why) (s : TaskScheduler)
  : TaskScheduler :=
  let s1 := mark_failed m (set_depending (PyDict.remove m (depending s)) s) in
  set_sent (sent s1 ++ [ClientError client m w; MonOutTask m]) s1.

(** A submission that is to run after ["T1"], which is running, and after
    ["T9"], which was never submitted. *)
Definition after_unknown_T3 : raw_msg :=
  mkRaw "client" (mkHeader "T3" [] 0 (Some (on_success ["T1"; "T9"])) MET None).

(** Engine [e] is not registered and its entry in [pending] is [v]. *)
Definition parked (e : ident) (v : option (PyDict.t task)) (s : TaskScheduler) : Prop :=
  ~ In e (targets s) /\ PyDict.get e (pending s) = v.


(** * Properties *)

(** ** Rules for [hoare] *)

Lemma hoare_conseq (A : Type) (P P' Q Q' : TaskScheduler -> Prop) (m : M A) :
  hoare P' m Q' -> (forall s, P s -> P' s) -> (forall s, Q' s -> Q s) -> hoare P m Q.
Proof. unfold hoare; auto. Qed.

Lemma hoare_bind (A B : Type) (P R Q : TaskScheduler -> Prop) (m : M A) (f : A -> M B) :
  hoare P m R -> (forall s, R s -> Q s) -> (forall a, hoare R (f a) Q) ->
  hoare P (bind m f) Q.
Proof.
  unfold hoare, bind. intros Hm HRQ Hf s Hs. specialize (Hm s Hs).
  destruct (m s) as [[a|e] s']; simpl in *; auto.
Qed.

Lemma preserves_bind (A B : Type) (P : TaskScheduler -> Prop) (m : M A) (f : A -> M B) :
  preserves P m -> (forall a, preserves P (f a)) -> preserves P (bind m f).
Proof. intros Hm Hf. eapply hoare_bind; eauto. Qed.

Lemma preserves_ret (A : Type) (P : TaskScheduler -> Prop) (a : A) : preserves P (ret a).
Proof. intros s Hs; exact Hs. Qed.

Lemma preserves_raise (A : Type) (P : TaskScheduler -> Prop) (e : exn) :
  preserves P (@raise A e).
Proof. intros s Hs; exact Hs. Qed.

Lemma preserves_get_self (P : TaskScheduler -> Prop) : preserves P get_self.
Proof. intros s Hs; exact Hs. Qed.

Lemma hoare_modify (P Q : TaskScheduler -> Prop) (f : TaskScheduler -> TaskScheduler) :
  (forall s, P s -> Q (f s)) -> hoare P (modify f) Q.
Proof. intros H s Hs. now apply H. Qed.

Lemma preserves_mark_failed (B : Type) (P : TaskScheduler -> Prop)
  (m : string) (k : unit -> M B) :
  preserves P (bind (modify (mark_failed m)) k) ->
  preserves P
    (bind (modify (fun s => set_all_done (PySet.add m (all_done s)) s))
       (fun _ => bind (modify (fun s => set_all_failed (PySet.add m (all_failed s)) s)) k)).
Proof. intros H s Hs. exact (H s Hs). Qed.

Lemma preserves_getitem (V : Type) (P : TaskScheduler -> Prop) (k : string) (d : PyDict.t V) :
  preserves P (getitem k d).
Proof. intros s Hs. unfold getitem. now destruct (PyDict.get k d). Qed.

Lemma preserves_getindex (A : Type) (P : TaskScheduler -> Prop) (i : nat) (l : list A) :
  preserves P (getindex i l).
Proof. intros s Hs. unfold getindex. now destruct (nth_error l i). Qed.

Lemma preserves_read (A : Type) (P : TaskScheduler -> Prop) (f : TaskScheduler -> result A) :
  preserves P (fun s => (f s, s)).
Proof. intros s Hs; exact Hs. Qed.

Lemma preserves_for_each (A : Type) (P : TaskScheduler -> Prop) (l : list A)
  (body : A -> M unit) :
  (forall x, In x l -> preserves P (body x)) -> preserves P (for_each l body).
Proof.
  induction l as [|x l IH]; simpl; intros H.
  - apply preserves_ret.
  - apply preserves_bind; [apply H; now left|]. intros _. apply IH. intros y Hy.
    apply H. now right.
Qed.

Lemma preserves_filter_m (A : Type) (P : TaskScheduler -> Prop) (p : A -> M bool)
  (l : list A) :
  (forall x, preserves P (p x)) -> preserves P (filter_m p l).
Proof.
  intros H. induction l as [|x l IH]; simpl.
  - apply preserves_ret.
  - apply preserves_bind; [apply H|]. intros b.
    apply preserves_bind; [apply IH|]. intros r. apply preserves_ret.
Qed.

Lemma preserves_for_indices (A : Type) (P : TaskScheduler -> Prop) (l : list A)
  (indices : list nat) :
  preserves P (for_indices l indices).
Proof.
  induction indices as [|i rest IH]; simpl.
  - apply preserves_ret.
  - apply preserves_bind; [apply preserves_getindex|]. intros x.
    apply preserves_bind; [apply IH|]. intros r. apply preserves_ret.
Qed.

Lemma preserves_try_pass (P : TaskScheduler -> Prop) (m : M unit) :
  preserves P m -> preserves P (try_pass m).
Proof.
  intros H s Hs. specialize (H s Hs). unfold try_pass.
  now destruct (m s) as [[a|e] s'].
Qed.

Lemma preserves_try_or_return (P : TaskScheduler -> Prop) (m k : M unit) :
  preserves P m -> preserves P k -> preserves P (try_or_return m k).
Proof.
  intros Hm Hk s Hs. specialize (Hm s Hs). unfold try_or_return.
  destruct (m s) as [[a|e] s']; simpl in *; auto.
Qed.

(** The state is not touched by a computation that only reads. *)
Lemma filter_m_pure (A : Type) (p : A -> M bool) (l : list A) :
  (forall x s, snd (p x s) = s) -> forall s, snd (filter_m p l s) = s.
Proof.
  intros H. induction l as [|x l IH]; intros s; simpl; auto.
  unfold bind. specialize (H x s). destruct (p x s) as [[b|e] s1]; simpl in *; subst; auto.
  specialize (IH s). destruct (filter_m p l s) as [[r|e] s2]; simpl in *; subst; auto.
Qed.

(** ** The chooser [leastload] *)

Lemma list_min_spec (l : list Z) (m : Z) :
  list_min l = Some m -> In m l /\ forall x, In x l -> m <= x.
Proof.
  revert m; induction l as [|a l IH]; simpl; intros m H; [discriminate|].
  destruct (list_min l) as [m'|] eqn:E.
  - injection H as <-. destruct (IH m' eq_refl) as [Hin Hle]. split.
    + destruct (Z.min_spec a m') as [[_ ->]|[_ ->]]; auto.
    + intros x [<-|Hx]; [lia|]. specialize (Hle x Hx). lia.
  - injection H as <-. destruct l; [|simpl in E; destruct (list_min l); discriminate].
    split; [now left|]. intros x [<-|[]]. lia.
Qed.

Lemma list_min_nonempty (l : list Z) : l <> [] -> exists m, list_min l = Some m.
Proof.
  destruct l as [|a l]; [congruence|]. intros _. simpl.
  destruct (list_min l); eauto.
Qed.

Lemma index_Z_spec (x : Z) (l : list Z) :
  In x l ->
  exists i, index_Z x l = Some i /\ nth_error l i = Some x /\
            forall j y, (j < i)%nat -> nth_error l j = Some y -> y <> x.
Proof.
  induction l as [|a l IH]; simpl; [tauto|]. intros H.
  destruct (Z.eqb_spec x a) as [->|Hne].
  - exists 0%nat. repeat split; auto. intros j y Hj; lia.
  - destruct H as [H|H]; [congruence|].
    destruct (IH H) as (i & Hi & Hn & Hf). exists (S i). rewrite Hi. repeat split; auto.
    intros [|j] y Hj Hy; simpl in Hy.
    + injection Hy as <-. congruence.
    + apply (Hf j); auto. lia.
Qed.

(** C8: on a non-empty load vector [leastload] returns an index that holds
    the minimum load, and every earlier position holds a strictly larger
    load (first occurrence on a tie). *)
Theorem leastload_first_minimum (loads : list Z) :
  loads <> [] ->
  exists i m,
    leastload loads = Ok i /\
    nth_error loads i = Some m /\
    (forall x, In x loads -> m <= x) /\
    (forall j x, (j < i)%nat -> nth_error loads j = Some x -> m < x).
Proof.
  intros Hne. destruct (list_min_nonempty Hne) as [m Hm].
  destruct (list_min_spec _ Hm) as [Hin Hle].
  destruct (index_Z_spec _ _ Hin) as (i & Hi & Hn & Hf).
  exists i, m. unfold leastload. rewrite Hm, Hi. repeat split; auto.
  intros j x Hj Hx. specialize (Hf j x Hj Hx).
  assert (m <= x) by (apply Hle; eapply nth_error_In; eauto). lia.
Qed.

Lemma leastload_first_minimum_witness :
  exists i m,
    leastload [2; 1; 3; 1] = Ok i /\
    nth_error [2; 1; 3; 1] i = Some m /\
    (forall x, In x [2; 1; 3; 1] -> m <= x) /\
    (forall j x, (j < i)%nat -> nth_error [2; 1; 3; 1] j = Some x -> m < x).
Proof.
  apply (@leastload_first_minimum [2; 1; 3; 1]). discriminate.
Defined.

(** ** [add_job] and [finish_job] *)

Lemma nth_error_set_nth_eq (A : Type) (l : list A) (i : nat) (v x : A) :
  nth_error l i = Some x -> nth_error (set_nth i v l) i = Some v.
Proof.
  revert i; induction l as [|a l IH]; intros [|i]; simpl; try discriminate; auto.
Qed.

Lemma remove_nth_set_nth (A : Type) (l : list A) (i : nat) (v : A) :
  remove_nth i (set_nth i v l) = remove_nth i l.
Proof.
  revert i; induction l as [|a l IH]; intros [|i]; simpl; auto. now rewrite IH.
Qed.

Lemma length_set_nth (A : Type) (l : list A) (i : nat) (v : A) :
  List.length (set_nth i v l) = List.length l.
Proof.
  revert i; induction l as [|a l IH]; intros [|i]; simpl; auto.
Qed.

Lemma length_remove_nth (A : Type) (l : list A) (i : nat) (x : A) :
  nth_error l i = Some x -> S (List.length (remove_nth i l)) = List.length l.
Proof.
  revert i; induction l as [|a l IH]; intros [|i]; simpl; try discriminate; auto.
Qed.

Lemma combine_remove_nth (A B : Type) (la : list A) (lb : list B) (i : nat) :
  combine (remove_nth i la) (remove_nth i lb) = remove_nth i (combine la lb).
Proof.
  revert lb i; induction la as [|a la IH]; intros [|b lb] [|i]; simpl; auto.
  - now destruct la.
  - now rewrite IH.
Qed.

Lemma combine_snoc (A B : Type) (la : list A) (lb : list B) (a : A) (b : B) :
  List.length la = List.length lb ->
  combine (la ++ [a]) (lb ++ [b]) = combine la lb ++ [(a, b)].
Proof.
  revert lb; induction la as [|x la IH]; intros [|y lb]; simpl; try discriminate; auto.
  intros [= H]. now rewrite IH.
Qed.

Lemma combine_set_nth_r (A B : Type) (la : list A) (lb : list B) (i : nat) (a : A) (v : B) :
  nth_error la i = Some a ->
  combine la (set_nth i v lb) = set_nth i (a, v) (combine la lb).
Proof.
  revert lb i; induction la as [|x la IH]; intros [|b lb] [|i]; simpl;
    try discriminate; auto.
  - intros [= ->]. reflexivity.
  - intros H. now rewrite IH.
Qed.

Lemma add_job_ok (s : TaskScheduler) (idx : nat) (t : ident) (l : Z) :
  nth_error (targets s) idx = Some t ->
  nth_error (loads s) idx = Some l ->
  add_job idx s =
    (Ok tt, set_loads (remove_nth idx (loads s) ++ [l + 1])
              (set_targets (remove_nth idx (targets s) ++ [t]) s)).
Proof.
  intros Ht Hl. unfold add_job, bind, get_self, getindex, modify, ret. simpl.
  rewrite Hl. simpl. rewrite Ht. simpl.
  rewrite (nth_error_set_nth_eq _ _ _ Hl). simpl.
  rewrite remove_nth_set_nth. destruct s; reflexivity.
Qed.

(** C9: for a valid index, [add_job] adds one to the load at [idx] and moves
    position [idx] of [targets] and of [loads] to the tail: the pairs
    (target, load) of the other positions keep their order, the two lists
    keep equal lengths and the engine that got the job is last;
    [finish_job] takes one from the load at [idx] and moves nothing. *)
Theorem add_job_finish_job_spec (s : TaskScheduler) (idx : nat) (t : ident) (l : Z) :
  List.length (targets s) = List.length (loads s) ->
  nth_error (targets s) idx = Some t ->
  nth_error (loads s) idx = Some l ->
  (exists s',
      add_job idx s = (Ok tt, s') /\
      targets s' = remove_nth idx (targets s) ++ [t] /\
      loads s' = remove_nth idx (loads s) ++ [l + 1] /\
      combine (targets s') (loads s') =
        remove_nth idx (combine (targets s) (loads s)) ++ [(t, l + 1)] /\
      List.length (targets s') = List.length (loads s') /\
      List.length (targets s') = List.length (targets s) /\
      last (targets s') t = t /\ last (loads s') l = l + 1) /\
  (exists s',
      finish_job idx s = (Ok tt, s') /\
      targets s' = targets s /\
      loads s' = set_nth idx (l - 1) (loads s) /\
      nth_error (loads s') idx = Some (l - 1) /\
      List.length (loads s') = List.length (targets s')).
Proof.
  intros Hlen Ht Hl. split.
  - eexists. split; [apply (add_job_ok _ _ Ht Hl)|].
    destruct s; simpl in *.
    pose proof (length_remove_nth _ _ Ht) as L1.
    pose proof (length_remove_nth _ _ Hl) as L2.
    repeat split; auto.
    + rewrite combine_snoc by lia. now rewrite combine_remove_nth.
    + rewrite !length_app. simpl. lia.
    + rewrite length_app. simpl. lia.
    + now rewrite last_last.
    + now rewrite last_last.
  - eexists. split.
    + unfold finish_job, bind, get_self, getindex, modify, ret. rewrite Hl. reflexivity.
    + destruct s; simpl in *. repeat split; auto.
      * eapply nth_error_set_nth_eq; eauto.
      * rewrite length_set_nth. auto.
Qed.

Lemma add_job_finish_job_spec_witness :
  let s := set_loads [0; 2] (set_targets ["E1"%string; "E2"%string] (start 0 leastload)) in
  (exists s',
      add_job 0 s = (Ok tt, s') /\
      targets s' = remove_nth 0 (targets s) ++ ["E1"%string] /\
      loads s' = remove_nth 0 (loads s) ++ [0 + 1] /\
      combine (targets s') (loads s') =
        remove_nth 0 (combine (targets s) (loads s)) ++ [("E1"%string, 0 + 1)] /\
      List.length (targets s') = List.length (loads s') /\
      List.length (targets s') = List.length (targets s) /\
      last (targets s') "E1"%string = "E1"%string /\ last (loads s') 0 = 0 + 1) /\
  (exists s',
      finish_job 0 s = (Ok tt, s') /\
      targets s' = targets s /\
      loads s' = set_nth 0 (0 - 1) (loads s) /\
      nth_error (loads s') 0 = Some (0 - 1) /\
      List.length (loads s') = List.length (targets s')).
Proof.
  intro s.
  apply (@add_job_finish_job_spec s 0 "E1"%string 0); reflexivity.
Defined.

(** ** What the recursive methods assign *)

Ltac pres_step leaf :=
  first
    [ apply preserves_ret
    | apply preserves_raise
    | apply preserves_get_self
    | apply preserves_getitem
    | apply preserves_getindex
    | apply preserves_for_indices
    | apply preserves_read
    | apply hoare_modify; leaf
    | apply preserves_bind; [|intros ?]
    | apply preserves_for_each; intros ? ?
    | apply preserves_filter_m; intros ?
    | match goal with
      | |- preserves _ (match ?x with _ => _ end) => destruct x eqn:?
      | |- preserves _ (let _ := _ in _) => cbv zeta
      end ].

Ltac pres leaf := repeat (pres_step leaf).

Lemma km_moves_if (s0 : TaskScheduler) (b : bool) (s s' : TaskScheduler) :
  knot_moves s0 s -> (b = false -> knot_move s s') ->
  knot_moves s0 (if b then s else s').
Proof.
  intros H Hm. destruct b; auto. eapply km_step; eauto.
Qed.

Section Moves.
Variable s0 : TaskScheduler.

Ltac leaf :=
  intro; intro;
  match goal with
  | H : knot_moves _ _ |- _ =>
      first
        [ exact H
        | apply km_moves_if; [exact H|]; intro; now constructor
        | eapply km_step; [exact H|]; constructor; try discriminate; now auto ]
  end.

Lemma send_moves (f : frame) :
  (forall c e m ok, f <> ClientRelay c e m ok) -> preserves (knot_moves s0) (send f).
Proof.
  intros Hf. unfold send. apply hoare_modify. intros s H.
  eapply km_step; [exact H|]. now constructor.
Qed.

Lemma add_job_moves (idx : nat) : preserves (knot_moves s0) (add_job idx).
Proof. unfold add_job. pres leaf. Qed.

Lemma save_unmet_moves (msg_id : string) (t : task) :
  preserves (knot_moves s0) (save_unmet msg_id t).
Proof.
  unfold save_unmet. pres leaf.
Qed.

Lemma submit_task_moves (msg_id : string) (t : task) (indices : option (list nat)) :
  preserves (knot_moves s0) (submit_task msg_id t indices).
Proof.
  unfold submit_task.
  pres_step leaf. pres_step leaf. pres_step leaf.
  { destruct indices as [[|? ?]|]; pres leaf. }
  pres_step leaf. pres_step leaf. pres_step leaf.
  { destruct indices as [[|? ?]|]; pres leaf. }
  pres_step leaf. pres_step leaf. pres_step leaf.
  { apply send_moves. discriminate. }
  pres_step leaf. { apply add_job_moves. }
  pres_step leaf. pres_step leaf. pres_step leaf. pres_step leaf. pres_step leaf. pres_step leaf.
  apply send_moves. discriminate.
Qed.

Lemma scrub_graph_moves (msg_id : string) (follow after : Dependency) :
  preserves (knot_moves s0) (scrub_graph msg_id follow after).
Proof. unfold scrub_graph. pres leaf. Qed.

Lemma dests_moves (ds : PyDict.t ident) (l : list string) (init : M PySet.t) :
  preserves (knot_moves s0) init ->
  preserves (knot_moves s0)
    (fold_left (fun acc m => bind acc (fun d => bind (getitem m ds)
                                                  (fun e => ret (PySet.add e d)))) l init).
Proof.
  revert init. induction l as [|x l IH]; simpl; intros init H; auto.
  apply IH. pres leaf. exact H.
Qed.

Section Body.
Variable upd : option string -> bool -> M unit.
Hypothesis upd_moves : forall d b, preserves (knot_moves s0) (upd d b).

Ltac known :=
  first
    [ apply upd_moves
    | apply scrub_graph_moves
    | apply submit_task_moves
    | apply send_moves; discriminate
    | apply dests_moves; apply preserves_ret ].

Lemma fail_unreachable_body_moves (msg_id : string) (w : why) :
  preserves (knot_moves s0) (fail_unreachable_body upd msg_id w).
Proof.
  unfold fail_unreachable_body.
  repeat first
    [ known
    | match goal with
      | |- preserves _ (bind (modify (fun s => set_all_done _ s)) _) =>
          apply preserves_mark_failed
      end
    | pres_step leaf ].
Qed.

Lemma can_run_moves (t : task) (bl : PySet.t) (idx : nat) :
  preserves (knot_moves s0) (can_run t bl idx).
Proof. unfold can_run. pres leaf. Qed.

Lemma follow_impossible_moves (follow : Dependency) :
  preserves (knot_moves s0) (follow_impossible follow).
Proof. unfold follow_impossible. repeat first [known | pres_step leaf]. Qed.

Lemma maybe_run_body_moves (msg_id : string) (t : task) :
  preserves (knot_moves s0) (maybe_run_body upd msg_id t).
Proof.
  unfold maybe_run_body.
  repeat first [known | apply fail_unreachable_body_moves | apply can_run_moves
               | apply follow_impossible_moves | pres_step leaf].
Qed.

Lemma update_graph_body_moves (dep_id : option string) (success : bool) :
  preserves (knot_moves s0) (update_graph_body upd dep_id success).
Proof.
  unfold update_graph_body.
  repeat first [known | apply fail_unreachable_body_moves | apply maybe_run_body_moves
               | pres_step leaf].
  apply hoare_modify. intros s H. destruct dep_id; [|exact H].
  eapply km_step; [exact H|]. constructor.
Qed.
End Body.

Lemma update_graph_moves (depth : nat) (dep_id : option string) (success : bool) :
  preserves (knot_moves s0) (update_graph depth dep_id success).
Proof.
  revert dep_id success. induction depth as [|d IH]; intros dep_id success; simpl.
  - apply preserves_raise.
  - apply update_graph_body_moves. exact IH.
Qed.

Lemma fail_unreachable_moves (depth : nat) (msg_id : string) (w : why) :
  preserves (knot_moves s0) (fail_unreachable depth msg_id w).
Proof. apply fail_unreachable_body_moves. intros; apply update_graph_moves. Qed.

Lemma maybe_run_moves (depth : nat) (msg_id : string) (t : task) :
  preserves (knot_moves s0) (maybe_run depth msg_id t).
Proof. apply maybe_run_body_moves. intros; apply update_graph_moves. Qed.
End Moves.

(** ** Dictionaries and sets *)

Lemma get_set_same (V : Type) (k : string) (v : V) (d : PyDict.t V) :
  PyDict.get k (PyDict.set k v d) = Some v.
Proof.
  induction d as [|[k' v'] d IH]; simpl.
  - now rewrite String.eqb_refl.
  - destruct (String.eqb k k') eqn:E; simpl; rewrite E; auto.
Qed.

Lemma get_set_other (V : Type) (k k' : string) (v : V) (d : PyDict.t V) :
  k <> k' -> PyDict.get k (PyDict.set k' v d) = PyDict.get k d.
Proof.
  intros Hne. induction d as [|[k2 v2] d IH]; simpl.
  - destruct (String.eqb_spec k k'); congruence.
  - destruct (String.eqb_spec k' k2) as [->|Hk]; simpl.
    + destruct (String.eqb_spec k k2); congruence.
    + destruct (String.eqb_spec k k2); auto.
Qed.

Lemma get_remove_same (V : Type) (k : string) (d : PyDict.t V) :
  PyDict.get k (PyDict.remove k d) = None.
Proof.
  induction d as [|[k' v'] d IH]; simpl; auto.
  destruct (String.eqb k k') eqn:E; simpl; auto. now rewrite E.
Qed.

Lemma get_remove_other (V : Type) (k k' : string) (d : PyDict.t V) :
  k <> k' -> PyDict.get k (PyDict.remove k' d) = PyDict.get k d.
Proof.
  intros Hne. induction d as [|[k2 v2] d IH]; simpl; auto.
  destruct (String.eqb_spec k' k2) as [->|Hk]; simpl.
  - destruct (String.eqb_spec k k2); congruence.
  - destruct (String.eqb_spec k k2); auto.
Qed.


Lemma mem_In (x : string) (s : PySet.t) : PySet.mem x s = true <-> In x s.
Proof.
  unfold PySet.mem. rewrite existsb_exists. split.
  - intros (y & Hy & E). apply String.eqb_eq in E. now subst.
  - intros H. exists x. split; auto. apply String.eqb_refl.
Qed.

Lemma In_add (x y : string) (s : PySet.t) : In x (PySet.add y s) <-> x = y \/ In x s.
Proof.
  unfold PySet.add. destruct (PySet.mem y s) eqn:E.
  - apply mem_In in E. split; [auto|]. intros [->|H]; auto.
  - rewrite in_app_iff. simpl. intuition.
Qed.

Lemma mem_add_same (x : string) (s : PySet.t) : PySet.mem x (PySet.add x s) = true.
Proof. apply mem_In, In_add. now left. Qed.

Lemma mem_add_mono (x y : string) (s : PySet.t) :
  PySet.mem x s = true -> PySet.mem x (PySet.add y s) = true.
Proof. rewrite !mem_In, In_add. auto. Qed.

(** ** Properties kept by the recursive methods *)

Lemma knot_stable_moves (Q : TaskScheduler -> Prop) (s s' : TaskScheduler) :
  knot_stable Q -> knot_moves s s' -> Q s -> Q s'.
Proof.
  intros HQ H. induction H; auto. intros Hs. eapply HQ; eauto.
Qed.

Lemma stable_of_moves (A : Type) (Q : TaskScheduler -> Prop) (m : M A) :
  knot_stable Q -> (forall s0, preserves (knot_moves s0) m) -> preserves Q m.
Proof.
  intros HQ Hm s Hs. eapply knot_stable_moves; eauto. apply Hm. constructor.
Qed.

Lemma stable_update_graph (Q : TaskScheduler -> Prop) depth dep_id success :
  knot_stable Q -> preserves Q (update_graph depth dep_id success).
Proof. intros HQ. apply stable_of_moves; auto. intros; apply update_graph_moves. Qed.

Lemma stable_fail_unreachable (Q : TaskScheduler -> Prop) depth msg_id w :
  knot_stable Q -> preserves Q (fail_unreachable depth msg_id w).
Proof. intros HQ. apply stable_of_moves; auto. intros; apply fail_unreachable_moves. Qed.

Lemma stable_maybe_run (Q : TaskScheduler -> Prop) depth msg_id t :
  knot_stable Q -> preserves Q (maybe_run depth msg_id t).
Proof. intros HQ. apply stable_of_moves; auto. intros; apply maybe_run_moves. Qed.

Lemma stable_save_unmet (Q : TaskScheduler -> Prop) msg_id t :
  knot_stable Q -> preserves Q (save_unmet msg_id t).
Proof. intros HQ. apply stable_of_moves; auto. intros; apply save_unmet_moves. Qed.

Lemma relayed_snoc (l : list frame) (f : frame) :
  is_relay f = false -> filter is_relay (l ++ [f]) = filter is_relay l.
Proof. intros H. rewrite filter_app. simpl. rewrite H. apply app_nil_r. Qed.

Lemma not_relay (f : frame) :
  (forall c e m ok, f <> ClientRelay c e m ok) -> is_relay f = false.
Proof. intros H. destruct f; auto. exfalso. eapply H; eauto. Qed.






(** ** Running a method step by step *)

Lemma bind_modify (B : Type) (f : TaskScheduler -> TaskScheduler) (k : unit -> M B) s :
  bind (modify f) k s = k tt (f s).
Proof. reflexivity. Qed.

Lemma bind_get_self (B : Type) (k : TaskScheduler -> M B) s :
  bind get_self k s = k s s.
Proof. reflexivity. Qed.

Lemma bind_ret (A B : Type) (a : A) (k : A -> M B) s : bind (ret a) k s = k a s.
Proof. reflexivity. Qed.

Lemma bind_send (B : Type) (f : frame) (k : unit -> M B) s :
  bind (send f) k s = k tt (set_sent (sent s ++ [f]) s).
Proof. reflexivity. Qed.

Lemma bind_getitem_some (V B : Type) (key : string) (d : PyDict.t V) (v : V)
  (k : V -> M B) s :
  PyDict.get key d = Some v -> bind (getitem key d) k s = k v s.
Proof. intros H. unfold bind, getitem. now rewrite H. Qed.

Lemma bind_getitem_none (V B : Type) (key : string) (d : PyDict.t V) (k : V -> M B) s :
  PyDict.get key d = None -> bind (getitem key d) k s = (Raise (KeyError key), s).
Proof. intros H. unfold bind, getitem. now rewrite H. Qed.

Lemma bind_getindex_some (A B : Type) (i : nat) (l : list A) (v : A) (k : A -> M B) s :
  nth_error l i = Some v -> bind (getindex i l) k s = k v s.
Proof. intros H. unfold bind, getindex. now rewrite H. Qed.

Lemma bind_eq (A B : Type) (m : M A) (k : A -> M B) (s s' : TaskScheduler) (a : A) :
  m s = (Ok a, s') -> bind m k s = k a s'.
Proof. intros H. unfold bind. now rewrite H. Qed.

Lemma bind_bind (A B C : Type) (m : M A) (f : A -> M B) (g : B -> M C) s :
  bind (bind m f) g s = bind m (fun a => bind (f a) g) s.
Proof. unfold bind. destruct (m s) as [[a|e] s1]; auto. Qed.

Lemma index_of_nth (x : ident) (l : list ident) (i : nat) :
  index_of x l = Some i -> nth_error l i = Some x.
Proof.
  revert i; induction l as [|y l IH]; simpl; intros i; [discriminate|].
  destruct (String.eqb_spec x y) as [->|Hne].
  - now intros [= <-].
  - destruct (index_of x l) as [j|]; simpl; [|discriminate].
    intros [= <-]. simpl. now apply IH.
Qed.

Lemma nth_error_same_length (A B : Type) (la : list A) (lb : list B) (i : nat) (a : A) :
  List.length la = List.length lb -> nth_error la i = Some a ->
  exists b, nth_error lb i = Some b.
Proof.
  intros Hlen Ha. destruct (nth_error lb i) as [b|] eqn:E; eauto.
  apply nth_error_None in E. assert (nth_error la i <> None) as H by congruence.
  apply nth_error_Some in H. lia.
Qed.

(** ** Replies with [status='error'] *)

Ltac stable_leaf HQ :=
  intro; intro;
  first [ assumption | eapply HQ; [|eassumption]; constructor ].


Lemma finish_part_ok (s : TaskScheduler) (engine : ident) :
  List.length (targets s) = List.length (loads s) ->
  exists v,
    (bind get_self (fun s => match index_of engine (targets s) with
                             | None => ret tt
                             | Some idx => finish_job idx
                             end)) s = (Ok tt, set_loads v s).
Proof.
  intros Hlen. rewrite bind_get_self.
  destruct (index_of engine (targets s)) as [idx|] eqn:E.
  - apply index_of_nth in E.
    destruct (nth_error_same_length _ (loads s) _ Hlen E) as [l Hl].
    unfold finish_job. rewrite bind_get_self.
    erewrite bind_getindex_some by exact Hl. eexists. reflexivity.
  - exists (loads s). unfold ret. now destruct s.
Qed.





(** ** Inputs on which the claims fail *)



(** C3, as stated, fails: a second submission of a msg_id that is pending
    on the engine adds to the load and not to [pending]. *)
Lemma handler_restores_loads_counterexample :
  ~ handler_restores_loads 5
      (run 5 (start 0 leastload) [register "E1"; submit "T1" [] None MET])
      (submit "T1" [] None MET).
Proof.
  intros H. specialize (H eq_refl). vm_compute in H. discriminate H.
Qed.


(** C10, as stated, fails: no engine can run ["C"], whose follow
    dependencies ran in two places; the task is failed before its targets
    are updated, and ["E1"] of [blacklist["C"]] stays in them. *)
Lemma blacklist_leaves_targets_counterexample :
  ~ blacklist_leaves_targets 5 "C" task_C follow_in_two_places_miss.
Proof.
  intros H. apply (H ["E1"%string] eq_refl eq_refl eq_refl "E1"%string).
  - now left.
  - vm_compute. now left.
Qed.

(** ** Inputs on which the code fails *)

(** C5: ["T3"] is unreachable when it is submitted, since ["T0"] has
    failed; [fail_unreachable] is called for it and raises [KeyError] when
    it removes ["T3"] from [graph["T1"]], where it never was: the task is
    dropped from [depending], is not recorded in [all_failed], and no reply
    is sent to its client. *)
Theorem fail_unreachable_drops_task :
  let s := run 5 (start 0 leastload) unreachable_at_submission in
  let out := handler 5 submit_T3 s in
  fst out = Raise (KeyError "T3") /\
  PyDict.get "T3" (depending (snd out)) = None /\
  PySet.mem "T3" (all_failed (snd out)) = false /\
  client_replies "T3" (snd out) = [].
Proof. vm_compute. repeat split; reflexivity. Qed.

(** C6: the failure of ["F"] makes [update_graph] scan ["A"] and ["B"];
    failing ["A"] cascades to ["B"] and removes it from [depending], and
    the scan then looks ["B"] up in [depending] and raises [KeyError]. *)
Theorem update_graph_lookup_raises :
  let s := run 5 (start 0 leastload) cascading_failure in
  PyDict.get "F" (graph s) = Some ["A"; "B"] /\
  fst (handler 5 (Result (mkReply "E1" "client" "F" true false)) s)
    = Raise (KeyError "B").
Proof. vm_compute. split; reflexivity. Qed.

(** [audit_timeouts] rechecks the membership and returns on the like
    cascade. *)
Lemma audit_timeouts_rechecks :
  let s := run 5 (start 0 leastload)
             [ register "E1"; submit "F" [] None MET;
               Submission 0 (mkRaw "client"
                 (mkHeader "A" [] 0 None (on_success ["F"]) (Some 1)));
               Submission 0 (mkRaw "client"
                 (mkHeader "B" [] 0 (Some (on_success ["A"])) (on_success ["F"]) (Some 1))) ] in
  PyDict.keys (depending s) = ["A"; "B"] /\
  fst (handler 5 (Audit 10) s) = Ok tt /\
  depending (snd (handler 5 (Audit 10) s)) = [].
Proof. vm_compute. repeat split; reflexivity. Qed.

(** ** Methods that only read *)

Lemma reads_ret (A : Type) (a : A) : reads (ret a).
Proof. intros s; reflexivity. Qed.

Lemma reads_raise (A : Type) (e : exn) : reads (@raise A e).
Proof. intros s; reflexivity. Qed.

Lemma reads_get_self : reads get_self.
Proof. intros s; reflexivity. Qed.

Lemma reads_getitem (V : Type) (k : string) (d : PyDict.t V) : reads (getitem k d).
Proof. intros s. unfold getitem. now destruct (PyDict.get k d). Qed.

Lemma reads_getindex (A : Type) (i : nat) (l : list A) : reads (getindex i l).
Proof. intros s. unfold getindex. now destruct (nth_error l i). Qed.

Lemma reads_bind (A B : Type) (m : M A) (f : A -> M B) :
  reads m -> (forall a, reads (f a)) -> reads (bind m f).
Proof.
  intros Hm Hf s. unfold bind. specialize (Hm s).
  destruct (m s) as [[a|e] s1]; simpl in *; subst; auto. apply Hf.
Qed.

Ltac reads_step :=
  first
    [ apply reads_ret | apply reads_raise | apply reads_get_self
    | apply reads_getitem | apply reads_getindex
    | apply reads_bind; [|intros ?]
    | match goal with
      | |- reads (match ?x with _ => _ end) => destruct x
      | |- reads (let _ := _ in _) => cbv zeta
      end ].

Lemma reads_can_run (t : task) (bl : PySet.t) (idx : nat) : reads (can_run t bl idx).
Proof. unfold can_run. repeat reads_step. Qed.

Lemma reads_dests (ds : PyDict.t ident) (l : list string) (init : M PySet.t) :
  reads init ->
  reads (fold_left (fun acc m => bind acc (fun d => bind (getitem m ds)
                                                      (fun e => ret (PySet.add e d)))) l init).
Proof.
  revert init. induction l as [|x l IH]; simpl; intros init H; auto.
  apply IH. repeat reads_step. exact H.
Qed.

Lemma reads_follow_impossible (follow : Dependency) : reads (follow_impossible follow).
Proof.
  unfold follow_impossible.
  repeat first [apply reads_dests; apply reads_ret | reads_step].
Qed.

Lemma reads_filter_m (A : Type) (p : A -> M bool) (l : list A) :
  (forall x, reads (p x)) -> reads (filter_m p l).
Proof. intros H s. apply filter_m_pure. intros x s1. apply H. Qed.

Lemma reads_eq (A : Type) (m : M A) (s : TaskScheduler) (r : result A) :
  reads m -> fst (m s) = r -> m s = (r, s).
Proof. intros Hm Hr. specialize (Hm s). destruct (m s); simpl in *; congruence. Qed.

Lemma bind_reads (A B : Type) (m : M A) (f : A -> M B) (s : TaskScheduler) (a : A) :
  reads m -> fst (m s) = Ok a -> bind m f s = f a s.
Proof. intros Hm Ha. unfold bind. now rewrite (reads_eq s Hm Ha). Qed.

(** ** The target set of a task *)

Lemma nth_set_nth_same (A : Type) (l : list A) (i : nat) (v d : A) :
  (i < List.length l)%nat -> nth i (set_nth i v l) d = v.
Proof.
  revert i; induction l as [|a l IH]; intros [|i]; simpl; try lia; auto.
  intros H. apply IH. lia.
Qed.

Lemma nth_set_nth_other (A : Type) (l : list A) (i j : nat) (v d : A) :
  i <> j -> nth i (set_nth j v l) d = nth i l d.
Proof.
  revert i j; induction l as [|a l IH]; intros [|i] [|j]; simpl; try congruence; auto.
Qed.

Lemma set_nth_beyond (A : Type) (l : list A) (i : nat) (v : A) :
  (List.length l <= i)%nat -> set_nth i v l = l.
Proof.
  revert i; induction l as [|a l IH]; intros [|i]; simpl; try lia; auto.
  intros H. f_equal. apply IH. lia.
Qed.

Lemma truthy_deref_lt (s : TaskScheduler) (a : nat) :
  PySet.truthy (deref s a) = true -> (a < List.length (heap s))%nat.
Proof.
  unfold deref. intros H.
  destruct (Nat.lt_ge_cases a (List.length (heap s))) as [|Hge]; auto.
  rewrite nth_overflow in H by exact Hge. discriminate.
Qed.

Lemma In_difference (x : string) (a b : PySet.t) :
  In x (PySet.difference a b) <-> In x a /\ ~ In x b.
Proof.
  unfold PySet.difference. rewrite filter_In, negb_true_iff.
  rewrite <- (mem_In x b), not_true_iff_false. tauto.
Qed.

Lemma deref_difference_update (s : TaskScheduler) (a b : nat) (bl : PySet.t) (e : ident) :
  In e (deref (difference_update b bl s) a) -> In e (deref s a).
Proof.
  unfold difference_update, deref. simpl.
  destruct (Nat.eq_dec a b) as [->|Hne].
  - destruct (Nat.lt_ge_cases b (List.length (heap s))) as [Hlt|Hge].
    + rewrite nth_set_nth_same by exact Hlt. intros H. now apply In_difference in H.
    + now rewrite set_nth_beyond by exact Hge.
  - now rewrite nth_set_nth_other by exact Hne.
Qed.

Lemma stable_not_in_targets (e : ident) (a : nat) :
  knot_stable (fun s => ~ In e (deref s a)).
Proof.
  intros s s' H Hs; destruct H; auto.
  intros Hin. apply Hs. eapply deref_difference_update. exact Hin.
Qed.

Lemma maybe_run_no_engine (depth : nat) (msg_id : string) (t : task)
  (s : TaskScheduler) (bl : PySet.t) :
  PyDict.get msg_id (blacklist s) = Some bl ->
  no_eligible_engine t bl s ->
  PySet.truthy (deref s (t_targets t)) = true ->
  fst (follow_impossible (t_follow t) s) = Ok false ->
  let s1 := difference_update (t_targets t) bl s in
  maybe_run depth msg_id t s =
    (if negb (PySet.truthy (deref s1 (t_targets t)))
        || negb (PySet.truthy (PySet.intersection (deref s1 (t_targets t)) (targets s1)))
     then bind (modify (fun s => set_depending (PyDict.set msg_id t (depending s)) s))
            (fun _ => bind (fail_unreachable depth msg_id ImpossibleDependency)
                        (fun _ => ret false)) s1
     else (Ok false, s1)).
Proof.
  intros Hbl Hnone Htargets Hfollow s1.
  unfold maybe_run, maybe_run_body. rewrite bind_modify.
  unfold PyDict.contains. rewrite Hbl. rewrite bind_get_self.
  erewrite bind_getitem_some by exact Hbl. cbv zeta.
  rewrite Htargets, orb_true_r, !orb_true_l. cbv beta iota.
  erewrite bind_reads;
    [| apply reads_filter_m; intros; apply reads_can_run | exact Hnone ].
  cbv beta iota.
  erewrite bind_reads; [| apply reads_follow_impossible | exact Hfollow ].
  cbv beta iota. rewrite bind_modify, bind_get_self. fold (difference_update (t_targets t) bl s).
  fold s1. destruct (negb _ || negb _); reflexivity.
Qed.

(** C10, as the code has it: when [maybe_run] finds no eligible engine for
    a task with explicit targets, and the check of [follow] does not fail
    the task first, it removes every engine of [blacklist[msg_id]] from the
    stored target set before it tests for unreachability; the task is
    failed from that scheduler when nothing is left of the set or no
    registered engine is in it, and otherwise [maybe_run] returns [False]
    and that scheduler, for its caller to save the task again; in both
    cases no blacklisted engine is in the stored set afterwards. *)
Theorem maybe_run_updates_targets (depth : nat) (msg_id : string) (t : task)
  (s : TaskScheduler) (bl : PySet.t) :
  PyDict.get msg_id (blacklist s) = Some bl ->
  no_eligible_engine t bl s ->
  PySet.truthy (deref s (t_targets t)) = true ->
  fst (follow_impossible (t_follow t) s) = Ok false ->
  let s1 := difference_update (t_targets t) bl s in
  deref s1 (t_targets t) = PySet.difference (deref s (t_targets t)) bl /\
  maybe_run depth msg_id t s =
    (if negb (PySet.truthy (deref s1 (t_targets t)))
        || negb (PySet.truthy (PySet.intersection (deref s1 (t_targets t)) (targets s1)))
     then bind (modify (fun s => set_depending (PyDict.set msg_id t (depending s)) s))
            (fun _ => bind (fail_unreachable depth msg_id ImpossibleDependency)
                        (fun _ => ret false)) s1
     else (Ok false, s1)) /\
  (forall e, In e bl ->
             ~ In e (deref (snd (maybe_run depth msg_id t s)) (t_targets t))).
Proof.
  intros Hbl Hnone Htargets Hfollow s1.
  assert (deref s1 (t_targets t) = PySet.difference (deref s (t_targets t)) bl) as Hs1.
  { unfold s1, difference_update, deref at 1. simpl.
    apply nth_set_nth_same. now apply truthy_deref_lt. }
  pose proof (maybe_run_no_engine depth msg_id Hbl Hnone Htargets Hfollow) as Heq.
  cbv zeta in Heq. fold s1 in Heq.
  split; [exact Hs1|]. split; [exact Heq|].
  intros e He. rewrite Heq.
  assert (~ In e (deref s1 (t_targets t))) as Hnot.
  { rewrite Hs1. intros H. apply In_difference in H. tauto. }
  pose proof (stable_not_in_targets e (t_targets t)) as Hst.
  destruct (negb _ || negb _); [|exact Hnot].
  rewrite bind_modify.
  match goal with
  | |- ~ In e (deref (snd (?m ?s2)) _) =>
      cut (preserves (fun s => ~ In e (deref s (t_targets t))) m);
      [intros Hp; apply (Hp s2); exact Hnot|]
  end.
  apply preserves_bind; [apply stable_fail_unreachable; exact Hst|].
  intros _. apply preserves_ret.
Qed.

Lemma maybe_run_updates_targets_witness :
  let s := half_registered_miss in
  let t := task_T1 in
  let bl := ["E1"%string] in
  let s1 := difference_update (t_targets t) bl s in
  deref s1 (t_targets t) = PySet.difference (deref s (t_targets t)) bl /\
  maybe_run 5 "T1" t s =
    (if negb (PySet.truthy (deref s1 (t_targets t)))
        || negb (PySet.truthy (PySet.intersection (deref s1 (t_targets t)) (targets s1)))
     then bind (modify (fun s => set_depending (PyDict.set "T1" t (depending s)) s))
            (fun _ => bind (fail_unreachable 5 "T1" ImpossibleDependency)
                        (fun _ => ret false)) s1
     else (Ok false, s1)) /\
  (forall e, In e bl ->
             ~ In e (deref (snd (maybe_run 5 "T1" t s)) (t_targets t))).
Proof.
  intros s t bl.
  apply (@maybe_run_updates_targets 5 "T1" t s bl); reflexivity.
Defined.

(** ** Failing a task as unreachable *)






(** ** Location misses *)

Lemma stable_place_again (Q : TaskScheduler -> Prop) depth msg_id args :
  knot_stable Q -> preserves Q (place_again depth msg_id args).
Proof.
  intros HQ. unfold place_again.
  repeat first
    [ apply stable_fail_unreachable; exact HQ
    | apply stable_maybe_run; exact HQ
    | apply stable_save_unmet; exact HQ
    | pres_step ltac:(stable_leaf HQ) ].
Qed.

Lemma stable_hwm_wakeup (Q : TaskScheduler -> Prop) depth engine :
  knot_stable Q -> preserves Q (hwm_wakeup depth engine).
Proof.
  intros HQ. unfold hwm_wakeup.
  repeat first
    [ apply stable_update_graph; exact HQ
    | pres_step ltac:(stable_leaf HQ) ].
Qed.

Lemma set_set (V : Type) (k : string) (v1 v2 : V) (d : PyDict.t V) :
  PyDict.set k v2 (PyDict.set k v1 d) = PyDict.set k v2 d.
Proof.
  induction d as [|[k' v'] d IH]; simpl.
  - now rewrite String.eqb_refl.
  - destruct (String.eqb k k') eqn:E; simpl; rewrite E; auto. now rewrite IH.
Qed.

Lemma handle_unmet_dependency_eq (depth : nat) (r : reply) (s : TaskScheduler)
  (p : PyDict.t task) (args : task) :
  PyDict.get (rep_engine r) (pending s) = Some p ->
  PyDict.get (rep_msg_id r) p = Some args ->
  let bl0 := match PyDict.get (rep_msg_id r) (blacklist s) with
             | Some bl => bl
             | None => []
             end in
  let s3 := set_pending
              (PyDict.set (rep_engine r) (PyDict.remove (rep_msg_id r) p) (pending s))
              (set_blacklist
                 (PyDict.set (rep_msg_id r) (PySet.add (rep_engine r) bl0) (blacklist s)) s) in
  handle_unmet_dependency depth r s =
    bind (place_again depth (rep_msg_id r) args)
         (fun _ => hwm_wakeup depth (rep_engine r)) s3.
Proof.
  intros Hp Hargs bl0 s3. unfold handle_unmet_dependency. cbv zeta.
  rewrite bind_modify, bind_get_self. unfold PyDict.contains.
  subst s3 bl0.
  destruct (PyDict.get (rep_msg_id r) (blacklist s)) as [bl|] eqn:E.
  - erewrite bind_getitem_some by exact E.
    rewrite bind_modify, bind_get_self. simpl pending.
    erewrite bind_getitem_some by exact Hp.
    erewrite bind_getitem_some by exact Hargs.
    rewrite bind_modify. reflexivity.
  - erewrite bind_getitem_some by (simpl; apply get_set_same).
    rewrite bind_modify, bind_get_self. simpl pending.
    erewrite bind_getitem_some by exact Hp.
    erewrite bind_getitem_some by exact Hargs.
    rewrite bind_modify. simpl blacklist. rewrite set_set. reflexivity.
Qed.






Lemma fst_bind_ret (A B : Type) (m : M A) (g : A -> B) (s : TaskScheduler) :
  fst (bind m (fun a => ret (g a)) s) =
  match fst (m s) with Ok a => Ok (g a) | Raise e => Raise e end.
Proof. unfold bind. now destruct (m s) as [[a|e] s1]. Qed.

Lemma dests_fst (ds : PyDict.t ident) (l : list string) (init init' : M PySet.t)
  (s s' : TaskScheduler) :
  fst (init s) = fst (init' s') ->
  fst (fold_left (fun acc m => bind acc (fun d => bind (getitem m ds)
                                                    (fun e => ret (PySet.add e d)))) l init s) =
  fst (fold_left (fun acc m => bind acc (fun d => bind (getitem m ds)
                                                    (fun e => ret (PySet.add e d)))) l init' s').
Proof.
  revert init init'. induction l as [|x l IH]; simpl; intros init init' H; auto.
  apply IH. unfold bind.
  destruct (init s) as [[d|e] s1], (init' s') as [[d'|e'] s1']; simpl in *;
    try congruence.
  injection H as <-. unfold getitem. now destruct (PyDict.get x ds).
Qed.

Lemma follow_impossible_frame (follow : Dependency) (s s' : TaskScheduler) :
  all_completed s' = all_completed s ->
  all_failed s' = all_failed s ->
  destinations s' = destinations s ->
  fst (follow_impossible follow s') = fst (follow_impossible follow s).
Proof.
  intros Hc Hf Hd. unfold follow_impossible. rewrite !bind_get_self, Hc, Hf, Hd.
  destruct (dep_all follow); [|reflexivity]. cbv zeta.
  rewrite !fst_bind_ret. erewrite dests_fst; [reflexivity|reflexivity].
Qed.




(** ** [all_done] is the union of [all_completed] and [all_failed] *)

Lemma In_union (x : string) (a b : PySet.t) :
  In x (PySet.union a b) <-> In x a \/ In x b.
Proof.
  unfold PySet.union. revert a. induction b as [|y b IH]; simpl; intros a.
  - tauto.
  - rewrite IH, In_add. intuition (subst; auto).
Qed.



Ltac frame_leaf := intro; intro; match goal with H : _ |- _ => exact H end.


(** ** Properties kept by every handler *)

Section Handlers.
Variable Q : TaskScheduler -> Prop.
Hypothesis HQ : knot_stable Q.
Hypothesis HF : frame_stable Q.
Hypothesis HR : forall depth r success, preserves Q (handle_result depth r success).

Ltac hleaf :=
  intro; intro;
  first
    [ assumption
    | eapply HQ; [|eassumption]; constructor; fail
    | destruct HF as (F1 & F2 & F3 & F4 & F5 & F6 & F7 & F8 & F9 & F10);
      first [ apply F1 | apply F2 | apply F3 | apply F4 | apply F5
            | apply F6 | apply F7 | apply F8 | apply F9 | apply F10 ];
      assumption
    | match goal with
      | |- Q (if ?b then _ else _) => destruct b
      end;
      first
        [ assumption
        | destruct HF as (F1 & F2 & F3 & F4 & F5 & F6 & F7 & F8 & F9 & F10);
          first [ apply F1 | apply F2 | apply F3 | apply F4 | apply F5
                | apply F6 | apply F7 | apply F8 | apply F9 | apply F10 ];
          assumption ] ].

Ltac hknown :=
  first
    [ apply stable_update_graph; exact HQ
    | apply stable_fail_unreachable; exact HQ
    | apply stable_maybe_run; exact HQ
    | apply stable_save_unmet; exact HQ
    | apply stable_place_again; exact HQ
    | apply stable_hwm_wakeup; exact HQ
    | apply HR ].

Lemma handler_send (f : frame) : preserves Q (send f).
Proof. unfold send. apply hoare_modify. hleaf. Qed.

Lemma handler_finish_job (idx : nat) : preserves Q (finish_job idx).
Proof. unfold finish_job. pres hleaf. Qed.

Lemma handler_handle_unmet_dependency depth r :
  preserves Q (handle_unmet_dependency depth r).
Proof.
  unfold handle_unmet_dependency.
  repeat first [hknown | apply handler_send | pres_step hleaf].
Qed.

Lemma handler_dispatch_result depth r : preserves Q (dispatch_result depth r).
Proof.
  unfold dispatch_result. apply preserves_try_or_return.
  - repeat first [apply handler_finish_job | pres_step hleaf].
  - repeat first [hknown | apply handler_send | apply handler_handle_unmet_dependency
                 | pres_step hleaf].
Qed.

Lemma handler_handle_stranded_tasks depth engine :
  preserves Q (handle_stranded_tasks depth engine).
Proof.
  unfold handle_stranded_tasks.
  repeat first [apply handler_dispatch_result | pres_step hleaf].
Qed.

Lemma handler_register_engine depth uid : preserves Q (_register_engine depth uid).
Proof.
  unfold _register_engine. repeat first [hknown | pres_step hleaf].
Qed.

Lemma handler_unregister_engine uid : preserves Q (_unregister_engine uid).
Proof.
  unfold _unregister_engine. repeat first [hknown | pres_step hleaf].
Qed.

Lemma handler_dispatch_notification depth n :
  preserves Q (dispatch_notification depth n).
Proof.
  unfold dispatch_notification. apply preserves_try_pass.
  destruct n; [apply handler_register_engine|apply handler_unregister_engine].
Qed.

Lemma handler_dispatch_submission depth now raw :
  preserves Q (dispatch_submission depth now raw).
Proof.
  unfold dispatch_submission.
  repeat first [hknown | apply handler_send | pres_step hleaf].
Qed.

Lemma handler_audit_timeouts depth now : preserves Q (audit_timeouts depth now).
Proof.
  unfold audit_timeouts. repeat first [hknown | pres_step hleaf].
Qed.

Lemma handler_preserves depth ev : preserves Q (handler depth ev).
Proof.
  destruct ev; simpl.
  - apply handler_dispatch_submission.
  - apply handler_dispatch_result.
  - apply handler_dispatch_notification.
  - apply handler_audit_timeouts.
  - apply preserves_bind; [apply hoare_modify; hleaf|].
    intros _. apply handler_handle_stranded_tasks.
Qed.

Lemma step_preserves depth s ev : Q s -> Q (step depth s ev).
Proof. intros H. unfold step. now apply handler_preserves. Qed.

End Handlers.



(** ** The invariant *)

Lemma get_keys (V : Type) (k : string) (d : PyDict.t V) :
  PyDict.get k d <> None <-> In k (PyDict.keys d).
Proof.
  induction d as [|[k' v] d IH]; simpl; [tauto|].
  destruct (String.eqb_spec k k') as [->|Hne].
  - split; [auto|discriminate].
  - rewrite IH. split; [auto|]. intros [H|H]; [congruence|auto].
Qed.

Lemma remove_absent (V : Type) (k : string) (d : PyDict.t V) :
  PyDict.get k d = None -> PyDict.remove k d = d.
Proof.
  induction d as [|[k' v] d IH]; simpl; auto.
  destruct (String.eqb_spec k k') as [->|Hne]; [discriminate|].
  intros H. simpl. now rewrite IH.
Qed.

Lemma keys_set_absent (V : Type) (k : string) (v : V) (d : PyDict.t V) :
  PyDict.get k d = None -> PyDict.set k v d = d ++ [(k, v)].
Proof.
  induction d as [|[k' v'] d IH]; simpl; auto.
  destruct (String.eqb_spec k k') as [->|Hne]; [discriminate|].
  intros H. now rewrite IH.
Qed.

Lemma keys_set_present (V : Type) (k : string) (v : V) (d : PyDict.t V) :
  PyDict.get k d <> None -> PyDict.keys (PyDict.set k v d) = PyDict.keys d.
Proof.
  induction d as [|[k' v'] d IH]; simpl; [congruence|].
  destruct (String.eqb_spec k k') as [->|Hne]; simpl; auto.
  intros H. now rewrite IH.
Qed.

Lemma length_set_absent (V : Type) (k : string) (v : V) (d : PyDict.t V) :
  PyDict.get k d = None -> List.length (PyDict.set k v d) = S (List.length d).
Proof.
  intros H. rewrite keys_set_absent by exact H. rewrite length_app. simpl. lia.
Qed.

Lemma NoDup_keys_set (V : Type) (k : string) (v : V) (d : PyDict.t V) :
  NoDup (PyDict.keys d) -> NoDup (PyDict.keys (PyDict.set k v d)).
Proof.
  intros H. destruct (PyDict.get k d) eqn:E.
  - rewrite keys_set_present by congruence. exact H.
  - rewrite keys_set_absent by exact E. unfold PyDict.keys. rewrite map_app. simpl.
    apply NoDup_app; auto.
    + repeat constructor. simpl. tauto.
    + intros x Hx [<-|[]]. apply get_keys in Hx. congruence.
Qed.

Lemma keys_remove (V : Type) (k : string) (d : PyDict.t V) :
  PyDict.keys (PyDict.remove k d) = filter (fun x => negb (String.eqb k x)) (PyDict.keys d).
Proof.
  induction d as [|[k' v'] d IH]; simpl; auto.
  destruct (String.eqb k k'); simpl; now rewrite IH.
Qed.

Lemma NoDup_keys_remove (V : Type) (k : string) (d : PyDict.t V) :
  NoDup (PyDict.keys d) -> NoDup (PyDict.keys (PyDict.remove k d)).
Proof. intros H. rewrite keys_remove. now apply NoDup_filter. Qed.

Lemma length_remove_present (V : Type) (k : string) (d : PyDict.t V) :
  NoDup (PyDict.keys d) -> PyDict.get k d <> None ->
  S (List.length (PyDict.remove k d)) = List.length d.
Proof.
  induction d as [|[k' v'] d IH]; simpl; [congruence|].
  intros Hnd. inversion Hnd as [|? ? Hnotin Hnd']; subst.
  destruct (String.eqb_spec k k') as [->|Hne]; simpl.
  - intros _. rewrite remove_absent; auto.
    destruct (PyDict.get k' d) eqn:E; auto.
    exfalso. apply Hnotin. apply get_keys. congruence.
  - intros H. now rewrite IH.
Qed.

Lemma get_remove (V : Type) (k k' : string) (d : PyDict.t V) :
  PyDict.get k (PyDict.remove k' d) <> None ->
  k <> k' /\ PyDict.get k d <> None.
Proof.
  destruct (String.eqb_spec k k') as [->|Hne].
  - rewrite get_remove_same. congruence.
  - rewrite get_remove_other by exact Hne. auto.
Qed.

(** *** Lists of engines *)

Lemma In_remove_nth (A : Type) (l : list A) (i : nat) (x : A) :
  In x (remove_nth i l) -> In x l.
Proof.
  revert i; induction l as [|a l IH]; intros [|i]; simpl; auto.
  intros [H|H]; eauto.
Qed.

Lemma NoDup_remove_nth (A : Type) (l : list A) (i : nat) :
  NoDup l -> NoDup (remove_nth i l).
Proof.
  revert i; induction l as [|a l IH]; intros [|i] H; simpl; auto;
    inversion H; subst; auto.
  constructor; auto. intros Hin. apply In_remove_nth in Hin. contradiction.
Qed.

Lemma NoDup_not_In_remove_nth (A : Type) (l : list A) (i : nat) (x : A) :
  NoDup l -> nth_error l i = Some x -> ~ In x (remove_nth i l).
Proof.
  revert i; induction l as [|a l IH]; intros [|i] H; simpl; try discriminate;
    inversion H; subst.
  - now intros [= ->].
  - intros Hn [->|Hin].
    + apply nth_error_In in Hn. contradiction.
    + eapply IH; eauto.
Qed.

Lemma NoDup_rotate (A : Type) (l : list A) (i : nat) (x : A) :
  NoDup l -> nth_error l i = Some x -> NoDup (remove_nth i l ++ [x]).
Proof.
  intros H Hn. apply NoDup_app.
  - now apply NoDup_remove_nth.
  - repeat constructor. simpl. tauto.
  - intros y Hy [<-|[]]. eapply NoDup_not_In_remove_nth; eauto.
Qed.

Lemma Forall2_remove_nth (A B : Type) (R : A -> B -> Prop) (la : list A) (lb : list B)
  (i : nat) :
  Forall2 R la lb -> Forall2 R (remove_nth i la) (remove_nth i lb).
Proof.
  intros H. revert i. induction H; intros [|i]; simpl; auto.
Qed.

Lemma Forall2_nth_error (A B : Type) (R : A -> B -> Prop) (la : list A) (lb : list B)
  (i : nat) (a : A) (b : B) :
  Forall2 R la lb -> nth_error la i = Some a -> nth_error lb i = Some b -> R a b.
Proof.
  intros H. revert i. induction H; intros [|i]; simpl; try discriminate.
  - now intros [= ->] [= ->].
  - apply IHForall2.
Qed.

Lemma Forall2_impl_In (A B : Type) (R R' : A -> B -> Prop) (la : list A) (lb : list B) :
  (forall a b, In a la -> R a b -> R' a b) -> Forall2 R la lb -> Forall2 R' la lb.
Proof.
  intros Himp H. induction H; constructor.
  - apply Himp; auto. now left.
  - apply IHForall2. intros a b Ha. apply Himp. now right.
Qed.

Lemma Forall2_set_nth (A B : Type) (R R' : A -> B -> Prop) (la : list A) (lb : list B)
  (i : nat) (e : A) (v : B) :
  Forall2 R la lb -> NoDup la -> nth_error la i = Some e -> R' e v ->
  (forall a b, a <> e -> R a b -> R' a b) ->
  Forall2 R' la (set_nth i v lb).
Proof.
  intros H. revert i. induction H as [|a b la lb Hab H IH]; intros [|i] Hnd Hn Hv Himp;
    simpl in *; try discriminate; inversion Hnd; subst.
  - injection Hn as ->. constructor; auto.
    eapply Forall2_impl_In; [|exact H]. intros a' b' Hin. apply Himp.
    intros ->. contradiction.
  - constructor.
    + apply Himp; auto. intros ->. apply nth_error_In in Hn. contradiction.
    + eapply IH; eauto.
Qed.

Lemma index_of_None (x : ident) (l : list ident) : index_of x l = None -> ~ In x l.
Proof.
  induction l as [|y l IH]; simpl; [tauto|].
  destruct (String.eqb_spec x y) as [->|Hne]; [discriminate|].
  destruct (index_of x l); simpl; [discriminate|].
  intros _ [H|H]; [congruence|now apply IH].
Qed.

Lemma Forall2_snoc (A B : Type) (R : A -> B -> Prop) (la : list A) (lb : list B)
  (a : A) (b : B) :
  Forall2 R la lb -> R a b -> Forall2 R (la ++ [a]) (lb ++ [b]).
Proof. intros H Hab. apply Forall2_app; auto. Qed.

Lemma Forall2_loads_match (s : TaskScheduler) :
  Forall2 (load_ok (pending s)) (targets s) (loads s) -> loads_match_pending s = true.
Proof.
  unfold loads_match_pending. generalize (targets s) (loads s).
  intros la lb H. induction H as [|e l la lb (p & Hp & Hl) H IH]; simpl; auto.
  apply andb_true_iff in IH as [IH1 IH2]. rewrite IH1, IH2, Hp. simpl.
  rewrite andb_true_r. now apply Z.eqb_eq.
Qed.

(** *** What keeps the invariant *)

Lemma inv_unwait (m : string) (s : TaskScheduler) : Inv s -> Inv (unwait m s).
Proof.
  intros (He & (Hp & Hw) & Hd). split; [exact He|]. split; [|exact Hd]. split.
  - intros x Hx. destruct (Hp x Hx) as [Hnw Hu]. split; [|exact Hu].
    unfold waiting, unwait. simpl. intros H. apply get_remove in H. tauto.
  - intros x Hx. apply Hw. unfold waiting, unwait in *. simpl in Hx.
    apply get_remove in Hx. tauto.
Qed.

Lemma inv_wait (m : string) (t : task) (s : TaskScheduler) :
  Inv s -> loose m s -> Inv (set_depending (PyDict.set m t (depending s)) s).
Proof.
  intros (He & (Hp & Hw) & Hd) [Hnp Hu]. split; [exact He|]. split; [|exact Hd]. split.
  - intros x Hx. assert (pend x s) as Hx' by exact Hx.
    destruct (Hp x Hx') as [Hnw Hux]. split; [|exact Hux].
    unfold waiting. simpl. destruct (String.eqb_spec x m) as [->|Hne]; [tauto|].
    now rewrite get_set_other.
  - intros x Hx. unfold waiting in Hx. simpl in Hx.
    destruct (String.eqb_spec x m) as [->|Hne]; [exact Hu|].
    rewrite get_set_other in Hx by exact Hne. now apply Hw.
Qed.

Lemma inv_mark_failed (m : string) (s : TaskScheduler) :
  Inv s -> ~ pend m s -> ~ waiting m s -> ~ In m (all_done s) -> In m (all_ids s) ->
  Inv (mark_failed m s).
Proof.
  intros (He & (Hp & Hw) & (Hu & Hdis & Hids)) Hnp Hnw Hnd Hid.
  split; [exact He|]. split; [split|split; [|split]].
  - intros x Hx. assert (pend x s) as Hx' by exact Hx.
    destruct (Hp x Hx') as [H1 (H2 & H3 & H4)]. split; [exact H1|].
    split; [|split; assumption]. unfold mark_failed. simpl. rewrite In_add.
    intros [->|H]; tauto.
  - intros x Hx. assert (waiting x s) as Hx' by exact Hx.
    destruct (Hw x Hx') as (H2 & H3 & H4).
    split; [|split; assumption]. unfold mark_failed. simpl. rewrite In_add.
    intros [->|H]; tauto.
  - intros x. unfold mark_failed. simpl. rewrite !In_add, (Hu x). tauto.
  - intros x Hx. unfold mark_failed. simpl. rewrite In_add.
    intros [->|H]; [|eapply Hdis; eauto].
    apply Hnd, Hu. now left.
  - intros x. unfold mark_failed. simpl. rewrite In_add. intros [->|H]; auto.
Qed.

Lemma inv_mark_completed (m : string) (s : TaskScheduler) :
  Inv s -> ~ pend m s -> ~ waiting m s -> ~ In m (all_done s) -> In m (all_ids s) ->
  Inv (set_all_done (PySet.add m (all_done s))
         (set_all_completed (PySet.add m (all_completed s)) s)).
Proof.
  intros (He & (Hp & Hw) & (Hu & Hdis & Hids)) Hnp Hnw Hnd Hid.
  split; [exact He|]. split; [split|split; [|split]].
  - intros x Hx. assert (pend x s) as Hx' by exact Hx.
    destruct (Hp x Hx') as [H1 (H2 & H3 & H4)]. split; [exact H1|].
    split; [|split; assumption]. simpl. rewrite In_add.
    intros [->|H]; tauto.
  - intros x Hx. assert (waiting x s) as Hx' by exact Hx.
    destruct (Hw x Hx') as (H2 & H3 & H4).
    split; [|split; assumption]. simpl. rewrite In_add.
    intros [->|H]; tauto.
  - intros x. simpl. rewrite !In_add, (Hu x). tauto.
  - intros x. simpl. rewrite In_add. intros [->|H] Hf; [|eapply Hdis; eauto].
    apply Hnd, Hu. now right.
  - intros x. simpl. rewrite In_add. intros [->|H]; auto.
Qed.

Lemma waiting_loose (m : string) (s : TaskScheduler) : Inv s -> waiting m s -> loose m s.
Proof.
  intros (He & (Hp & Hw) & Hd) H. split; [|now apply Hw].
  intros Hpend. now destruct (Hp m Hpend).
Qed.

Lemma pend_dispatched (x m : string) (t : task) (idx : nat) (e : ident) (l : Z)
  (p : PyDict.t task) (s : TaskScheduler) :
  PyDict.get e (pending s) = Some p ->
  pend x (dispatched m t idx e l p s) -> x = m \/ pend x s.
Proof.
  intros Hp (e' & p' & He' & Hx). unfold dispatched in He'. simpl in He'.
  destruct (String.eqb_spec e' e) as [->|Hne].
  - rewrite get_set_same in He'. injection He' as <-.
    destruct (String.eqb_spec x m) as [->|Hxm]; [now left|].
    rewrite get_set_other in Hx by exact Hxm. right. now exists e, p.
  - rewrite get_set_other in He' by exact Hne. right. now exists e', p'.
Qed.

Lemma inv_dispatched (m : string) (t : task) (idx : nat) (e : ident) (l : Z)
  (p : PyDict.t task) (s : TaskScheduler) :
  Inv s -> loose m s ->
  nth_error (targets s) idx = Some e -> nth_error (loads s) idx = Some l ->
  PyDict.get e (pending s) = Some p ->
  Inv (unwait m (dispatched m t idx e l p s)).
Proof.
  intros (He & (Hp & Hw) & Hd) [Hnp Hu] Hte Hl He_p.
  destruct He as (Hf & Hnd & Hkeys & Honce).
  assert (PyDict.get m p = None) as Hmp.
  { destruct (PyDict.get m p) eqn:E; auto. exfalso. apply Hnp. exists e, p.
    split; auto. congruence. }
  split; [|split; [|exact Hd]].
  - split; [|split; [|split]].
    + unfold unwait, dispatched. simpl. apply Forall2_snoc.
      * eapply Forall2_impl_In; [|apply Forall2_remove_nth; exact Hf].
        intros a b Ha (p' & Hp' & Hb). exists p'. split; auto.
        rewrite get_set_other; auto. intros ->.
        eapply NoDup_not_In_remove_nth; eauto.
      * exists (PyDict.set m t p). split; [apply get_set_same|].
        rewrite length_set_absent by exact Hmp.
        destruct (Forall2_nth_error _ Hf Hte Hl) as (p' & Hp' & ->).
        assert (p' = p) as -> by congruence. lia.
    + unfold unwait, dispatched. simpl. now apply NoDup_rotate.
    + unfold unwait, dispatched. simpl. intros e' p' H.
      destruct (String.eqb_spec e' e) as [->|Hne].
      * rewrite get_set_same in H. injection H as <-. apply NoDup_keys_set. eauto.
      * rewrite get_set_other in H by exact Hne. eauto.
    + unfold unwait, dispatched. simpl. intros e1 e2 p1 p2 x H1 H2 Hx1 Hx2.
      assert (forall e' p', PyDict.get e' (PyDict.set e (PyDict.set m t p) (pending s)) = Some p' ->
                PyDict.get x p' <> None ->
                (e' = e /\ x = m) \/
                exists p0, PyDict.get e' (pending s) = Some p0 /\ PyDict.get x p0 <> None) as Hcase.
      { intros e' p' H Hx. destruct (String.eqb_spec e' e) as [->|Hne].
        - rewrite get_set_same in H. injection H as <-.
          destruct (String.eqb_spec x m) as [->|Hxm]; [now left|].
          rewrite get_set_other in Hx by exact Hxm. right. eauto.
        - rewrite get_set_other in H by exact Hne. right. eauto. }
      destruct (Hcase _ _ H1 Hx1) as [[E1 X1]|(q1 & Hq1 & Hxq1)],
               (Hcase _ _ H2 Hx2) as [[E2 X2]|(q2 & Hq2 & Hxq2)].
      * congruence.
      * exfalso. apply Hnp. subst x. now exists e2, q2.
      * exfalso. apply Hnp. subst x. now exists e1, q1.
      * eapply Honce; eauto.
  - split.
    + intros x Hx. assert (pend x (dispatched m t idx e l p s)) as Hx' by exact Hx.
      apply (pend_dispatched He_p) in Hx'.
      destruct Hx' as [->|Hx'].
      * split; [|exact Hu]. unfold waiting, unwait. simpl.
        rewrite get_remove_same. congruence.
      * destruct (Hp x Hx') as [H1 H2]. split; [|exact H2].
        unfold waiting, unwait. simpl. intros H. apply get_remove in H. tauto.
    + intros x Hx. apply Hw. unfold waiting, unwait in *. simpl in Hx.
      apply get_remove in Hx. tauto.
Qed.

(** ** Rules for [post] *)

Section Post.
Variables (A B : Type).
Variable Qok : B -> TaskScheduler -> Prop.
Variable Qerr : TaskScheduler -> Prop.

Lemma post_bind (R : A -> TaskScheduler -> Prop) (m : M A) (k : A -> M B) s :
  post R Qerr (m s) ->
  (forall a s1, R a s1 -> post Qok Qerr (k a s1)) ->
  post Qok Qerr (bind m k s).
Proof.
  intros Hm Hk. unfold bind. destruct (m s) as [[a|e] s1]; simpl in *; auto.
Qed.

Lemma post_bind_reads (m : M A) (k : A -> M B) s :
  reads m -> Qerr s ->
  (forall a, fst (m s) = Ok a -> post Qok Qerr (k a s)) ->
  post Qok Qerr (bind m k s).
Proof.
  intros Hm He Hk. unfold bind. specialize (Hm s).
  destruct (m s) as [[a|e] s1]; simpl in *; subst; auto.
Qed.

Lemma post_ret (b : B) s : Qok b s -> post Qok Qerr (ret b s).
Proof. auto. Qed.

Lemma post_raise (e : exn) s : Qerr s -> post Qok Qerr (@raise B e s).
Proof. auto. Qed.

Lemma post_snd (out : result B * TaskScheduler) (Q : TaskScheduler -> Prop) :
  post (fun _ => Q) Q out -> Q (snd out).
Proof. destruct out as [[b|e] s1]; auto. Qed.

Lemma post_weaken (Qok' : B -> TaskScheduler -> Prop) (Qerr' : TaskScheduler -> Prop)
  (out : result B * TaskScheduler) :
  post Qok' Qerr' out ->
  (forall b s, Qok' b s -> Qok b s) -> (forall s, Qerr' s -> Qerr s) ->
  post Qok Qerr out.
Proof. destruct out as [[b|e] s1]; simpl; auto. Qed.
End Post.

Lemma post_of_snd2 (B : Type) (out : result B * TaskScheduler)
  (Q Q' : TaskScheduler -> Prop) :
  Q (snd out) -> (Q' (snd out)) -> post (fun _ s => Q s /\ Q' s) Q out.
Proof. destruct out as [[b|e] s1]; simpl; auto. Qed.

Lemma post_of_snd (B : Type) (out : result B * TaskScheduler) (Q : TaskScheduler -> Prop) :
  Q (snd out) -> post (fun _ => Q) Q out.
Proof. destruct out as [[b|e] s1]; auto. Qed.

Lemma post_for_each (A : Type) (I : TaskScheduler -> Prop) (l : list A)
  (body : A -> M unit) s :
  I s ->
  (forall x s1, In x l -> I s1 -> post (fun _ => I) I (body x s1)) ->
  post (fun _ => I) I (for_each l body s).
Proof.
  revert s. induction l as [|x l IH]; simpl; intros s Hs Hb; auto.
  eapply post_bind.
  - apply Hb; auto.
  - intros a s1 H1. apply IH; auto.
Qed.

Lemma reads_for_indices (A : Type) (l : list A) (indices : list nat) :
  reads (for_indices l indices).
Proof.
  induction indices as [|i rest IH]; simpl; repeat reads_step. exact IH.
Qed.

Lemma reads_read (A : Type) (f : TaskScheduler -> result A) : reads (fun s => (f s, s)).
Proof. intros s; reflexivity. Qed.

Lemma add_job_raises (s : TaskScheduler) (idx : nat) :
  nth_error (loads s) idx = None -> add_job idx s = (Raise IndexError, s).
Proof.
  intros H. unfold add_job. rewrite bind_get_self. unfold bind, getindex.
  now rewrite H.
Qed.

(** ** The invariant along the recursive methods *)

Lemma getindex_ok (A : Type) (i : nat) (l : list A) (a : A) (s : TaskScheduler) :
  fst (getindex i l s) = Ok a -> nth_error l i = Some a.
Proof. unfold getindex. destruct (nth_error l i); simpl; congruence. Qed.

Lemma getitem_ok (V : Type) (k : string) (d : PyDict.t V) (v : V) (s : TaskScheduler) :
  fst (getitem k d s) = Ok v -> PyDict.get k d = Some v.
Proof. unfold getitem. destruct (PyDict.get k d); simpl; congruence. Qed.

Lemma submit_task_inv (m : string) (t : task) (indices : option (list nat))
  (s : TaskScheduler) :
  Inv s -> loose m s ->
  post (fun _ s' => Inv (unwait m s') /\
                    PyDict.get m (depending s') = PyDict.get m (depending s))
       Inv (submit_task m t indices s).
Proof.
  intros Hinv Hloose. unfold submit_task. cbv zeta. rewrite bind_get_self.
  apply post_bind_reads;
    [destruct indices as [[|? ?]|]; first [apply reads_for_indices|apply reads_ret]
    | exact Hinv | intros lds _].
  apply post_bind_reads; [apply reads_read | exact Hinv | intros idx0 _].
  apply post_bind_reads;
    [destruct indices as [[|? ?]|]; first [apply reads_getindex|apply reads_ret]
    | exact Hinv | intros idx _].
  apply post_bind_reads; [apply reads_getindex | exact Hinv | intros e He].
  apply getindex_ok in He. rewrite bind_send.
  set (s1 := set_sent _ s).
  destruct (nth_error (loads s) idx) as [l|] eqn:Hl.
  - erewrite bind_eq by (apply add_job_ok; [exact He|exact Hl]).
    rewrite bind_get_self.
    destruct Hinv as (Heng & Hrest). pose proof Heng as (Hf & _).
    destruct (Forall2_nth_error _ Hf He Hl) as (p & Hp & _).
    erewrite bind_getitem_some by exact Hp.
    rewrite bind_modify. unfold send, modify, post. split; [|reflexivity].
    exact (@inv_dispatched m (mkTask (t_raw t) (t_targets t) MET (t_follow t) (t_timeout t))
             idx e l p s (conj Heng Hrest) Hloose He Hl Hp).
  - unfold bind. rewrite add_job_raises by exact Hl. exact Hinv.
Qed.

Lemma scrub_graph_frame (Q : TaskScheduler -> Prop) msg_id follow after :
  (forall s v, Q s -> Q (set_graph v s)) ->
  preserves Q (scrub_graph msg_id follow after).
Proof.
  intros HQ. unfold scrub_graph.
  pres ltac:(intro; intro; apply HQ; assumption).
Qed.

Section InvBody.
Variable upd : option string -> bool -> M unit.
Hypothesis upd_inv : forall d b s, Inv s -> Inv (snd (upd d b s)).
Hypothesis upd_failed :
  forall x d b s, In x (all_failed s) -> In x (all_failed (snd (upd d b s))).

Lemma fail_unreachable_body_post (m : string) (w : why) (s : TaskScheduler) :
  Inv s ->
  post (fun _ s' => Inv s' /\ (waiting m s -> In m (all_failed s'))) Inv
       (fail_unreachable_body upd m w s).
Proof.
  intros Hinv. unfold fail_unreachable_body. rewrite bind_get_self.
  destruct (PyDict.get m (depending s)) as [t|] eqn:E;
    [|split; [exact Hinv|]; unfold waiting; congruence].
  rewrite bind_modify.
  set (R := fun s => Inv s /\ ~ pend m s /\ ~ waiting m s /\
                     ~ In m (all_done s) /\ In m (all_ids s)).
  assert (R (set_depending (PyDict.remove m (depending s)) s)) as HR.
  { assert (waiting m s) as Hw by (unfold waiting; congruence).
    destruct (waiting_loose Hinv Hw) as (Hnp & Hnd & Hid & _).
    split; [exact (inv_unwait m Hinv)|]. repeat split; auto.
    unfold waiting. simpl. rewrite get_remove_same. congruence. }
  apply post_bind with (R := fun _ => R).
  - apply post_weaken with (Qok' := fun _ => R) (Qerr' := R).
    + apply post_of_snd. apply (@scrub_graph_frame R); [|exact HR].
      intros s1 v H; exact H.
    + intros a s1 H; exact H.
    + intros s1 H. apply H.
  - intros a s2 (H2 & Hnp & Hnw & Hnd & Hid).
    rewrite !bind_modify, !bind_send.
    apply post_of_snd2.
    + apply upd_inv. exact (inv_mark_failed H2 Hnp Hnw Hnd Hid).
    + intros _. apply upd_failed. simpl. apply In_add. now left.
Qed.

Lemma fail_unreachable_body_inv (m : string) (w : why) (s : TaskScheduler) :
  Inv s -> Inv (snd (fail_unreachable_body upd m w s)).
Proof.
  intros H. apply post_snd.
  eapply post_weaken; [apply fail_unreachable_body_post; exact H| |auto].
  intros b s1 [H1 _]. exact H1.
Qed.

Lemma maybe_run_body_inv (m : string) (t : task) (s : TaskScheduler) :
  Inv s -> loose m s ->
  post (fun ran s' =>
          if ran : bool
          then Inv (unwait m s') /\
               PyDict.get m (depending s') = PyDict.get m (depending s)
          else Inv s' /\ (In m (all_failed s') \/ loose m s'))
       Inv (maybe_run_body upd m t s).
Proof.
  intros Hinv Hloose. unfold maybe_run_body. rewrite bind_modify, bind_get_self.
  set (s0 := if PyDict.contains m (blacklist s) then s else _).
  assert (Inv s0 /\ loose m s0 /\ depending s0 = depending s) as (Hinv0 & Hloose0 & Hdep0).
  { subst s0. destruct (PyDict.contains m (blacklist s)).
    - auto.
    - split; [exact Hinv|]. split; [exact Hloose|reflexivity]. }
  clearbody s0.
  assert (forall s1, Inv s1 -> loose m s1 -> depending s1 = depending s ->
            post (fun ran s' =>
                    if ran : bool
                    then Inv (unwait m s') /\
                         PyDict.get m (depending s') = PyDict.get m (depending s)
                    else Inv s' /\ (In m (all_failed s') \/ loose m s')) Inv
              (bind (modify (fun s => set_depending (PyDict.set m t (depending s)) s))
                    (fun _ => bind (fail_unreachable_body upd m ImpossibleDependency)
                                (fun _ => ret false)) s1)) as Hfail.
  { intros s1 H1 Hl1 _. rewrite bind_modify. eapply post_bind.
    - apply fail_unreachable_body_post. now apply inv_wait.
    - intros a s2 [H2 Hf]. simpl. split; [exact H2|]. left. apply Hf.
      unfold waiting. simpl. rewrite get_set_same. congruence. }
  assert (forall ind s1, Inv s1 -> loose m s1 -> depending s1 = depending s ->
            post (fun ran s' =>
                    if ran : bool
                    then Inv (unwait m s') /\
                         PyDict.get m (depending s') = PyDict.get m (depending s)
                    else Inv s' /\ (In m (all_failed s') \/ loose m s')) Inv
              (bind (submit_task m t ind) (fun _ => ret true) s1)) as Hsubmit.
  { intros ind s1 H1 Hl1 Hd1. eapply post_bind.
    - apply submit_task_inv; auto.
    - intros a s2 [H2 Hd2]. simpl. rewrite Hd2, Hd1. auto. }
  apply post_bind_reads; [apply reads_getitem | exact Hinv0 | intros bl _].
  cbv zeta.
  destruct (_ || _ || _ || _); [|now apply Hsubmit].
  apply post_bind_reads;
    [apply reads_filter_m; intros; apply reads_can_run | exact Hinv0 | intros indices _].
  destruct indices as [|i indices]; [|now apply Hsubmit].
  apply post_bind_reads;
    [apply reads_follow_impossible | exact Hinv0 | intros impossible _].
  destruct impossible; [now apply Hfail|].
  destruct (PySet.truthy (deref s0 (t_targets t))); [|simpl; auto].
  rewrite bind_modify, bind_get_self.
  destruct (_ || _); [|simpl; split; [exact Hinv0|right; exact Hloose0]].
  apply Hfail; first [exact Hinv0 | exact Hloose0 | exact Hdep0].
Qed.

Lemma update_graph_body_inv (dep_id : option string) (success : bool) (s : TaskScheduler) :
  Inv s -> Inv (snd (update_graph_body upd dep_id success s)).
Proof.
  intros Hinv. unfold update_graph_body. rewrite bind_get_self, bind_modify.
  cbv zeta. apply post_snd. apply post_for_each.
  { destruct dep_id; exact Hinv. }
  intros x s2 _ H2. rewrite bind_get_self.
  apply post_bind_reads; [apply reads_getitem | exact H2 | intros t Ht].
  apply getitem_ok in Ht.
  destruct (_ || _).
  { apply post_of_snd. now apply fail_unreachable_body_inv. }
  destruct (dep_check _ _ _); [|exact H2].
  eapply post_bind.
  - apply maybe_run_body_inv; [exact H2|].
    apply waiting_loose; auto. unfold waiting. congruence.
  - intros ran s3 H3. destruct ran; [|exact (proj1 H3)].
    destruct H3 as [H3 Hd]. rewrite bind_get_self.
    rewrite Ht in Hd. erewrite bind_getitem_some by exact Hd.
    rewrite bind_modify. apply post_of_snd.
    apply (@scrub_graph_frame Inv); [|exact H3].
    intros s4 v H; exact H.
Qed.
End InvBody.

Lemma stable_all_failed (x : string) : knot_stable (fun s => In x (all_failed s)).
Proof.
  intros s s' H Hs; destruct H; auto. unfold mark_failed. simpl.
  apply In_add. now right.
Qed.

Lemma update_graph_failed x depth d b s :
  In x (all_failed s) -> In x (all_failed (snd (update_graph depth d b s))).
Proof. apply (stable_update_graph depth d b (stable_all_failed x)). Qed.

Lemma update_graph_inv depth dep_id success s :
  Inv s -> Inv (snd (update_graph depth dep_id success s)).
Proof.
  revert dep_id success s. induction depth as [|d IH]; intros dep_id success s H; simpl.
  - exact H.
  - apply update_graph_body_inv; auto. intros; now apply update_graph_failed.
Qed.

Lemma fail_unreachable_inv depth m w s :
  Inv s -> Inv (snd (fail_unreachable depth m w s)).
Proof.
  apply fail_unreachable_body_inv.
  - intros; now apply update_graph_inv.
  - intros; now apply update_graph_failed.
Qed.

Lemma maybe_run_inv depth m t s :
  Inv s -> loose m s ->
  post (fun ran s' =>
          if ran : bool
          then Inv (unwait m s') /\
               PyDict.get m (depending s') = PyDict.get m (depending s)
          else Inv s' /\ (In m (all_failed s') \/ loose m s'))
       Inv (maybe_run depth m t s).
Proof.
  apply maybe_run_body_inv.
  - intros; now apply update_graph_inv.
  - intros; now apply update_graph_failed.
Qed.

(** ** The invariant along the handlers *)

Lemma unwait_absent (m : string) (s : TaskScheduler) :
  PyDict.get m (depending s) = None -> unwait m s = s.
Proof.
  intros H. unfold unwait. rewrite remove_absent by exact H. now destruct s.
Qed.

Lemma save_unmet_inv (m : string) (t : task) (s : TaskScheduler) :
  Inv s -> loose m s -> Inv (snd (save_unmet m t s)).
Proof.
  intros Hinv Hloose. unfold save_unmet. rewrite bind_modify, bind_get_self.
  match goal with
  | |- Inv (snd (for_each ?l ?body ?s1)) =>
      cut (preserves Inv (for_each l body));
      [intros Hp; apply (Hp s1); now apply inv_wait|]
  end.
  pres frame_leaf.
  apply hoare_modify. intros s1 H1.
  destruct (PyDict.contains _ _); exact H1.
Qed.

Lemma run_or_save_inv depth (m : string) (t : task) (s : TaskScheduler) :
  Inv s -> loose m s -> ~ waiting m s ->
  Inv (snd (bind (maybe_run depth m t)
              (fun ran : bool =>
                 if ran then ret tt
                 else bind get_self
                        (fun s => if PySet.mem m (all_failed s) then ret tt
                                  else save_unmet m t)) s)).
Proof.
  intros Hinv Hloose Hnw. apply post_snd. eapply post_bind.
  - now apply maybe_run_inv.
  - intros ran s1 H1. destruct ran.
    + destruct H1 as [H1 Hd]. simpl.
      rewrite unwait_absent in H1; [exact H1|].
      rewrite Hd. unfold waiting in Hnw.
      destruct (PyDict.get m (depending s)); [|reflexivity].
      exfalso. apply Hnw. discriminate.
    + destruct H1 as [H1 Hor]. rewrite bind_get_self.
      destruct (PySet.mem m (all_failed s1)) eqn:E; [exact H1|].
      apply post_of_snd. apply save_unmet_inv; auto.
      destruct Hor as [Hf|Hl]; auto.
      apply mem_In in Hf. congruence.
Qed.

Lemma place_again_inv depth (m : string) (args : task) (s : TaskScheduler) :
  Inv s -> loose m s -> ~ waiting m s -> Inv (snd (place_again depth m args s)).
Proof.
  intros Hinv Hloose Hnw. unfold place_again. rewrite bind_get_self.
  apply post_snd.
  apply post_bind_reads; [apply reads_getitem | exact Hinv | intros bl _].
  apply post_of_snd.
  destruct (PySet.eqb bl (deref s (t_targets args))).
  - rewrite bind_modify. apply fail_unreachable_inv. now apply inv_wait.
  - now apply run_or_save_inv.
Qed.

Lemma hwm_wakeup_inv depth engine s : Inv s -> Inv (snd (hwm_wakeup depth engine s)).
Proof.
  intros Hinv. unfold hwm_wakeup. rewrite bind_get_self.
  destruct (hwm s =? 0); [exact Hinv|].
  destruct (index_of engine (targets s)); [|exact Hinv].
  apply post_snd.
  apply post_bind_reads; [apply reads_getindex | exact Hinv | intros l _].
  apply post_of_snd. destruct (l =? hwm s - 1); [|exact Hinv].
  now apply update_graph_inv.
Qed.

Lemma finish_part_eq (engine : ident) (s : TaskScheduler) :
  Inv s ->
  bind get_self (fun s => match index_of engine (targets s) with
                          | None => ret tt
                          | Some idx => finish_job idx
                          end) s = (Ok tt, set_loads (finished_loads engine s) s).
Proof.
  intros ((Hf & _) & _). rewrite bind_get_self. unfold finished_loads.
  destruct (index_of engine (targets s)) as [idx|] eqn:E.
  - apply index_of_nth in E.
    destruct (nth_error_same_length _ (loads s) _ (Forall2_length Hf) E) as [l Hl].
    rewrite Hl. unfold finish_job. rewrite bind_get_self.
    erewrite bind_getindex_some by exact Hl. reflexivity.
  - unfold ret. now destruct s.
Qed.

Lemma inv_popped (e : ident) (m : string) (p : PyDict.t task) (R' : PyDict.t Z)
  (s : TaskScheduler) :
  Inv s ->
  PyDict.get e (pending s) = Some p -> PyDict.get m p <> None ->
  (forall x, x <> m -> PyDict.get x (retries s) <> None -> PyDict.get x R' <> None) ->
  let s' := set_pending (PyDict.set e (PyDict.remove m p) (pending s))
              (set_retries R' (set_loads (finished_loads e s) s)) in
  Inv s' /\ ~ pend m s' /\ ~ waiting m s' /\ ~ In m (all_done s') /\ In m (all_ids s').
Proof.
  intros ((Hf & Hnd & Hkeys & Honce) & (Hp & Hw) & Hd) He Hm HR s'.
  assert (pend m s) as Hpm by (now exists e, p).
  destruct (Hp m Hpm) as (Hnwm & Hndm & Hidm & _).
  assert (forall e' p' x, PyDict.get e' (pending s') = Some p' ->
            PyDict.get x p' <> None ->
            x <> m /\ exists q, PyDict.get e' (pending s) = Some q /\ PyDict.get x q <> None)
    as Hcase.
  { intros e' p' x H Hx. subst s'. simpl in H.
    destruct (String.eqb_spec e' e) as [->|Hne].
    - rewrite get_set_same in H. injection H as <-.
      apply get_remove in Hx. destruct Hx. split; eauto.
    - rewrite get_set_other in H by exact Hne. split; eauto.
      intros ->. apply Hne. eapply Honce; eauto. }
  assert (forall x, pend x s' -> x <> m /\ pend x s) as Hpend.
  { intros x (e' & p' & H & Hx). destruct (Hcase _ _ _ H Hx) as (Hne & q & Hq & Hxq).
    split; auto. now exists e', q. }
  assert (forall a b, a <> e -> load_ok (pending s) a b -> load_ok (pending s') a b) as Hother.
  { intros a b Ha (q & Hq & Hb). exists q. split; auto. subst s'. simpl.
    now rewrite get_set_other. }
  split; [split; [|split]|].
  - split; [|split; [|split]].
    + subst s'. simpl. unfold finished_loads.
      destruct (index_of e (targets s)) as [idx|] eqn:E.
      * apply index_of_nth in E.
        destruct (nth_error_same_length _ (loads s) _ (Forall2_length Hf) E) as [l Hl].
        rewrite Hl. eapply Forall2_set_nth; eauto.
        exists (PyDict.remove m p). split; [apply get_set_same|].
        destruct (Forall2_nth_error _ Hf E Hl) as (q & Hq & ->).
        assert (q = p) as -> by congruence.
        pose proof (length_remove_present m p (Hkeys _ _ He) Hm). lia.
      * apply index_of_None in E.
        eapply Forall2_impl_In; [|exact Hf]. intros a b Ha. apply Hother.
        intros ->. contradiction.
    + exact Hnd.
    + subst s'. simpl. intros e' p' H.
      destruct (String.eqb_spec e' e) as [->|Hne].
      * rewrite get_set_same in H. injection H as <-. apply NoDup_keys_remove. eauto.
      * rewrite get_set_other in H by exact Hne. eauto.
    + intros e1 e2 p1 p2 x H1 H2 Hx1 Hx2.
      destruct (Hcase _ _ _ H1 Hx1) as (_ & q1 & Hq1 & Hxq1).
      destruct (Hcase _ _ _ H2 Hx2) as (_ & q2 & Hq2 & Hxq2).
      eapply Honce; eauto.
  - split.
    + intros x Hx. destruct (Hpend x Hx) as [Hne Hx'].
      destruct (Hp x Hx') as (H1 & H2 & H3 & H4). split; [exact H1|].
      split; [exact H2|]. split; [exact H3|]. subst s'. simpl. now apply HR.
    + intros x Hx. assert (waiting x s) as Hx' by exact Hx.
      destruct (Hw x Hx') as (H2 & H3 & H4).
      split; [exact H2|]. split; [exact H3|]. subst s'. simpl. apply HR; auto.
      intros ->. contradiction.
  - exact Hd.
  - repeat split; auto. intros Hx. now destruct (Hpend m Hx).
Qed.


Lemma snd_bind (A B : Type) (Q : TaskScheduler -> Prop) (m : M A) (k : A -> M B) s :
  Q (snd (m s)) -> (forall a s1, Q s1 -> Q (snd (k a s1))) -> Q (snd (bind m k s)).
Proof. unfold bind. destruct (m s) as [[a|e] s1]; simpl; auto. Qed.

Lemma snd_getitem (V B : Type) (Q : TaskScheduler -> Prop) (key : string)
  (d : PyDict.t V) (k : V -> M B) s :
  Q s -> (forall v, PyDict.get key d = Some v -> Q (snd (k v s))) ->
  Q (snd (bind (getitem key d) k s)).
Proof. unfold bind, getitem. destruct (PyDict.get key d); simpl; auto. Qed.

Lemma snd_getindex (A B : Type) (Q : TaskScheduler -> Prop) (i : nat)
  (l : list A) (k : A -> M B) s :
  Q s -> (forall v, nth_error l i = Some v -> Q (snd (k v s))) ->
  Q (snd (bind (getindex i l) k s)).
Proof. unfold bind, getindex. destruct (nth_error l i); simpl; auto. Qed.

Lemma snd_for_each (A : Type) (Q : TaskScheduler -> Prop) (l : list A)
  (body : A -> M unit) s :
  Q s -> (forall x s1, In x l -> Q s1 -> Q (snd (body x s1))) ->
  Q (snd (for_each l body s)).
Proof.
  intros H Hb. apply post_snd, post_for_each; auto.
  intros x s1 Hx H1. apply post_of_snd; auto.
Qed.

Lemma handle_result_inv depth (r : reply) (success : bool) (p : PyDict.t task)
  (R' : PyDict.t Z) (s : TaskScheduler) :
  Inv s ->
  PyDict.get (rep_engine r) (pending s) = Some p ->
  PyDict.get (rep_msg_id r) p <> None ->
  (forall x, x <> rep_msg_id r ->
             PyDict.get x (retries s) <> None -> PyDict.get x R' <> None) ->
  Inv (snd (handle_result depth r success
              (set_retries R' (set_loads (finished_loads (rep_engine r) s) s)))).
Proof.
  intros HI He Hm HR.
  destruct (inv_popped (rep_engine r) R' HI He Hm HR) as (HI' & Hnp & Hnw & Hnd & Hid).
  unfold handle_result. rewrite bind_send, bind_modify, bind_get_self.
  erewrite bind_getitem_some by exact He.
  destruct (PyDict.get (rep_msg_id r) p) as [t|] eqn:Ha; [|contradiction].
  erewrite bind_getitem_some by exact Ha.
  rewrite bind_modify.
  match goal with |- Inv (snd (bind _ _ ?s0)) => set (s3 := s0) end.
  assert (Inv s3) as HI3 by exact HI'.
  destruct success.
  - rewrite bind_bind, bind_get_self. cbv beta. rewrite bind_bind.
    apply snd_getitem; [exact HI3|]. intros c _.
    rewrite !bind_bind, !bind_modify.
    apply update_graph_inv.
    exact (inv_mark_completed HI3 Hnp Hnw Hnd Hid).
  - rewrite bind_bind, bind_get_self. cbv beta. rewrite bind_bind.
    apply snd_getitem; [exact HI3|]. intros c _.
    rewrite !bind_bind, !bind_modify.
    apply update_graph_inv.
    exact (inv_mark_failed HI3 Hnp Hnw Hnd Hid).
Qed.

Lemma handle_unmet_dependency_inv depth (r : reply) (p : PyDict.t task)
  (R' : PyDict.t Z) (s : TaskScheduler) :
  Inv s ->
  PyDict.get (rep_engine r) (pending s) = Some p ->
  PyDict.get (rep_msg_id r) p <> None ->
  (forall x, PyDict.get x (retries s) <> None -> PyDict.get x R' <> None) ->
  Inv (snd (handle_unmet_dependency depth r
              (set_retries R' (set_loads (finished_loads (rep_engine r) s) s)))).
Proof.
  intros HI He Hm HR.
  destruct (inv_popped (rep_engine r) R' HI He Hm (fun x _ => HR x)) as (HI' & Hnp & Hnw & Hnd & Hid).
  destruct (PyDict.get (rep_msg_id r) p) as [args|] eqn:Ha; [|contradiction].
  erewrite handle_unmet_dependency_eq by (try exact He; exact Ha).
  match goal with |- Inv (snd (bind _ _ ?s0)) => set (s3 := s0) end.
  assert (Inv s3) as HI3 by exact HI'.
  apply snd_bind.
  - apply place_again_inv; auto. split; [exact Hnp|]. split; [exact Hnd|].
    split; [exact Hid|]. simpl. apply HR.
    destruct HI as (_ & (Hp & _) & _).
    assert (pend (rep_msg_id r) s) as Hpm.
    { exists (rep_engine r), p. split; auto. rewrite Ha. discriminate. }
    now destruct (Hp _ Hpm) as (_ & _ & _ & ?).
  - intros _ s1 H1. now apply hwm_wakeup_inv.
Qed.


Lemma dispatch_result_inv depth (r : reply) (s : TaskScheduler) :
  Inv s ->
  (exists p, PyDict.get (rep_engine r) (pending s) = Some p /\
             PyDict.get (rep_msg_id r) p <> None) ->
  Inv (snd (dispatch_result depth r s)).
Proof.
  intros HI (p & He & Hm). unfold dispatch_result, try_or_return.
  rewrite (finish_part_eq _ HI).
  assert (PyDict.get (rep_msg_id r) (retries s) <> None) as Hr.
  { destruct HI as (_ & (Hp & _) & _).
    assert (pend (rep_msg_id r) s) as Hpm by (now exists (rep_engine r), p).
    now destruct (Hp _ Hpm) as (_ & _ & _ & ?). }
  destruct (rep_dependencies_met r).
  - rewrite bind_get_self.
    destruct (PyDict.get (rep_msg_id r) (retries s)) as [n|] eqn:Hn; [|contradiction].
    erewrite bind_getitem_some by exact Hn.
    destruct (negb (rep_ok r) && (0 <? n)).
    + rewrite bind_modify. apply handle_unmet_dependency_inv with (p := p); auto.
      intros x Hx. simpl. destruct (String.eqb_spec x (rep_msg_id r)) as [->|Hne].
      * rewrite get_set_same. discriminate.
      * now rewrite get_set_other.
    + rewrite bind_modify. apply snd_bind.
      * apply handle_result_inv with (p := p); auto.
        intros x Hne Hx. simpl. now rewrite get_remove_other.
      * intros _ s1 H1. exact H1.
  - exact (@handle_unmet_dependency_inv depth r p (retries s) s HI He Hm (fun x H => H)).
Qed.


Lemma inv_submitted (m : string) (n : Z) (s : TaskScheduler) :
  Inv s -> ~ In m (all_ids s) ->
  let s' := set_retries (PyDict.set m n (retries s))
              (set_all_ids (PySet.add m (all_ids s)) s) in
  Inv s' /\ loose m s' /\ ~ waiting m s'.
Proof.
  intros (He & (Hp & Hw) & Hu & Hdj & Hsub) Hm s'.
  assert (forall x, unfinished x s -> unfinished x s') as Hunf.
  { intros x (H1 & H2 & H3). split; [exact H1|]. split.
    - subst s'. simpl. apply In_add. auto.
    - subst s'. simpl. destruct (String.eqb_spec x m) as [->|Hne].
      + rewrite get_set_same. discriminate.
      + now rewrite get_set_other. }
  assert (~ pend m s) as Hnp.
  { intros H. destruct (Hp m H) as (_ & _ & H2 & _). contradiction. }
  assert (~ waiting m s) as Hnw.
  { intros H. destruct (Hw m H) as (_ & H2 & _). contradiction. }
  split; [|split].
  - split; [exact He|]. split; [split|].
    + intros x Hx. assert (pend x s) as Hx' by exact Hx.
      destruct (Hp x Hx') as [H1 H2]. split; [exact H1|]. now apply Hunf.
    + intros x Hx. assert (waiting x s) as Hx' by exact Hx. apply Hunf. now apply Hw.
    + split; [exact Hu|]. split; [exact Hdj|].
      intros x Hx. subst s'. simpl. apply In_add. right. now apply Hsub.
  - split; [exact Hnp|]. split; [|split].
    + intros H. apply Hm. now apply Hsub.
    + subst s'. simpl. apply In_add. now left.
    + subst s'. simpl. rewrite get_set_same. discriminate.
  - exact Hnw.
Qed.

Lemma dispatch_submission_inv depth (now : Z) (raw : raw_msg) (s : TaskScheduler) :
  Inv s -> ~ In (h_msg_id (raw_header raw)) (all_ids s) ->
  Inv (snd (dispatch_submission depth now raw s)).
Proof.
  intros HI Hfresh. unfold dispatch_submission.
  rewrite bind_send, bind_modify, bind_get_self, bind_modify, bind_modify. cbv beta.
  pose proof (@inv_submitted _ (h_retries (raw_header raw)) _ HI Hfresh) as H.
  match goal with
  | |- Inv (snd (bind get_self _ ?s0)) =>
      assert (Inv s0 /\ loose (h_msg_id (raw_header raw)) s0 /\
              ~ waiting (h_msg_id (raw_header raw)) s0) as H' by exact H;
      clear H; revert H'; generalize s0
  end.
  intros s4 (HI4 & Hl & Hnw). rewrite bind_get_self. cbv beta zeta.
  match goal with
  | |- Inv (snd (match ?v with Valid => _ | _ => _ end _)) => destruct v
  end.
  - match goal with
    | |- Inv (snd ((if ?c then _ else _) _)) => destruct c
    end.
    + now apply run_or_save_inv.
    + now apply save_unmet_inv.
  - rewrite bind_modify. apply fail_unreachable_inv. now apply inv_wait.
  - rewrite bind_modify. apply fail_unreachable_inv. now apply inv_wait.
Qed.


Lemma inv_registered (uid : ident) (s : TaskScheduler) :
  Inv s -> ~ In uid (targets s) ->
  Inv (set_pending (PyDict.set uid [] (pending s))
         (set_loads (0 :: loads s) (set_targets (uid :: targets s) s))).
Proof.
  intros ((Hf & Hnd & Hkeys & Honce) & (Hp & Hw) & Hd) Hn.
  assert (forall e p x,
            PyDict.get e (PyDict.set uid [] (pending s)) = Some p ->
            PyDict.get x p <> None -> PyDict.get e (pending s) = Some p) as Hold.
  { intros e p x H Hx. destruct (String.eqb_spec e uid) as [->|Hne].
    - rewrite get_set_same in H. injection H as <-. now elim Hx.
    - now rewrite get_set_other in H. }
  split; [|split].
  - split; [|split; [|split]]; simpl.
    + constructor.
      * exists []. split; [apply get_set_same|reflexivity].
      * eapply Forall2_impl_In; [|exact Hf]. intros a b Ha (q & Hq & Hb).
        exists q. split; auto. rewrite get_set_other; auto. intros ->. contradiction.
    + now constructor.
    + intros e p H. destruct (String.eqb_spec e uid) as [->|Hne].
      * rewrite get_set_same in H. injection H as <-. constructor.
      * rewrite get_set_other in H by exact Hne. eauto.
    + intros e1 e2 p1 p2 x H1 H2 Hx1 Hx2.
      eapply Honce; eauto.
  - split.
    + intros x (e & p & H & Hx). simpl in H. apply Hp. exists e, p. split; eauto.
    + exact Hw.
  - exact Hd.
Qed.

Lemma register_engine_inv depth (uid : ident) (s : TaskScheduler) :
  Inv s -> ~ In uid (targets s) -> Inv (snd (_register_engine depth uid s)).
Proof.
  intros HI Hn. unfold _register_engine. rewrite !bind_modify. cbv beta.
  apply update_graph_inv.
  pose proof (@inv_registered uid s HI Hn) as H.
  match goal with |- context [if ?c then _ else _] => destruct c end; exact H.
Qed.

Lemma inv_unregistered (idx : nat) (s : TaskScheduler) :
  Inv s ->
  Inv (set_loads (remove_nth idx (loads s)) (set_targets (remove_nth idx (targets s)) s)).
Proof.
  intros ((Hf & Hnd & Hkeys & Honce) & Ht & Hd).
  split; [|split; [exact Ht|exact Hd]].
  split; [|split; [|split]]; simpl.
  - now apply Forall2_remove_nth.
  - now apply NoDup_remove_nth.
  - exact Hkeys.
  - exact Honce.
Qed.

Lemma unregister_engine_inv (uid : ident) (s : TaskScheduler) :
  Inv s -> Inv (snd (_unregister_engine uid s)).
Proof.
  intros HI. unfold _unregister_engine. rewrite bind_modify. cbv beta.
  match goal with
  | |- Inv (snd (bind get_self _ ?x)) =>
      assert (Inv x) as HI0
        by (match goal with |- context [if ?c then _ else _] => destruct c end; exact HI);
      revert HI0; generalize x
  end.
  clear s HI. intros s HI. rewrite bind_get_self.
  destruct (index_of uid (targets s)) as [idx|] eqn:E; [|exact HI].
  rewrite bind_modify.
  destruct HI as ((Hf & Hrest) & Hrest').
  destruct (nth_error_same_length _ (loads s) _ (Forall2_length Hf)
              (index_of_nth _ _ E)) as [l Hl].
  erewrite bind_getindex_some by exact Hl. rewrite bind_modify, bind_get_self.
  pose proof (@inv_unregistered idx s (conj (conj Hf Hrest) Hrest')) as H.
  apply snd_getitem; [exact H|]. intros p _. destruct p as [|x p].
  - apply snd_getitem; [exact H|]. intros c _. rewrite bind_modify, bind_get_self.
    apply snd_getitem; [exact H|]. intros f _. exact H.
  - exact H.
Qed.


Lemma handle_stranded_tasks_inv depth (engine : ident) (s : TaskScheduler) :
  Inv s -> Inv (snd (handle_stranded_tasks depth engine s)).
Proof.
  intros HI. unfold handle_stranded_tasks. rewrite bind_get_self.
  apply snd_getitem; [exact HI|]. intros lost _. apply snd_bind.
  - apply snd_for_each; [exact HI|]. intros m s1 _ H1. rewrite bind_get_self.
    apply snd_getitem; [exact H1|]. intros p Hp.
    destruct (PyDict.get m p) as [t|] eqn:Hm; [|exact H1].
    apply dispatch_result_inv; [exact H1|]. exists p. simpl. split; [exact Hp|].
    rewrite Hm. discriminate.
  - intros _ s1 H1. rewrite bind_get_self.
    apply snd_getitem; [exact H1|]. intros c _. rewrite bind_modify, bind_get_self.
    apply snd_getitem; [exact H1|]. intros f _. exact H1.
Qed.

Lemma audit_timeouts_inv depth (now : Z) (s : TaskScheduler) :
  Inv s -> Inv (snd (audit_timeouts depth now s)).
Proof.
  intros HI. unfold audit_timeouts. rewrite bind_get_self.
  apply snd_for_each; [exact HI|]. intros m s1 _ H1. rewrite bind_get_self.
  destruct (PyDict.get m (depending s1)) as [t|]; [|exact H1].
  destruct (t_timeout t) as [deadline|]; [|exact H1].
  destruct (deadline <? now); [|exact H1].
  now apply fail_unreachable_inv.
Qed.

Lemma snd_try_pass (m : M unit) (s : TaskScheduler) : snd (try_pass m s) = snd (m s).
Proof. unfold try_pass. now destruct (m s) as [[a|e] s1]. Qed.

Lemma step_inv depth (s : TaskScheduler) (ev : event) :
  Inv s -> expected s ev -> Inv (step depth s ev).
Proof.
  intros HI He. unfold step. destruct ev as [now raw|r|n|now|engine]; simpl handler.
  - now apply dispatch_submission_inv.
  - now apply dispatch_result_inv.
  - unfold dispatch_notification. rewrite snd_try_pass. destruct n as [uid|uid].
    + now apply register_engine_inv.
    + now apply unregister_engine_inv.
  - now apply audit_timeouts_inv.
  - rewrite bind_modify. apply handle_stranded_tasks_inv. exact HI.
Qed.

Lemma run_inv depth (evs : list event) (s : TaskScheduler) :
  Inv s -> expected_run depth s evs -> Inv (run depth s evs).
Proof.
  revert s. induction evs as [|ev evs IH]; intros s HI He; [exact HI|].
  destruct He as [He Hrest]. apply IH; [|exact Hrest]. now apply step_inv.
Qed.

Lemma start_inv (hwm : Z) (scheme : list Z -> result nat) : Inv (start hwm scheme).
Proof.
  split; [|split].
  - split; [constructor|]. split; [constructor|].
    split; intros; discriminate.
  - split; intros m H.
    + destruct H as (e & p & H & _). discriminate.
    + now elim H.
  - split; [|split]; simpl.
    + intros x. simpl. tauto.
    + intros x [].
    + intros x [].
Qed.


Lemma served_run_expected : expected_run 5 (start 0 leastload) served_run.
Proof.
  split; [|split; [|split]].
  - vm_compute. tauto.
  - vm_compute. tauto.
  - eexists. split; [vm_compute; reflexivity|]. vm_compute. discriminate.
  - exact I.
Qed.


Lemma expected_run_app depth (evs1 evs2 : list event) (s : TaskScheduler) :
  expected_run depth s (evs1 ++ evs2) -> expected_run depth s evs1.
Proof.
  revert s. induction evs1 as [|ev evs1 IH]; intros s H; [exact I|].
  destruct H as [He Hrest]. split; [exact He|]. now apply IH.
Qed.

Lemma expected_run_inv depth hwm scheme (evs1 evs2 : list event) :
  expected_run depth (start hwm scheme) (evs1 ++ evs2) ->
  Inv (run depth (start hwm scheme) evs1).
Proof.
  intros H. apply run_inv; [apply start_inv|]. eapply expected_run_app, H.
Qed.

(** ** Loads and pending tasks (C3) *)

(** C3, amended: along a run from the start in which every submission
    carries a msg_id that was not submitted before, every result is for a
    task that is pending on the engine that replies, and every registration
    is of an engine that is not registered, [loads[i]] is
    [len(pending[targets[i]])] for every index [i] after every handler,
    whether the handler returned or raised. *)
Theorem loads_match_pending_expected depth hwm scheme (evs1 evs2 : list event) :
  expected_run depth (start hwm scheme) (evs1 ++ evs2) ->
  loads_match_pending (run depth (start hwm scheme) evs1) = true.
Proof.
  intros H. apply Forall2_loads_match.
  now destruct (expected_run_inv _ _ _ _ _ H) as ((Hf & _) & _).
Qed.

Lemma loads_match_pending_expected_witness :
  expected_run 5 (start 0 leastload) (served_run ++ []) /\
  loads_match_pending (run 5 (start 0 leastload) served_run) = true.
Proof.
  split; [exact served_run_expected|].
  apply (@loads_match_pending_expected 5 0 leastload served_run []).
  exact served_run_expected.
Defined.

(** ** The sets of finished tasks (C4) *)




(** ** Re-scanning the waiting tasks (C7) *)

Lemma filter_m_fst_frame (A : Type) (p : A -> M bool) (l : list A) (s s' : TaskScheduler) :
  (forall x, reads (p x)) ->
  (forall x, In x l -> fst (p x s') = fst (p x s)) ->
  fst (filter_m p l s') = fst (filter_m p l s).
Proof.
  intros Hr. induction l as [|x l IH]; intros H; [reflexivity|]. simpl. unfold bind.
  pose proof (H x (or_introl eq_refl)) as Hx.
  pose proof (Hr x s) as H1. pose proof (Hr x s') as H2.
  destruct (p x s) as [r1 s1], (p x s') as [r2 s2]. simpl in *. subst s1 s2 r2.
  destruct r1 as [b|e]; [|reflexivity].
  assert (fst (filter_m p l s') = fst (filter_m p l s)) as IH'
    by (apply IH; intros y Hy; apply H; now right).
  destruct (filter_m p l s) as [r1 s1], (filter_m p l s') as [r2 s2]. simpl in *.
  subst r2. now destruct r1.
Qed.

Lemma filter_m_nil (A : Type) (p : A -> M bool) (l : list A) (s : TaskScheduler) :
  (forall x, reads (p x)) ->
  (fst (filter_m p l s) = Ok [] <-> forall x, In x l -> fst (p x s) = Ok false).
Proof.
  intros Hr. induction l as [|x l IH]; simpl.
  - split; [intros _ y []|reflexivity].
  - unfold bind. pose proof (Hr x s) as H1.
    destruct (p x s) as [[b|e] s1] eqn:E; simpl in H1; subst s1.
    + pose proof (@reads_filter_m _ p l Hr s) as H2.
      destruct (filter_m p l s) as [[r|e] s2] eqn:E2; simpl in H2; subst s2; simpl in *.
      * split.
        -- intros H. destruct b; [discriminate|]. injection H as ->.
           intros y [<-|Hy]; [now rewrite E|]. now apply IH.
        -- intros H. pose proof (H x (or_introl eq_refl)) as Hx. rewrite E in Hx.
           simpl in Hx. injection Hx as ->.
           assert (Ok r = Ok []) as Hnil by (apply IH; intros y Hy; apply H; now right).
           now injection Hnil as ->.
      * split; [discriminate|]. intros H.
        assert (Raise e = Ok (@nil A)) as Hnil by (apply IH; intros y Hy; apply H; now right).
        discriminate.
    + simpl. split; [discriminate|]. intros H.
      pose proof (H x (or_introl eq_refl)) as Hx. rewrite E in Hx. discriminate.
Qed.

(** [m] does not look at the scheduler. *)
Lemma blind_bind (A B : Type) (m : M A) (k : A -> M B) :
  (exists r, forall s, m s = (r, s)) ->
  (forall a, exists r, forall s, k a s = (r, s)) ->
  exists r, forall s, bind m k s = (r, s).
Proof.
  intros [[a|e] Hm] Hk.
  - destruct (Hk a) as [r Hr]. exists r. intros s. unfold bind. now rewrite Hm.
  - exists (Raise e). intros s. unfold bind. now rewrite Hm.
Qed.

Ltac blind_step :=
  first
    [ apply blind_bind; [|intros ?]
    | match goal with
      | |- exists r, forall s, (match ?x with _ => _ end) s = (r, s) => destruct x
      | |- exists r, forall s, ret ?a s = (r, s) => exists (Ok a); reflexivity
      | |- exists r, forall s, raise ?e s = (r, s) => exists (Raise e); reflexivity
      | |- exists r, forall s, getindex _ _ s = (r, s) => unfold getindex
      | |- exists r, forall s, getitem _ _ s = (r, s) => unfold getitem
      end ].

Lemma can_run_fst_frame (t : task) (bl : PySet.t) (idx : nat) (s s' : TaskScheduler) :
  hwm s' = hwm s -> loads s' = loads s -> targets s' = targets s ->
  deref s' (t_targets t) = deref s (t_targets t) ->
  completed s' = completed s -> failed s' = failed s ->
  fst (can_run t bl idx s') = fst (can_run t bl idx s).
Proof.
  intros H1 H2 H3 H4 H5 H6. unfold can_run. rewrite !bind_get_self.
  rewrite H1, H2, H3, H4, H5, H6.
  match goal with
  | |- fst (?m _) = _ => assert (exists r, forall s, m s = (r, s)) as [r Hr]
  end.
  { repeat blind_step. }
  now rewrite !Hr.
Qed.


Lemma mem_difference (x : string) (a b : PySet.t) :
  PySet.mem x b = false -> PySet.mem x (PySet.difference a b) = PySet.mem x a.
Proof.
  intros H. apply eq_true_iff_eq. rewrite !mem_In, In_difference.
  assert (~ In x b) as Hn by (rewrite <- mem_In; congruence). tauto.
Qed.

Lemma truthy_difference (a b : PySet.t) :
  PySet.truthy (PySet.difference a b) = true -> PySet.truthy a = true.
Proof. now destruct a. Qed.

Lemma difference_idem (a b : PySet.t) :
  PySet.difference (PySet.difference a b) b = PySet.difference a b.
Proof.
  unfold PySet.difference. induction a as [|x a IH]; simpl; [reflexivity|].
  destruct (PySet.mem x b) eqn:E; simpl; [exact IH|]. rewrite E. simpl. now rewrite IH.
Qed.

Lemma can_run_difference (t : task) (bl : PySet.t) (idx : nat) (s s' : TaskScheduler) :
  hwm s' = hwm s -> loads s' = loads s -> targets s' = targets s ->
  completed s' = completed s -> failed s' = failed s ->
  deref s' (t_targets t) = PySet.difference (deref s (t_targets t)) bl ->
  PySet.truthy (PySet.difference (deref s (t_targets t)) bl) = true ->
  fst (can_run t bl idx s) = Ok false -> fst (can_run t bl idx s') = Ok false.
Proof.
  intros H1 H2 H3 H5 H6 H4 Ht H. unfold can_run in *. rewrite !bind_get_self in *.
  rewrite H1, H2, H3, H4, H5, H6, Ht. rewrite (truthy_difference _ _ Ht) in H.
  unfold bind, getindex, getitem, ret, raise in *.
  destruct (hwm s =? 0); cbv beta iota in *.
  - destruct (negb true && (0 =? hwm s)); [reflexivity|].
    destruct (nth_error (targets s) idx) as [target|]; cbv beta iota in *; [|exact H].
    destruct (PySet.mem target bl) eqn:Eb; [reflexivity|].
    rewrite (@mem_difference target (deref s (t_targets t)) bl Eb).
    destruct (true && negb (PySet.mem target (deref s (t_targets t)))); [reflexivity|].
    destruct (PyDict.get target (completed s)); cbv beta iota in *; [|exact H].
    destruct (PyDict.get target (failed s)); cbv beta iota in *; exact H.
  - destruct (nth_error (loads s) idx) as [l|]; cbv beta iota in *; [|exact H].
    destruct (negb false && (l =? hwm s)); [reflexivity|].
    destruct (nth_error (targets s) idx) as [target|]; cbv beta iota in *; [|exact H].
    destruct (PySet.mem target bl) eqn:Eb; [reflexivity|].
    rewrite (@mem_difference target (deref s (t_targets t)) bl Eb).
    destruct (true && negb (PySet.mem target (deref s (t_targets t)))); [reflexivity|].
    destruct (PyDict.get target (completed s)); cbv beta iota in *; [|exact H].
    destruct (PyDict.get target (failed s)); cbv beta iota in *; exact H.
Qed.


Lemma same_but_location_intro (s : TaskScheduler) (h : list PySet.t)
  (b : PyDict.t PySet.t) :
  same_but_location s (set_heap h (set_blacklist b s)).
Proof. unfold same_but_location. now destruct s. Qed.

Lemma same_but_location_refl (s : TaskScheduler) : same_but_location s s.
Proof. unfold same_but_location. now destruct s. Qed.

Lemma same_but_location_trans (s s1 s2 : TaskScheduler) :
  same_but_location s s1 -> same_but_location s1 s2 -> same_but_location s s2.
Proof.
  unfold same_but_location. intros H1 H2. rewrite H2. rewrite H1. now destruct s.
Qed.

Lemma same_but_location_fields (s s' : TaskScheduler) :
  same_but_location s s' ->
  graph s' = graph s /\ depending s' = depending s /\ pending s' = pending s /\
  loads s' = loads s /\ targets s' = targets s /\ sent s' = sent s /\
  completed s' = completed s /\ failed s' = failed s /\
  all_completed s' = all_completed s /\ all_failed s' = all_failed s /\
  destinations s' = destinations s /\ hwm s' = hwm s.
Proof. intros H. rewrite H. simpl. repeat split. Qed.

Lemma with_blacklist_same (m : string) (s : TaskScheduler) :
  same_but_location s (with_blacklist m s) /\ heap (with_blacklist m s) = heap s.
Proof.
  unfold with_blacklist. destruct (PyDict.contains m (blacklist s)).
  - split; [apply same_but_location_refl|reflexivity].
  - split; [|reflexivity]. unfold same_but_location. now destruct s.
Qed.

Lemma get_with_blacklist (m : string) (s : TaskScheduler) :
  PyDict.get m (blacklist (with_blacklist m s)) = Some (blacklist_of m s).
Proof.
  unfold with_blacklist, blacklist_of, PyDict.contains.
  destruct (PyDict.get m (blacklist s)) as [bl|] eqn:E; simpl; [exact E|].
  apply get_set_same.
Qed.

Lemma blacklist_of_with_blacklist (m m' : string) (s : TaskScheduler) :
  blacklist_of m' (with_blacklist m s) = blacklist_of m' s.
Proof.
  unfold with_blacklist, blacklist_of at 1, PyDict.contains.
  destruct (PyDict.get m (blacklist s)) as [bl|] eqn:E; simpl; [reflexivity|].
  destruct (String.eqb_spec m' m) as [->|Hne].
  - rewrite get_set_same. unfold blacklist_of. now rewrite E.
  - now rewrite get_set_other.
Qed.

Lemma looked_at_same (m : string) (t : task) (s : TaskScheduler) :
  same_but_location s (looked_at m t s).
Proof.
  unfold looked_at. destruct (with_blacklist_same m s) as [H _].
  destruct (PySet.truthy (deref s (t_targets t))); [|exact H].
  eapply same_but_location_trans; [exact H|].
  unfold difference_update, same_but_location. now destruct (with_blacklist m s).
Qed.

Lemma blacklist_of_looked_at (m m' : string) (t : task) (s : TaskScheduler) :
  blacklist_of m' (looked_at m t s) = blacklist_of m' s.
Proof.
  unfold looked_at. destruct (PySet.truthy (deref s (t_targets t)));
    [|apply blacklist_of_with_blacklist].
  rewrite <- (blacklist_of_with_blacklist m m' s). reflexivity.
Qed.

Lemma deref_looked_at (m : string) (t : task) (s : TaskScheduler) (a : nat) :
  deref (looked_at m t s) a =
    if PySet.truthy (deref s (t_targets t)) && Nat.eqb a (t_targets t)
    then PySet.difference (deref s (t_targets t)) (blacklist_of m s)
    else deref s a.
Proof.
  unfold looked_at. destruct (with_blacklist_same m s) as [_ Hh].
  destruct (PySet.truthy (deref s (t_targets t))) eqn:Et; simpl.
  - unfold difference_update, deref at 1. simpl. rewrite Hh.
    destruct (Nat.eqb_spec a (t_targets t)) as [->|Hne].
    + rewrite nth_set_nth_same by now apply truthy_deref_lt.
      unfold deref. now rewrite Hh.
    + now rewrite nth_set_nth_other.
  - unfold deref. now rewrite Hh.
Qed.


Lemma blocked_looked_at (m m' : string) (t t' : task) (s : TaskScheduler) :
  blocked m t s ->
  (t_targets t = t_targets t' -> PySet.truthy (deref s (t_targets t')) = true -> m = m') ->
  blocked m t (looked_at m' t' s).
Proof.
  intros (Hflag & Hnone & Hfollow & Htg) Hsame.
  destruct (same_but_location_fields (looked_at_same m' t' s))
    as (_ & _ & _ & Hl & Ht & _ & Hc & Hf & Hac & Haf & Hd & Hh).
  unfold blocked. rewrite blacklist_of_looked_at, Hh, Ht.
  assert (fst (follow_impossible (t_follow t) (looked_at m' t' s)) = Ok false) as Hfollow'
    by (rewrite <- Hfollow; now apply follow_impossible_frame).
  pose proof (deref_looked_at m' t' s (t_targets t)) as Hderef.
  destruct (PySet.truthy (deref s (t_targets t')) && Nat.eqb (t_targets t) (t_targets t'))
    eqn:E.
  - apply andb_true_iff in E as [Et Ea]. apply Nat.eqb_eq in Ea.
    assert (m = m') as <- by auto. rewrite <- Ea in Hderef, Et.
    destruct (Htg Et) as [Hd1 Hd2].
    rewrite Hderef, difference_idem, Hd1. repeat split; auto.
    + now rewrite orb_true_r.
    + unfold no_eligible_engine in *. rewrite Ht.
      apply filter_m_nil; [intros; apply reads_can_run|]. intros idx Hidx.
      apply can_run_difference with (s := s); auto.
      eapply filter_m_nil in Hnone; [exact Hnone|intros; apply reads_can_run|exact Hidx].
  - rewrite Hderef. repeat split; auto.
    unfold no_eligible_engine in *. rewrite Ht, <- Hnone.
    apply filter_m_fst_frame; [intros; apply reads_can_run|]. intros idx _.
    now apply can_run_fst_frame.
    all: now apply Htg.
Qed.

Lemma still_waiting_looked_at (m m' : string) (t t' : task) (s : TaskScheduler) :
  still_waiting m t s ->
  (t_targets t = t_targets t' -> PySet.truthy (deref s (t_targets t')) = true -> m = m') ->
  still_waiting m t (looked_at m' t' s).
Proof.
  intros (H1 & H2 & H3) Hsame.
  destruct (same_but_location_fields (looked_at_same m' t' s))
    as (_ & _ & _ & _ & _ & _ & _ & _ & Hac & Haf & _).
  unfold still_waiting. rewrite Hac, Haf. split; [exact H1|split; [exact H2|]].
  intros Hc. apply blocked_looked_at; auto.
Qed.

Lemma maybe_run_body_blocked (upd : option string -> bool -> M unit) (m : string)
  (t : task) (s : TaskScheduler) :
  blocked m t s -> maybe_run_body upd m t s = (Ok false, looked_at m t s).
Proof.
  intros (Hflag & Hnone & Hfollow & Htg).
  destruct (with_blacklist_same m s) as [Hsame Hheap].
  destruct (same_but_location_fields Hsame)
    as (_ & _ & _ & Hl & Ht & _ & Hc & Hf & Hac & Haf & Hd & Hh).
  assert (forall a, deref (with_blacklist m s) a = deref s a) as Hderef
    by (intros a; unfold deref; now rewrite Hheap).
  unfold maybe_run_body. rewrite bind_modify. cbv beta. fold (with_blacklist m s).
  rewrite bind_get_self. erewrite bind_getitem_some by apply get_with_blacklist.
  cbv zeta. rewrite Hderef, Hh, Ht, Hflag.
  erewrite bind_reads; [| apply reads_filter_m; intros; apply reads_can_run | ].
  2:{ unfold no_eligible_engine in Hnone. rewrite <- Hnone.
      apply filter_m_fst_frame; [intros; apply reads_can_run|]. intros idx _.
      apply can_run_fst_frame; auto. }
  cbv beta iota.
  erewrite bind_reads; [| apply reads_follow_impossible | ].
  2:{ rewrite <- Hfollow. now apply follow_impossible_frame. }
  cbv beta iota. unfold looked_at.
  destruct (PySet.truthy (deref s (t_targets t))) eqn:Et; [|reflexivity].
  rewrite bind_modify, bind_get_self.
  fold (difference_update (t_targets t) (blacklist_of m s) (with_blacklist m s)).
  assert (deref (difference_update (t_targets t) (blacklist_of m s) (with_blacklist m s))
            (t_targets t) = PySet.difference (deref s (t_targets t)) (blacklist_of m s))
    as Hd'.
  { unfold difference_update, deref at 1. simpl. rewrite Hheap, Hderef.
    apply nth_set_nth_same. now apply truthy_deref_lt. }
  rewrite Hd'. destruct (Htg eq_refl) as [Hd1 Hd2].
  change (targets (difference_update (t_targets t) (blacklist_of m s) (with_blacklist m s)))
    with (targets (with_blacklist m s)).
  rewrite Ht, Hd1, Hd2. reflexivity.
Qed.


Lemma for_each_ok (A : Type) (I : TaskScheduler -> Prop) (l : list A)
  (body : A -> M unit) (s : TaskScheduler) :
  I s ->
  (forall x s1, In x l -> I s1 -> exists s2, body x s1 = (Ok tt, s2) /\ I s2) ->
  exists s', for_each l body s = (Ok tt, s') /\ I s'.
Proof.
  revert s. induction l as [|x l IH]; intros s Hs Hbody; simpl.
  - now exists s.
  - destruct (Hbody x s (or_introl eq_refl) Hs) as (s2 & E & H2).
    destruct (IH s2 H2) as (s' & E' & H'); [intros y s1 Hy; apply Hbody; now right|].
    exists s'. split; [|exact H']. unfold bind. now rewrite E.
Qed.

Lemma rescan_quiet_ok depth (s : TaskScheduler) :
  rescan_quiet s -> targets_unshared s ->
  exists s', update_graph (S depth) None true s = (Ok tt, s') /\
             same_but_location s s' /\ rescan_quiet s' /\ targets_unshared s'.
Proof.
  intros Hq Hu. simpl update_graph. unfold update_graph_body.
  rewrite bind_get_self, bind_modify. cbv beta iota zeta. rewrite orb_true_l.
  apply for_each_ok with
    (I := fun s1 => same_but_location s s1 /\ rescan_quiet s1 /\ targets_unshared s1).
  { split; [apply same_but_location_refl|]. now split. }
  intros m s1 Hm (Hs1 & Hq1 & Hu1).
  destruct (same_but_location_fields Hs1) as (_ & Hdep & _).
  apply get_keys in Hm. rewrite <- Hdep in Hm.
  destruct (PyDict.get m (depending s1)) as [t|] eqn:Et; [|contradiction]. clear Hm.
  destruct (Hq1 m t Et) as (H1 & H2 & H3).
  rewrite bind_get_self. erewrite bind_getitem_some by exact Et.
  rewrite H1, H2. change (false || false) with false. cbv beta iota.
  destruct (dep_check (t_after t) (all_completed s1) (all_failed s1)).
  - specialize (H3 eq_refl).
    erewrite bind_eq by (apply maybe_run_body_blocked; exact H3). cbv beta iota.
    eexists. split; [reflexivity|].
    set (t' := mkTask (t_raw t) (t_targets t) MET (t_follow t) (t_timeout t)) in *.
    pose proof (looked_at_same m t' s1) as Hs2.
    destruct (same_but_location_fields Hs2) as (_ & Hdep2 & _).
    split; [eapply same_but_location_trans; eauto|]. split.
    + intros m2 t2 E2. rewrite Hdep2 in E2.
      apply still_waiting_looked_at; [now apply Hq1|].
      intros Ha _. exact (Hu1 m2 m t2 t E2 Et Ha).
    + unfold targets_unshared. rewrite Hdep2. exact Hu1.
  - exists s1. split; [reflexivity|]. now split.
Qed.








(** ** A scan leaves every waiting task still waiting *)

Lemma mem_union (x : string) (a b : PySet.t) :
  PySet.mem x (PySet.union a b) = PySet.mem x a || PySet.mem x b.
Proof.
  apply eq_true_iff_eq. rewrite orb_true_iff, !mem_In. apply In_union.
Qed.

Lemma mem_add (x y : string) (s : PySet.t) :
  PySet.mem x (PySet.add y s) = String.eqb x y || PySet.mem x s.
Proof.
  apply eq_true_iff_eq. rewrite orb_true_iff, !mem_In, String.eqb_eq. apply In_add.
Qed.

Lemma same_view_refl (s : TaskScheduler) : same_view s s.
Proof. repeat split. Qed.

Lemma same_view_trans (s s1 s2 : TaskScheduler) :
  same_view s s1 -> same_view s1 s2 -> same_view s s2.
Proof.
  unfold same_view. intros H1 H2.
  repeat match goal with H : _ /\ _ |- _ => destruct H end.
  repeat split; congruence.
Qed.

Lemma no_eligible_engine_frame (t : task) (bl : PySet.t) (s s' : TaskScheduler) :
  hwm s' = hwm s -> loads s' = loads s -> targets s' = targets s ->
  deref s' (t_targets t) = deref s (t_targets t) ->
  completed s' = completed s -> failed s' = failed s ->
  no_eligible_engine t bl s -> no_eligible_engine t bl s'.
Proof.
  intros H1 H2 H3 H4 H5 H6 H. unfold no_eligible_engine in *. rewrite H3, <- H.
  apply filter_m_fst_frame; [intros; apply reads_can_run|]. intros idx _.
  now apply can_run_fst_frame.
Qed.

Lemma still_waiting_frame (m : string) (t : task) (s s' : TaskScheduler) :
  same_view s s' -> still_waiting m t s -> still_waiting m t s'.
Proof.
  intros (Hac & Haf & Hbl & Hheap & Hh & Hl & Ht & Hc & Hf & Hd) (H1 & H2 & H3).
  assert (forall a, deref s' a = deref s a) as Hderef
    by (intros a; unfold deref; now rewrite Hheap).
  unfold still_waiting. rewrite Hac, Haf. split; [exact H1|split; [exact H2|]].
  intros Hc'. destruct (H3 Hc') as (Hflag & Hnone & Hfollow & Htg).
  unfold blocked, blacklist_of. rewrite Hbl, Hderef, Hh, Ht.
  split; [exact Hflag|]. split; [|split; [|exact Htg]].
  - eapply no_eligible_engine_frame; eauto.
  - rewrite <- Hfollow. now apply follow_impossible_frame.
Qed.


Lemma issubset_ext (a b b' : PySet.t) :
  (forall x, In x a -> PySet.mem x b' = PySet.mem x b) ->
  PySet.issubset a b' = PySet.issubset a b.
Proof.
  unfold PySet.issubset. induction a as [|x a IH]; intros H; simpl; [reflexivity|].
  rewrite (H x (or_introl eq_refl)), IH; [reflexivity|]. intros y Hy. apply H. now right.
Qed.

Lemma isdisjoint_ext (a b b' : PySet.t) :
  (forall x, In x a -> PySet.mem x b' = PySet.mem x b) ->
  PySet.isdisjoint a b' = PySet.isdisjoint a b.
Proof.
  unfold PySet.isdisjoint. induction a as [|x a IH]; intros H; simpl; [reflexivity|].
  rewrite (H x (or_introl eq_refl)), IH; [reflexivity|]. intros y Hy. apply H. now right.
Qed.

Lemma intersection_ext (a b b' : PySet.t) :
  (forall x, In x a -> PySet.mem x b' = PySet.mem x b) ->
  PySet.intersection a b' = PySet.intersection a b.
Proof. intros H. unfold PySet.intersection. now apply filter_ext_in. Qed.

Lemma dep_check_ext (d : Dependency) (C F C' F' : PySet.t) :
  (forall x, In x (dep_ids d) -> PySet.mem x C' = PySet.mem x C) ->
  (forall x, In x (dep_ids d) -> PySet.mem x F' = PySet.mem x F) ->
  dep_check d C' F' = dep_check d C F.
Proof.
  intros HC HF. unfold dep_check. destruct (dep_ids d) as [|i ids] eqn:E; [reflexivity|].
  cbv zeta.
  assert (forall x, In x (i :: ids) ->
            PySet.mem x (if dep_failure d
                         then PySet.union (if dep_success d then C' else []) F'
                         else if dep_success d then C' else []) =
            PySet.mem x (if dep_failure d
                         then PySet.union (if dep_success d then C else []) F
                         else if dep_success d then C else [])) as H.
  { intros x Hx. destruct (dep_failure d), (dep_success d);
      rewrite ?mem_union, ?HC, ?HF; auto. }
  destruct (dep_all d); [now apply issubset_ext|]. f_equal. now apply isdisjoint_ext.
Qed.

Lemma dep_unreachable_ext (d : Dependency) (C F C' F' : PySet.t) :
  (forall x, In x (dep_ids d) -> PySet.mem x C' = PySet.mem x C) ->
  (forall x, In x (dep_ids d) -> PySet.mem x F' = PySet.mem x F) ->
  dep_unreachable d C' F' = dep_unreachable d C F.
Proof.
  intros HC HF. unfold dep_unreachable.
  destruct (dep_ids d) as [|i ids] eqn:E; [reflexivity|]. cbv zeta.
  assert (forall x, In x (i :: ids) ->
            PySet.mem x (if dep_failure d
                         then if dep_success d then [] else C'
                         else PySet.union (if dep_success d then [] else C') F') =
            PySet.mem x (if dep_failure d
                         then if dep_success d then [] else C
                         else PySet.union (if dep_success d then [] else C) F)) as H.
  { intros x Hx. destruct (dep_failure d), (dep_success d);
      rewrite ?mem_union, ?HC, ?HF; auto. }
  destruct (dep_all d); [f_equal; now apply isdisjoint_ext|now apply issubset_ext].
Qed.

Lemma follow_impossible_ext (follow : Dependency) (s s' : TaskScheduler) :
  (forall x, In x (dep_ids follow) ->
             PySet.mem x (all_completed s') = PySet.mem x (all_completed s)) ->
  (forall x, In x (dep_ids follow) ->
             PySet.mem x (all_failed s') = PySet.mem x (all_failed s)) ->
  destinations s' = destinations s ->
  fst (follow_impossible follow s') = fst (follow_impossible follow s).
Proof.
  intros HC HF Hd. unfold follow_impossible. rewrite !bind_get_self, Hd.
  destruct (dep_all follow); [|reflexivity]. cbv zeta.
  rewrite !fst_bind_ret.
  assert (PySet.intersection (dep_ids follow)
            (if dep_failure follow
             then PySet.union (if dep_success follow then all_completed s' else [])
                    (all_failed s')
             else if dep_success follow then all_completed s' else []) =
          PySet.intersection (dep_ids follow)
            (if dep_failure follow
             then PySet.union (if dep_success follow then all_completed s else [])
                    (all_failed s)
             else if dep_success follow then all_completed s else [])) as ->.
  { apply intersection_ext. intros x Hx.
    destruct (dep_failure follow), (dep_success follow);
      rewrite ?mem_union, ?HC, ?HF; auto. }
  erewrite dests_fst; [reflexivity|reflexivity].
Qed.


Lemma still_waiting_ext (m : string) (t : task) (s s' : TaskScheduler) :
  (forall x, In x (deps t) ->
             PySet.mem x (all_completed s') = PySet.mem x (all_completed s)) ->
  (forall x, In x (deps t) -> PySet.mem x (all_failed s') = PySet.mem x (all_failed s)) ->
  blacklist_of m s' = blacklist_of m s ->
  deref s' (t_targets t) = deref s (t_targets t) ->
  hwm s' = hwm s -> loads s' = loads s -> targets s' = targets s ->
  completed s' = completed s -> failed s' = failed s ->
  destinations s' = destinations s ->
  still_waiting m t s -> still_waiting m t s'.
Proof.
  intros Hac Haf Hbl Hderef Hh Hl Ht Hc Hf Hd (H1 & H2 & H3).
  assert (forall x, In x (dep_ids (t_after t)) -> In x (deps t)) as Ha
    by (intros x Hx; apply In_union; now right).
  assert (forall x, In x (dep_ids (t_follow t)) -> In x (deps t)) as Hfo
    by (intros x Hx; apply In_union; now left).
  unfold still_waiting.
  rewrite (@dep_unreachable_ext (t_after t) (all_completed s) (all_failed s)) by auto.
  rewrite (@dep_unreachable_ext (t_follow t) (all_completed s) (all_failed s)) by auto.
  rewrite (@dep_check_ext (t_after t) (all_completed s) (all_failed s)) by auto.
  split; [exact H1|split; [exact H2|]].
  intros Hc'. destruct (H3 Hc') as (Hflag & Hnone & Hfollow & Htg).
  unfold blocked. cbv zeta. simpl t_targets in *. simpl t_follow in *.
  rewrite Hbl, Hderef, Hh, Ht.
  split; [exact Hflag|]. split; [|split; [|exact Htg]].
  - eapply no_eligible_engine_frame; eauto.
  - rewrite <- Hfollow. apply follow_impossible_ext; auto.
Qed.

Lemma still_waiting_failed (m x : string) (t : task) (s s' : TaskScheduler) :
  ~ In x (deps t) ->
  all_completed s' = all_completed s ->
  all_failed s' = PySet.add x (all_failed s) ->
  blacklist s' = blacklist s -> heap s' = heap s ->
  hwm s' = hwm s -> loads s' = loads s -> targets s' = targets s ->
  completed s' = completed s -> failed s' = failed s ->
  destinations s' = destinations s ->
  still_waiting m t s -> still_waiting m t s'.
Proof.
  intros Hx Hac Haf Hbl Hheap Hh Hl Ht Hc Hf Hd. apply still_waiting_ext; auto.
  - intros y _. now rewrite Hac.
  - intros y Hy. rewrite Haf, mem_add.
    destruct (String.eqb_spec y x) as [->|Hne]; [contradiction|reflexivity].
  - unfold blacklist_of. now rewrite Hbl.
  - unfold deref. now rewrite Hheap.
Qed.


Lemma nth_error_remove_nth (A : Type) (l : list A) (i j : nat) :
  nth_error (remove_nth i l) j = nth_error l (if (j <? i)%nat then j else S j).
Proof.
  revert i j. induction l as [|x l IH]; intros i j.
  - destruct i; simpl; destruct j; simpl; try reflexivity;
      match goal with |- context [if ?c then _ else _] => now destruct c end.
  - destruct i as [|i]; simpl; [reflexivity|].
    destruct j as [|j]; simpl; [reflexivity|].
    rewrite IH. change (S j <? S i)%nat with (j <? i)%nat.
    now destruct (j <? i)%nat.
Qed.

Lemma In_rotate (A : Type) (l : list A) (i : nat) (e x : A) :
  nth_error l i = Some e -> (In x (remove_nth i l ++ [e]) <-> In x l).
Proof.
  revert i. induction l as [|y l IH]; intros i H; [now destruct i|].
  destruct i as [|i]; simpl in *.
  - injection H as ->. rewrite in_app_iff. simpl. tauto.
  - rewrite (IH i H). tauto.
Qed.

Lemma can_run_fst_pair (t : task) (bl : PySet.t) (j k : nat) (s s' : TaskScheduler) :
  nth_error (loads s') j = nth_error (loads s) k ->
  nth_error (targets s') j = nth_error (targets s) k ->
  hwm s' = hwm s -> deref s' (t_targets t) = deref s (t_targets t) ->
  completed s' = completed s -> failed s' = failed s ->
  fst (can_run t bl j s') = fst (can_run t bl k s).
Proof.
  intros H1 H2 H3 H4 H5 H6. unfold can_run, getindex. rewrite !bind_get_self.
  rewrite H1, H2, H3, H4, H5, H6.
  match goal with
  | |- fst (?m _) = _ => assert (exists r, forall s, m s = (r, s)) as [r Hr]
  end.
  { repeat blind_step. }
  now rewrite !Hr.
Qed.

Lemma can_run_fst_bumped (t : task) (bl : PySet.t) (j k : nat) (e : ident) (l : Z)
  (s s' : TaskScheduler) :
  nth_error (targets s) k = Some e -> nth_error (loads s) k = Some l ->
  nth_error (targets s') j = Some e -> nth_error (loads s') j = Some (l + 1) ->
  hwm s = 0 \/ l <> hwm s ->
  hwm s' = hwm s -> deref s' (t_targets t) = deref s (t_targets t) ->
  completed s' = completed s -> failed s' = failed s ->
  fst (can_run t bl k s) = Ok false -> fst (can_run t bl j s') = Ok false.
Proof.
  intros Ht Hl Ht' Hl' Hfree H3 H4 H5 H6 H. unfold can_run, getindex in *.
  rewrite !bind_get_self in *. rewrite Ht', Hl', H3, H4, H5, H6. rewrite Ht, Hl in H.
  unfold bind, getitem, ret, raise in *.
  destruct (hwm s =? 0) eqn:Eh; cbv beta iota in *.
  - simpl negb in *. cbv beta iota in *. simpl andb in *. cbv beta iota in *.
    destruct (PySet.mem e bl); [reflexivity|].
    destruct (PySet.truthy (deref s (t_targets t)) &&
              negb (PySet.mem e (deref s (t_targets t)))); [reflexivity|].
    destruct (PyDict.get e (completed s)); cbv beta iota in *; [|exact H].
    destruct (PyDict.get e (failed s)); cbv beta iota in *; exact H.
  - simpl negb in *. rewrite andb_true_l in *.
    destruct Hfree as [H0|Hne]; [apply Z.eqb_neq in Eh; contradiction|].
    apply Z.eqb_neq in Hne. rewrite Hne in H.
    destruct (l + 1 =? hwm s); [reflexivity|].
    destruct (PySet.mem e bl); [reflexivity|].
    destruct (PySet.truthy (deref s (t_targets t)) &&
              negb (PySet.mem e (deref s (t_targets t)))); [reflexivity|].
    destruct (PyDict.get e (completed s)); cbv beta iota in *; [|exact H].
    destruct (PyDict.get e (failed s)); cbv beta iota in *; exact H.
Qed.


Lemma no_eligible_engine_dispatched (t : task) (bl : PySet.t) (idx : nat) (e : ident)
  (l : Z) (s s' : TaskScheduler) :
  List.length (targets s) = List.length (loads s) ->
  nth_error (targets s) idx = Some e -> nth_error (loads s) idx = Some l ->
  hwm s = 0 \/ l <> hwm s ->
  targets s' = remove_nth idx (targets s) ++ [e] ->
  loads s' = remove_nth idx (loads s) ++ [l + 1] ->
  hwm s' = hwm s -> deref s' (t_targets t) = deref s (t_targets t) ->
  completed s' = completed s -> failed s' = failed s ->
  no_eligible_engine t bl s -> no_eligible_engine t bl s'.
Proof.
  intros Hlen He Hl Hfree Ht' Hl' Hh Hd Hc Hf H. unfold no_eligible_engine in *.
  pose proof (length_remove_nth _ _ He) as Hn1.
  pose proof (length_remove_nth _ _ Hl) as Hn2.
  assert (forall k, (k < List.length (targets s))%nat ->
                    fst (can_run t bl k s) = Ok false) as Hall.
  { intros k Hk. eapply filter_m_nil in H; [exact H|intros; apply reads_can_run|].
    apply in_seq. lia. }
  apply filter_m_nil; [intros; apply reads_can_run|]. intros j Hj.
  apply in_seq in Hj. rewrite Ht', length_app in Hj. simpl in Hj.
  destruct (Nat.eq_dec j (List.length (remove_nth idx (targets s)))) as [->|Hne].
  - apply can_run_fst_bumped with (k := idx) (e := e) (l := l) (s := s); auto.
    + rewrite Ht', nth_error_app2, Nat.sub_diag by lia. reflexivity.
    + rewrite Hl', nth_error_app2 by lia.
      replace (_ - _)%nat with 0%nat by lia. reflexivity.
    + apply Hall. apply nth_error_Some. congruence.
  - rewrite <- (Hall (if (j <? idx)%nat then j else S j)).
    + apply can_run_fst_pair; auto.
      * rewrite Hl', nth_error_app1 by lia. apply nth_error_remove_nth.
      * rewrite Ht', nth_error_app1 by lia. apply nth_error_remove_nth.
    + destruct (j <? idx)%nat; lia.
Qed.

Lemma still_waiting_dispatched (m : string) (t : task) (idx : nat) (e : ident)
  (l : Z) (s s' : TaskScheduler) :
  List.length (targets s) = List.length (loads s) ->
  nth_error (targets s) idx = Some e -> nth_error (loads s) idx = Some l ->
  hwm s = 0 \/ l <> hwm s ->
  targets s' = remove_nth idx (targets s) ++ [e] ->
  loads s' = remove_nth idx (loads s) ++ [l + 1] ->
  all_completed s' = all_completed s -> all_failed s' = all_failed s ->
  blacklist s' = blacklist s -> heap s' = heap s -> hwm s' = hwm s ->
  completed s' = completed s -> failed s' = failed s ->
  destinations s' = destinations s ->
  still_waiting m t s -> still_waiting m t s'.
Proof.
  intros Hlen He Hl Hfree Ht' Hl' Hac Haf Hbl Hheap Hh Hc Hf Hd (H1 & H2 & H3).
  assert (forall a, deref s' a = deref s a) as Hderef
    by (intros a; unfold deref; now rewrite Hheap).
  unfold still_waiting. rewrite Hac, Haf. split; [exact H1|split; [exact H2|]].
  intros Hc'. destruct (H3 Hc') as (Hflag & Hnone & Hfollow & Htg).
  unfold blocked, blacklist_of. rewrite Hbl, Hderef, Hh.
  split; [exact Hflag|]. split; [|split].
  - eapply no_eligible_engine_dispatched; eauto.
  - rewrite <- Hfollow. now apply follow_impossible_frame.
  - intros Htr. destruct (Htg Htr) as [Hd1 Hd2]. split; [exact Hd1|].
    rewrite <- Hd2. f_equal. apply intersection_ext. intros x _.
    apply eq_true_iff_eq. rewrite !mem_In, Ht'. now apply In_rotate.
Qed.


Lemma post_for_each_rest (A : Type) (I : list A -> TaskScheduler -> Prop) (l : list A)
  (body : A -> M unit) (s : TaskScheduler) :
  I l s ->
  (forall x rest s1, I (x :: rest) s1 ->
                     post (fun _ => I rest) (fun _ => True) (body x s1)) ->
  post (fun _ => I []) (fun _ => True) (for_each l body s).
Proof.
  intros Hs Hbody. revert s Hs. induction l as [|x l IH]; intros s Hs; [exact Hs|].
  simpl. apply post_bind with (R := fun _ => I l); [now apply Hbody|].
  intros _ s1 H1. now apply IH.
Qed.

Lemma scanning_mono (T T' : list string) (s : TaskScheduler) :
  (forall x, In x T -> In x T') -> scanning T s -> scanning T' s.
Proof.
  intros Hi [Hr Ht]. split; [exact Hr|]. intros m t H.
  destruct (Ht m t H); auto.
Qed.

Lemma filter_m_In (A : Type) (p : A -> M bool) (l r : list A) (x : A)
  (s : TaskScheduler) :
  (forall x, reads (p x)) ->
  fst (filter_m p l s) = Ok r -> In x r -> In x l /\ fst (p x s) = Ok true.
Proof.
  intros Hr. revert r. induction l as [|y l IH]; intros r H Hx; simpl in H.
  - injection H as <-. destruct Hx.
  - unfold bind in H. pose proof (Hr y s) as H1.
    destruct (p y s) as [[b|e] s1] eqn:E; simpl in H1; subst s1; [|discriminate].
    pose proof (@reads_filter_m _ p l Hr s) as H2.
    destruct (filter_m p l s) as [[r'|e] s2] eqn:E2; simpl in H2; subst s2;
      [|discriminate].
    simpl in H. injection H as <-.
    destruct b.
    + destruct Hx as [<-|Hx]; [split; [now left|now rewrite E]|].
      destruct (IH r' eq_refl Hx). split; [now right|assumption].
    + destruct (IH r' eq_refl Hx). split; [now right|assumption].
Qed.

Lemma can_run_true_free (t : task) (bl : PySet.t) (idx : nat) (l : Z)
  (s : TaskScheduler) :
  fst (can_run t bl idx s) = Ok true -> nth_error (loads s) idx = Some l ->
  hwm s = 0 \/ l <> hwm s.
Proof.
  intros H Hl. unfold can_run, getindex in H. rewrite bind_get_self, Hl in H.
  unfold bind, ret in H.
  destruct (hwm s =? 0) eqn:Eh; [left; now apply Z.eqb_eq|]. right.
  cbv beta iota in H. simpl negb in H. rewrite andb_true_l in H.
  destruct (l =? hwm s) eqn:El; [discriminate|]. now apply Z.eqb_neq.
Qed.


Lemma submit_task_step (m : string) (t : task) (indices : option (list nat))
  (s : TaskScheduler) :
  post (fun _ s' => exists idx e l,
            dispatch_step idx e l s s' /\
            match indices with
            | Some (i :: L) => In idx (i :: L)
            | _ => True
            end)
       (fun _ => True) (submit_task m t indices s).
Proof.
  unfold submit_task. cbv zeta. rewrite bind_get_self.
  apply post_bind_reads;
    [destruct indices as [[|? ?]|]; first [apply reads_for_indices|apply reads_ret]
    | exact I | intros lds _].
  apply post_bind_reads; [apply reads_read | exact I | intros idx0 _].
  apply post_bind_reads;
    [destruct indices as [[|? ?]|]; first [apply reads_getindex|apply reads_ret]
    | exact I | intros idx Hidx].
  apply post_bind_reads; [apply reads_getindex | exact I | intros e He].
  apply getindex_ok in He. rewrite bind_send.
  destruct (nth_error (loads s) idx) as [l|] eqn:Hl.
  - erewrite bind_eq by (apply add_job_ok; [exact He|exact Hl]).
    rewrite bind_get_self.
    apply post_bind_reads; [apply reads_getitem | exact I | intros p _].
    rewrite bind_modify. exists idx, e, l. split.
    + repeat split; assumption.
    + destruct indices as [[|i L]|]; try exact I.
      apply getindex_ok in Hidx. eapply nth_error_In, Hidx.
  - unfold bind. rewrite add_job_raises by exact Hl. exact I.
Qed.

Lemma scanning_dispatched (T : list string) (idx : nat) (e : ident)
  (l : Z) (s s' : TaskScheduler) :
  dispatch_step idx e l s s' -> hwm s = 0 \/ l <> hwm s ->
  scanning T s -> scanning T s'.
Proof.
  intros (He & Hl & Ht' & Hl' & Hac & Haf & Had & Hbl & Hheap & Hh & Hc & Hf & Hd
          & Hdep & Hg) Hfree ((HG & HN & HU & Hlen) & Htodo).
  split; [split; [|split; [|split]]|].
  - intros m' t' d. rewrite Hdep, Had, Hg. apply HG.
  - intros m'. unfold waiting. rewrite Hdep, Had. apply HN.
  - unfold targets_unshared. rewrite Hdep. exact HU.
  - rewrite Ht', Hl', !length_app. simpl.
    pose proof (length_remove_nth _ _ He). pose proof (length_remove_nth _ _ Hl). lia.
  - intros m' t' H. rewrite Hdep in H. destruct (Htodo m' t' H) as [Hw|Hin]; auto.
    left. eapply still_waiting_dispatched; eauto.
Qed.


Lemma get_remove_some (V : Type) (k k' : string) (d : PyDict.t V) (v : V) :
  PyDict.get k (PyDict.remove k' d) = Some v -> k <> k' /\ PyDict.get k d = Some v.
Proof.
  intros H. assert (PyDict.get k (PyDict.remove k' d) <> None) as Hn by congruence.
  destruct (get_remove _ _ _ Hn) as [Hne _]. split; [exact Hne|].
  now rewrite get_remove_other in H.
Qed.

Lemma In_discard (x m : string) (g : PySet.t) :
  In x g -> x <> m -> In x (PySet.discard m g).
Proof.
  intros Hx Hne. unfold PySet.discard. apply filter_In. split; [exact Hx|].
  apply negb_true_iff, String.eqb_neq. congruence.
Qed.

Lemma graph_keeps_refl (m : string) (g : PyDict.t PySet.t) : graph_keeps m g g.
Proof. intros d w x H Hx _. now exists w. Qed.

Lemma graph_keeps_discard (m mid : string) (g0 g1 : PyDict.t PySet.t) (w : PySet.t) :
  graph_keeps m g0 g1 -> PyDict.get mid g1 = Some w ->
  graph_keeps m g0 (PyDict.set mid (PySet.discard m w) g1).
Proof.
  intros H Hw d w0 x Hd Hx Hne. destruct (H d w0 x Hd Hx Hne) as (w1 & H1 & Hx1).
  destruct (String.eqb_spec d mid) as [->|Hdm].
  - rewrite get_set_same. eexists. split; [reflexivity|].
    assert (w1 = w) as -> by congruence. now apply In_discard.
  - rewrite get_set_other by exact Hdm. now exists w1.
Qed.

Lemma scrub_graph_keeps (m : string) (follow after : Dependency) (s : TaskScheduler) :
  post (fun _ s' => graph_keeps m (graph s) (graph s') /\ s' = set_graph (graph s') s)
       (fun _ => True) (scrub_graph m follow after s).
Proof.
  unfold scrub_graph.
  apply post_for_each_rest with
    (I := fun (_ : list string) s' =>
            graph_keeps m (graph s) (graph s') /\ s' = set_graph (graph s') s).
  - split; [apply graph_keeps_refl|now destruct s].
  - intros mid _ s1 [Hk Hs]. rewrite bind_get_self.
    destruct (PyDict.get mid (graph s1)) as [w|] eqn:E; [|now split].
    destruct (PySet.mem m w); [|exact I].
    split; [exact (@graph_keeps_discard m mid (graph s) (graph s1) w Hk E)|].
    simpl. generalize (PyDict.set mid (PySet.discard m w) (graph s1)). intros X.
    rewrite Hs. now destruct s.
Qed.

Lemma scanning_removed (m : string) (T : list string) (s s' : TaskScheduler) :
  scanning (m :: T) s ->
  depending s' = PyDict.remove m (depending s) ->
  graph_keeps m (graph s) (graph s') ->
  same_view s s' -> all_done s' = all_done s ->
  scanning T s'.
Proof.
  intros ((HG & HN & HU & Hlen) & Htodo) Hdep Hk Hv Had.
  pose proof Hv as (_ & _ & _ & _ & _ & Hl & Ht & _).
  split; [split; [|split; [|split]]|].
  - intros m' t' d H Hd Hnd. rewrite Hdep in H. apply get_remove_some in H as [Hne H].
    rewrite Had in Hnd. destruct (HG m' t' d H Hd Hnd) as (g & Hg & Hin).
    exact (Hk d g m' Hg Hin Hne).
  - intros m' H. unfold waiting in H. rewrite Hdep in H.
    apply get_remove in H as [_ H]. rewrite Had. now apply HN.
  - intros m1 m2 t1 t2 H1 H2. rewrite Hdep in H1, H2.
    apply get_remove_some in H1 as [_ H1]. apply get_remove_some in H2 as [_ H2].
    exact (HU m1 m2 t1 t2 H1 H2).
  - now rewrite Hl, Ht.
  - intros m' t' H. rewrite Hdep in H. apply get_remove_some in H as [Hne H].
    destruct (Htodo m' t' H) as [Hw|[Heq|Hin]]; [|congruence|now right].
    left. now apply still_waiting_frame with (s := s).
Qed.


Lemma scanning_failed (m : string) (t : task) (T : list string) (s s' : TaskScheduler) :
  scanning (m :: T) s -> PyDict.get m (depending s) = Some t ->
  depending s' = PyDict.remove m (depending s) ->
  graph_keeps m (graph s) (graph s') ->
  all_done s' = PySet.add m (all_done s) ->
  all_failed s' = PySet.add m (all_failed s) ->
  all_completed s' = all_completed s ->
  blacklist s' = blacklist s -> heap s' = heap s -> hwm s' = hwm s ->
  loads s' = loads s -> targets s' = targets s ->
  completed s' = completed s -> failed s' = failed s ->
  destinations s' = destinations s ->
  In m (all_done s') /\ scanning (waiters m s' ++ T) s'.
Proof.
  intros ((HG & HN & HU & Hlen) & Htodo) Hm Hdep Hk Had Haf Hac Hbl Hheap Hh Hl Ht
         Hc Hf Hd.
  assert (~ In m (all_done s)) as Hnd by (apply HN; unfold waiting; congruence).
  split; [rewrite Had; apply In_add; now left|].
  split; [split; [|split; [|split]]|].
  - intros m' t' d H Hin Hnotdone. rewrite Hdep in H.
    apply get_remove_some in H as [Hne H].
    assert (~ In d (all_done s)) as Hnd'
      by (intros Hx; apply Hnotdone; rewrite Had; apply In_add; now right).
    destruct (HG m' t' d H Hin Hnd') as (g & Hg & Hing).
    exact (Hk d g m' Hg Hing Hne).
  - intros m' H. unfold waiting in H. rewrite Hdep in H.
    apply get_remove in H as [Hne H]. rewrite Had. intros Hx.
    apply In_add in Hx as [->|Hx]; [congruence|]. now apply (HN m').
  - intros m1 m2 t1 t2 H1 H2. rewrite Hdep in H1, H2.
    apply get_remove_some in H1 as [_ H1]. apply get_remove_some in H2 as [_ H2].
    exact (HU m1 m2 t1 t2 H1 H2).
  - now rewrite Hl, Ht.
  - intros m' t' H. rewrite Hdep in H. apply get_remove_some in H as [Hne H].
    destruct (Htodo m' t' H) as [Hw|[Heq|Hin]];
      [|congruence|right; apply in_or_app; now right].
    destruct (in_dec string_dec m (deps t')) as [Hin|Hnin].
    + right. apply in_or_app. left.
      destruct (HG m' t' m H Hin Hnd) as (g & Hg & Hing).
      destruct (Hk m g m' Hg Hing Hne) as (w' & Hw' & Hin').
      unfold waiters. now rewrite Hw'.
    + left. eapply still_waiting_failed; eauto.
Qed.

Lemma scanning_view (T : list string) (s s' : TaskScheduler) :
  scanning T s -> same_view s s' ->
  depending s' = depending s -> graph s' = graph s -> all_done s' = all_done s ->
  scanning T s'.
Proof.
  intros ((HG & HN & HU & Hlen) & Htodo) Hv Hdep Hg Had.
  pose proof Hv as (_ & _ & _ & _ & _ & Hl & Ht & _).
  split; [split; [|split; [|split]]|].
  - intros m' t' d. rewrite Hdep, Hg, Had. apply HG.
  - intros m'. unfold waiting. rewrite Hdep, Had. apply HN.
  - unfold targets_unshared. rewrite Hdep. exact HU.
  - now rewrite Hl, Ht.
  - intros m' t' H. rewrite Hdep in H. destruct (Htodo m' t' H) as [Hw|Hin]; auto.
    left. now apply still_waiting_frame with (s := s).
Qed.

Lemma same_but_location_all_done (s s' : TaskScheduler) :
  same_but_location s s' -> all_done s' = all_done s.
Proof. intros H. now rewrite H. Qed.

Lemma scanning_looked_at (m : string) (t t0 : task) (T : list string)
  (s : TaskScheduler) :
  scanning (m :: T) s -> PyDict.get m (depending s) = Some t0 ->
  t_targets t = t_targets t0 ->
  scanning (m :: T) (looked_at m t s).
Proof.
  intros ((HG & HN & HU & Hlen) & Htodo) Hm Ha.
  pose proof (looked_at_same m t s) as Hs.
  pose proof (same_but_location_all_done Hs) as Had.
  destruct (same_but_location_fields Hs) as (Hg & Hdep & _ & Hl & Ht & _).
  split; [split; [|split; [|split]]|].
  - intros m' t' d. rewrite Hdep, Hg, Had. apply HG.
  - intros m'. unfold waiting. rewrite Hdep, Had. apply HN.
  - unfold targets_unshared. rewrite Hdep. exact HU.
  - now rewrite Hl, Ht.
  - intros m' t' H. rewrite Hdep in H. destruct (Htodo m' t' H) as [Hw|Hin]; auto.
    left. apply still_waiting_looked_at; [exact Hw|].
    intros Heq _. apply (HU m' m t' t0 H Hm). congruence.
Qed.

Lemma scanning_with_blacklist (m : string) (T : list string) (s : TaskScheduler) :
  scanning T s -> scanning T (with_blacklist m s).
Proof.
  intros ((HG & HN & HU & Hlen) & Htodo).
  destruct (with_blacklist_same m s) as [Hs Hheap].
  pose proof (same_but_location_all_done Hs) as Had.
  destruct (same_but_location_fields Hs)
    as (Hg & Hdep & _ & Hl & Ht & _ & Hc & Hf & Hac & Haf & Hd & Hh).
  split; [split; [|split; [|split]]|].
  - intros m' t' d. rewrite Hdep, Hg, Had. apply HG.
  - intros m'. unfold waiting. rewrite Hdep, Had. apply HN.
  - unfold targets_unshared. rewrite Hdep. exact HU.
  - now rewrite Hl, Ht.
  - intros m' t' H. rewrite Hdep in H. destruct (Htodo m' t' H) as [Hw|Hin]; auto.
    left. apply still_waiting_ext with (s := s); auto.
    + intros x _. now rewrite Hac.
    + intros x _. now rewrite Haf.
    + apply blacklist_of_with_blacklist.
    + unfold deref. now rewrite Hheap.
Qed.

Lemma scanning_redepend (m : string) (t1 t0 : task) (T : list string)
  (s : TaskScheduler) :
  scanning (m :: T) s -> PyDict.get m (depending s) = Some t0 ->
  t_targets t1 = t_targets t0 ->
  (forall d, In d (deps t1) -> In d (deps t0)) ->
  scanning (m :: T) (set_depending (PyDict.set m t1 (depending s)) s).
Proof.
  intros ((HG & HN & HU & Hlen) & Htodo) Hm Ha Hd.
  assert (forall m' t', PyDict.get m' (PyDict.set m t1 (depending s)) = Some t' ->
                        (m' = m /\ t' = t1) \/
                        (m' <> m /\ PyDict.get m' (depending s) = Some t')) as Hcase.
  { intros m' t' H. destruct (String.eqb_spec m' m) as [->|Hne].
    - rewrite get_set_same in H. left. split; congruence.
    - rewrite get_set_other in H by exact Hne. now right. }
  split; [split; [|split; [|split]]|]; simpl.
  - intros m' t' d H Hin Hnd. destruct (Hcase m' t' H) as [[-> ->]|[Hne H']].
    + apply (HG m t0 d Hm); auto.
    + apply (HG m' t' d H'); auto.
  - intros m' H. unfold waiting in H. simpl in H. apply HN. unfold waiting.
    destruct (String.eqb_spec m' m) as [->|Hne]; [congruence|].
    now rewrite get_set_other in H.
  - intros m1 m2 t1' t2' H1 H2 Heq.
    destruct (Hcase m1 t1' H1) as [[-> ->]|[Hne1 H1']],
             (Hcase m2 t2' H2) as [[-> ->]|[Hne2 H2']]; auto.
    + apply (HU m m2 t0 t2' Hm H2'). congruence.
    + apply (HU m1 m t1' t0 H1' Hm). congruence.
    + exact (HU m1 m2 t1' t2' H1' H2' Heq).
  - exact Hlen.
  - intros m' t' H. destruct (Hcase m' t' H) as [[-> ->]|[Hne H']]; [right; now left|].
    destruct (Htodo m' t' H') as [Hw|Hin]; auto.
    left. apply still_waiting_frame with (s := s); [repeat split|exact Hw].
Qed.


Lemma scanning_drop (m : string) (T : list string) (s : TaskScheduler) :
  scanning (m :: T) s -> PyDict.get m (depending s) = None -> scanning T s.
Proof.
  intros [Hr Htodo] Hm. split; [exact Hr|]. intros m' t' H.
  destruct (Htodo m' t' H) as [Hw|[<-|Hin]]; auto. congruence.
Qed.

Lemma scanning_settle (m : string) (t : task) (T : list string) (s : TaskScheduler) :
  scanning (m :: T) s -> PyDict.get m (depending s) = Some t ->
  still_waiting m t s -> scanning T s.
Proof.
  intros [Hr Htodo] Hm Hw. split; [exact Hr|]. intros m' t' H.
  destruct (Htodo m' t' H) as [Hw'|[<-|Hin]]; auto. left. congruence.
Qed.

Lemma scanning_graph_pop (d : string) (T : list string) (s : TaskScheduler) :
  scanning T s -> In d (all_done s) ->
  scanning T (set_graph (PyDict.remove d (graph s)) s).
Proof.
  intros ((HG & HN & HU & Hlen) & Htodo) Hd.
  split; [split; [|split; [|split]]|]; [|exact HN|exact HU|exact Hlen|].
  - intros m' t' d' H Hin Hnd. destruct (HG m' t' d' H Hin Hnd) as (g & Hg & Hing).
    exists g. split; [|exact Hing].
    change (PyDict.get d' (PyDict.remove d (graph s)) = Some g).
    rewrite get_remove_other; [exact Hg|]. intros ->. contradiction.
  - intros m' t' H. destruct (Htodo m' t' H) as [Hw|Hin]; auto.
    left. apply still_waiting_frame with (s := s); [repeat split|exact Hw].
Qed.

Lemma scanning_all (T : list string) (s : TaskScheduler) :
  scan_ready s -> scanning (PyDict.keys (depending s) ++ T) s.
Proof.
  intros Hr. split; [exact Hr|]. intros m t H. right. apply in_or_app. left.
  apply get_keys. congruence.
Qed.

Lemma with_blacklist_view (m : string) (s : TaskScheduler) :
  heap (with_blacklist m s) = heap s /\ hwm (with_blacklist m s) = hwm s /\
  loads (with_blacklist m s) = loads s /\ targets (with_blacklist m s) = targets s /\
  completed (with_blacklist m s) = completed s /\
  failed (with_blacklist m s) = failed s /\
  all_completed (with_blacklist m s) = all_completed s /\
  all_failed (with_blacklist m s) = all_failed s /\
  destinations (with_blacklist m s) = destinations s /\
  depending (with_blacklist m s) = depending s.
Proof. unfold with_blacklist. destruct (PyDict.contains m (blacklist s)); repeat split. Qed.


Section ScanBody.
Variable upd : option string -> bool -> M unit.
Hypothesis upd_scan :
  forall d b T s,
    In d (all_done s) -> scanning (waiters d s ++ T) s ->
    post (fun _ => scanning T) (fun _ => True) (upd (Some d) b s).

Lemma fail_unreachable_body_scan (m : string) (w : why) (T : list string)
  (s : TaskScheduler) :
  scanning (m :: T) s ->
  post (fun _ => scanning T) (fun _ => True) (fail_unreachable_body upd m w s).
Proof.
  intros Hs. unfold fail_unreachable_body. rewrite bind_get_self.
  destruct (PyDict.get m (depending s)) as [t|] eqn:Em;
    [|now apply scanning_drop with (m := m)].
  rewrite bind_modify.
  set (s0 := set_depending (PyDict.remove m (depending s)) s).
  apply post_bind with
    (R := fun _ s1 => graph_keeps m (graph s) (graph s1) /\ s1 = set_graph (graph s1) s0);
    [exact (scrub_graph_keeps m (t_follow t) (t_after t) s0)|].
  intros _ s1 [Hk Hs1]. rewrite !bind_modify. cbv beta. rewrite !bind_send.
  match goal with |- post _ _ (upd _ _ ?x) => set (s4 := x) end.
  assert (In m (all_done s4) /\ scanning (waiters m s4 ++ T) s4) as [Hd Hscan].
  { apply (@scanning_failed m t T s s4); auto;
      subst s4; simpl; rewrite Hs1; reflexivity. }
  now apply upd_scan.
Qed.

Lemma maybe_run_body_scan (m : string) (t0 : task) (T : list string)
  (s : TaskScheduler) :
  let t := mkTask (t_raw t0) (t_targets t0) MET (t_follow t0) (t_timeout t0) in
  scanning (m :: T) s -> PyDict.get m (depending s) = Some t0 ->
  dep_unreachable (t_after t0) (all_completed s) (all_failed s) = false ->
  dep_unreachable (t_follow t0) (all_completed s) (all_failed s) = false ->
  post (fun (ran : bool) s' => if ran then scanning (m :: T) s' else scanning T s')
       (fun _ => True) (maybe_run_body upd m t s).
Proof.
  intros t Hs Hm Hu1 Hu2.
  destruct (with_blacklist_view m s)
    as (Hheap & Hh & Hl & Ht & Hc & Hf & Hac & Haf & Hd & Hdep).
  assert (forall a, deref (with_blacklist m s) a = deref s a) as Hderef
    by (intros a; unfold deref; now rewrite Hheap).
  pose proof (scanning_with_blacklist m Hs) as Hs1.
  assert (forall d, In d (deps t) -> In d (deps t0)) as Hdeps.
  { intros d Hd'. apply In_union. left. exact Hd'. }
  assert (forall s', same_but_location s s' -> blocked m t s' ->
                     PyDict.get m (depending s') = Some t0 ->
                     scanning (m :: T) s' -> scanning T s') as Hsettle.
  { intros s' Hsame Hb Hm' Hs'. apply scanning_settle with (m := m) (t := t0); auto.
    destruct (same_but_location_fields Hsame)
      as (_ & _ & _ & _ & _ & _ & _ & _ & Hac' & Haf' & _).
    unfold still_waiting. rewrite Hac', Haf'. split; [exact Hu1|]. split; [exact Hu2|].
    intros _. exact Hb. }
  assert (PyDict.get m (depending (looked_at m t s)) = Some t0) as Hmlook.
  { destruct (same_but_location_fields (looked_at_same m t s)) as (_ & -> & _).
    exact Hm. }
  pose proof (@scanning_looked_at m t t0 T s Hs Hm eq_refl) as Hslook.
  unfold maybe_run_body. rewrite bind_modify. cbv beta. fold (with_blacklist m s).
  rewrite bind_get_self. erewrite bind_getitem_some by apply get_with_blacklist.
  cbv zeta. rewrite Hderef, Hh, Ht.
  destruct (PySet.truthy (dep_ids (t_follow t)) || PySet.truthy (deref s (t_targets t))
            || PySet.truthy (blacklist_of m s) || negb (hwm s =? 0)) eqn:Eflag.
  - apply post_bind_reads;
      [apply reads_filter_m; intros; apply reads_can_run | exact I | intros indices Hind].
    destruct indices as [|i L].
    + apply post_bind_reads; [apply reads_follow_impossible | exact I | intros imp Himp].
      assert (imp = false -> (PySet.truthy (deref s (t_targets t)) = true ->
                PySet.truthy (PySet.difference (deref s (t_targets t))
                                (blacklist_of m s)) = true /\
                PySet.truthy (PySet.intersection
                                (PySet.difference (deref s (t_targets t))
                                   (blacklist_of m s)) (targets s)) = true) ->
              blocked m t s) as Hblocked.
      { intros -> Htg. split; [exact Eflag|]. split; [|split; [|exact Htg]].
        - unfold no_eligible_engine. rewrite <- Hind.
          apply filter_m_fst_frame; [intros; apply reads_can_run|]. intros idx _.
          apply can_run_fst_frame; auto.
        - rewrite <- Himp. apply follow_impossible_frame; auto. }
      destruct imp.
      * rewrite bind_modify.
        apply post_bind with (R := fun _ => scanning T); [|intros _ s2 H2; exact H2].
        apply fail_unreachable_body_scan.
        apply scanning_redepend with (t0 := t0); auto. now rewrite Hdep.
      * destruct (PySet.truthy (deref s (t_targets t))) eqn:Et.
        -- rewrite bind_modify, bind_get_self. cbv beta.
           fold (difference_update (t_targets t) (blacklist_of m s) (with_blacklist m s)).
           replace (difference_update (t_targets t) (blacklist_of m s)
                      (with_blacklist m s)) with (looked_at m t s)
             by (unfold looked_at; now rewrite Et).
           assert (deref (looked_at m t s) (t_targets t) =
                   PySet.difference (deref s (t_targets t)) (blacklist_of m s)) as Hdl
             by (rewrite deref_looked_at, Et, Nat.eqb_refl; reflexivity).
           assert (targets (looked_at m t s) = targets s) as Htl.
           { now destruct (same_but_location_fields (looked_at_same m t s))
               as (_ & _ & _ & _ & -> & _). }
           rewrite Hdl, Htl.
           destruct (negb _ || negb _) eqn:Econd.
           ++ rewrite bind_modify.
              apply post_bind with (R := fun _ => scanning T); [|intros _ s2 H2; exact H2].
              apply fail_unreachable_body_scan.
              apply scanning_redepend with (t0 := t0); auto.
           ++ apply orb_false_elim in Econd as [E1 E2].
              apply negb_false_iff in E1, E2.
              apply (Hsettle _ (looked_at_same m t s)); auto.
              apply blocked_looked_at; auto.
        -- replace (with_blacklist m s) with (looked_at m t s)
             by (unfold looked_at; now rewrite Et).
           apply (Hsettle _ (looked_at_same m t s)); auto.
           apply blocked_looked_at; auto. apply Hblocked; auto. discriminate.
    + apply post_bind with (R := fun _ => scanning (m :: T)); [|intros _ s2 H2; exact H2].
      eapply post_weaken; [apply submit_task_step| |auto].
      intros _ s2 (idx & e & l & Hstep & Hin).
      eapply scanning_dispatched; [exact Hstep| |exact Hs1].
      destruct (@filter_m_In _ _ _ _ idx _ (reads_can_run t (blacklist_of m s)) Hind Hin)
        as [_ Hcan].
      eapply can_run_true_free; [exact Hcan|]. now destruct Hstep as (_ & ? & _).
  - apply post_bind with (R := fun _ => scanning (m :: T)); [|intros _ s2 H2; exact H2].
    eapply post_weaken; [apply submit_task_step| |auto].
    intros _ s2 (idx & e & l & Hstep & _).
    eapply scanning_dispatched; [exact Hstep| |exact Hs1].
    left. rewrite Hh. apply orb_false_elim in Eflag as [_ E].
    apply negb_false_iff in E. now apply Z.eqb_eq.
Qed.

Lemma update_graph_body_scan (d : option string) (b : bool) (T : list string)
  (s : TaskScheduler) :
  match d with
  | Some dd => In dd (all_done s) /\ scanning (waiters dd s ++ T) s
  | None => scan_ready s
  end ->
  post (fun _ => scanning T) (fun _ => True) (update_graph_body upd d b s).
Proof.
  intros Hpre. unfold update_graph_body. rewrite bind_get_self, bind_modify.
  cbv beta zeta.
  apply post_for_each_rest with (I := fun rest s1 => scanning (rest ++ T) s1).
  - destruct d as [dd|].
    + destruct Hpre as [Hd Hs]. rewrite orb_false_l.
      destruct (negb (hwm s =? 0) && existsb (fun load => load =? hwm s - 1) (loads s)).
      * destruct (@scanning_graph_pop dd _ s Hs Hd) as [Hr _].
        exact (@scanning_all T (set_graph (PyDict.remove dd (graph s)) s) Hr).
      * now apply scanning_graph_pop.
    + rewrite orb_true_l. now apply scanning_all.
  - intros x rest s1 Hs1. rewrite bind_get_self.
    apply post_bind_reads; [apply reads_getitem | exact I | intros t0 Ht0].
    apply getitem_ok in Ht0.
    destruct (dep_unreachable (t_after t0) (all_completed s1) (all_failed s1)) eqn:Eu1;
      [now apply fail_unreachable_body_scan|].
    destruct (dep_unreachable (t_follow t0) (all_completed s1) (all_failed s1)) eqn:Eu2;
      [now apply fail_unreachable_body_scan|].
    cbv beta iota. change (false || false) with false. cbv beta iota.
    destruct (dep_check (t_after t0) (all_completed s1) (all_failed s1)) eqn:Ec.
    + apply post_bind with
        (R := fun (ran : bool) s' =>
                if ran then scanning (x :: rest ++ T) s' else scanning (rest ++ T) s');
        [now apply maybe_run_body_scan|].
      intros ran s2 H2. destruct ran; [|exact H2].
      rewrite bind_get_self.
      apply post_bind_reads; [apply reads_getitem | exact I | intros t2 _].
      rewrite bind_modify.
      eapply post_weaken;
        [exact (scrub_graph_keeps x (t_follow t0) (t_after t0)
                  (set_depending (PyDict.remove x (depending s2)) s2))| |auto].
      intros _ s3 [Hk Hs3]. apply scanning_removed with (m := x) (s := s2); auto.
      * now rewrite Hs3.
      * rewrite Hs3. repeat split.
      * now rewrite Hs3.
    + apply scanning_settle with (m := x) (t := t0); auto.
      split; [exact Eu1|]. split; [exact Eu2|]. intros H. congruence.
Qed.
End ScanBody.


Lemma update_graph_scan depth :
  forall d b T s,
    In d (all_done s) -> scanning (waiters d s ++ T) s ->
    post (fun _ => scanning T) (fun _ => True) (update_graph depth (Some d) b s).
Proof.
  induction depth as [|depth IH]; intros d b T s Hd Hs; [exact I|].
  simpl update_graph. apply update_graph_body_scan; [exact IH|now split].
Qed.

Lemma update_graph_rescan depth (s s1 : TaskScheduler) :
  scan_ready s -> update_graph depth None true s = (Ok tt, s1) ->
  scan_ready s1 /\ rescan_quiet s1.
Proof.
  intros Hr E. destruct depth as [|depth]; [discriminate|].
  pose proof (@update_graph_body_scan (update_graph depth) (update_graph_scan depth)
                None true [] s Hr) as H.
  simpl update_graph in E. rewrite E in H. destruct H as [Hr1 Htodo].
  split; [exact Hr1|]. intros m t Hm. now destruct (Htodo m t Hm).
Qed.

Lemma target_left_waiting (m : string) (t : task) :
  PyDict.get m (depending target_left) = Some t ->
  m = "T2" /\ deps t = [].
Proof.
  intros H.
  assert (In m (PyDict.keys (depending target_left)))
    as Hin by (apply get_keys; rewrite H; discriminate).
  vm_compute in Hin. destruct Hin as [<-|[]]. split; [reflexivity|].
  vm_compute in H. now injection H as <-.
Qed.

Lemma target_left_ready : scan_ready target_left.
Proof.
  split; [|split; [|split]].
  - intros m t d H Hd. destruct (target_left_waiting _ H) as [_ E].
    rewrite E in Hd. destruct Hd.
  - intros m H. unfold waiting in H.
    destruct (PyDict.get m (depending target_left)) as [t|] eqn:E; [|congruence].
    destruct (target_left_waiting _ E) as [-> _]. vm_compute. tauto.
  - intros m m' t t' H H' _.
    destruct (target_left_waiting _ H) as [-> _].
    now destruct (target_left_waiting _ H') as [-> _].
  - reflexivity.
Qed.


(** A scan settles the waiting tasks.  When every waiting task is among the
    waiters in [graph] of each of its unfinished dependencies, no waiting
    task has finished, no two waiting tasks hold the same target set and
    [targets] and [loads] have the same length, a call [update_graph(None)]
    that returns leaves every waiting task still waiting: a second call
    returns, dispatches and fails no task, and leaves [graph], [depending],
    [pending], [loads] and the messages sent as the first call left them. *)
Theorem scan_then_rescan_noop depth depth' (s s1 : TaskScheduler) :
  scan_ready s -> update_graph depth None true s = (Ok tt, s1) ->
  rescan_quiet s1 /\
  let out := update_graph (S depth') None true s1 in
  fst out = Ok tt /\
  graph (snd out) = graph s1 /\ depending (snd out) = depending s1 /\
  pending (snd out) = pending s1 /\ loads (snd out) = loads s1 /\
  sent (snd out) = sent s1 /\ all_failed (snd out) = all_failed s1.
Proof.
  intros Hr E. destruct (update_graph_rescan depth Hr E) as [(_ & _ & Hu & _) Hq].
  split; [exact Hq|]. intros out. subst out.
  destruct (rescan_quiet_ok depth' Hq Hu) as (s' & E' & Hs & _).
  rewrite E'. simpl.
  destruct (same_but_location_fields Hs)
    as (Hg & Hd & Hp & Hl & _ & Hsent & _ & _ & _ & Haf & _).
  repeat (split; [assumption || reflexivity|]). exact Haf.
Qed.

Lemma scan_then_rescan_noop_witness :
  let s1 := snd (update_graph 5 None true target_left) in
  scan_ready target_left /\
  update_graph 5 None true target_left = (Ok tt, s1) /\
  depending s1 <> depending target_left /\
  rescan_quiet s1 /\
  let out := update_graph 5 None true s1 in
  fst out = Ok tt /\
  graph (snd out) = graph s1 /\ depending (snd out) = depending s1 /\
  pending (snd out) = pending s1 /\ loads (snd out) = loads s1 /\
  sent (snd out) = sent s1 /\ all_failed (snd out) = all_failed s1.
Proof.
  intros s1.
  assert (update_graph 5 None true target_left = (Ok tt, s1)) as E.
  { subst s1. destruct (update_graph 5 None true target_left) as [r s'] eqn:E0.
    assert (r = Ok tt) as ->; [|reflexivity].
    change r with (fst (r, s')). rewrite <- E0. vm_compute. reflexivity. }
  split; [exact target_left_ready|]. split; [exact E|].
  split; [vm_compute; discriminate|].
  exact (@scan_then_rescan_noop 5 4 target_left s1 target_left_ready E).
Defined.


(** ** What holds along the runs of the scheduler *)

Lemma one_running_one_waiting_expected :
  expected_run 5 (start 0 leastload) one_running_one_waiting.
Proof.
  split; [|split; [|split]].
  - vm_compute. tauto.
  - vm_compute. tauto.
  - vm_compute. intuition discriminate.
  - exact I.
Qed.

(** Along a run from the start in which every submission carries a msg_id
    that was not submitted before, every result is for a task that is
    pending on the engine that replies, and every registration is of an
    engine that is not registered: no engine is twice in [targets],
    [targets] and [loads] have the same length, and every registered engine
    has its entry in [pending]. *)
Theorem engines_distinct depth hwm scheme (evs : list event) :
  expected_run depth (start hwm scheme) evs ->
  let s := run depth (start hwm scheme) evs in
  NoDup (targets s) /\
  List.length (targets s) = List.length (loads s) /\
  forall e, In e (targets s) -> PyDict.get e (pending s) <> None.
Proof.
  intros H s. rewrite <- (app_nil_r evs) in H.
  destruct (expected_run_inv _ _ _ _ _ H) as ((Hf & Hnd & _) & _).
  split; [exact Hnd|]. split; [exact (Forall2_length Hf)|].
  intros e He. subst s. revert Hf He.
  generalize (targets (run depth (start hwm scheme) evs))
             (loads (run depth (start hwm scheme) evs)).
  intros la lb Hf. induction Hf as [|a b la lb (p & Hp & _) Hf IH]; intros [].
  - subst. congruence.
  - now apply IH.
Qed.

Lemma engines_distinct_witness :
  expected_run 5 (start 0 leastload) one_running_one_waiting /\
  let s := run 5 (start 0 leastload) one_running_one_waiting in
  NoDup (targets s) /\
  List.length (targets s) = List.length (loads s) /\
  forall e, In e (targets s) -> PyDict.get e (pending s) <> None.
Proof.
  split; [exact one_running_one_waiting_expected|].
  exact (@engines_distinct 5 0 leastload one_running_one_waiting
           one_running_one_waiting_expected).
Defined.

(** Along such a run a task is pending on at most one engine, and a task
    that is pending on an engine is not waiting in [depending]. *)
Theorem pending_exclusive depth hwm scheme (evs : list event) :
  expected_run depth (start hwm scheme) evs ->
  let s := run depth (start hwm scheme) evs in
  (forall e e' p p' m,
      PyDict.get e (pending s) = Some p -> PyDict.get e' (pending s) = Some p' ->
      PyDict.get m p <> None -> PyDict.get m p' <> None -> e = e') /\
  (forall e p m,
      PyDict.get e (pending s) = Some p -> PyDict.get m p <> None ->
      PyDict.get m (depending s) = None).
Proof.
  intros H s. rewrite <- (app_nil_r evs) in H.
  destruct (expected_run_inv _ _ _ _ _ H) as ((_ & _ & _ & Honce) & (Hp & _) & _).
  split; [exact Honce|]. intros e p m He Hm.
  assert (pend m s) as Hpm by (now exists e, p).
  destruct (Hp m Hpm) as [Hnw _].
  destruct (PyDict.get m (depending s)) as [t|] eqn:E; [|reflexivity].
  exfalso. apply Hnw. unfold waiting. fold s. rewrite E. discriminate.
Qed.

Lemma pending_exclusive_witness :
  expected_run 5 (start 0 leastload) one_running_one_waiting /\
  let s := run 5 (start 0 leastload) one_running_one_waiting in
  (forall e e' p p' m,
      PyDict.get e (pending s) = Some p -> PyDict.get e' (pending s) = Some p' ->
      PyDict.get m p <> None -> PyDict.get m p' <> None -> e = e') /\
  (forall e p m,
      PyDict.get e (pending s) = Some p -> PyDict.get m p <> None ->
      PyDict.get m (depending s) = None).
Proof.
  split; [exact one_running_one_waiting_expected|].
  exact (@pending_exclusive 5 0 leastload one_running_one_waiting
           one_running_one_waiting_expected).
Defined.

(** Along such a run a task that is pending on an engine or waiting in
    [depending] has not finished: it is not in [all_done], it is in
    [all_ids] and it has its entry in [retries]; and every finished task
    was submitted. *)
Theorem in_flight_unfinished depth hwm scheme (evs : list event) :
  expected_run depth (start hwm scheme) evs ->
  let s := run depth (start hwm scheme) evs in
  (forall m, pend m s \/ waiting m s ->
             ~ In m (all_done s) /\ In m (all_ids s) /\
             PyDict.get m (retries s) <> None) /\
  (forall m, In m (all_done s) -> In m (all_ids s)).
Proof.
  intros H s. rewrite <- (app_nil_r evs) in H.
  destruct (expected_run_inv _ _ _ _ _ H) as (_ & (Hp & Hw) & _ & _ & Hsub).
  split; [|exact Hsub]. intros m [Hm|Hm]; [now destruct (Hp m Hm)|now apply Hw].
Qed.

Lemma in_flight_unfinished_witness :
  expected_run 5 (start 0 leastload) one_running_one_waiting /\
  let s := run 5 (start 0 leastload) one_running_one_waiting in
  (forall m, pend m s \/ waiting m s ->
             ~ In m (all_done s) /\ In m (all_ids s) /\
             PyDict.get m (retries s) <> None) /\
  (forall m, In m (all_done s) -> In m (all_ids s)).
Proof.
  split; [exact one_running_one_waiting_expected|].
  exact (@in_flight_unfinished 5 0 leastload one_running_one_waiting
           one_running_one_waiting_expected).
Defined.


Lemma stable_finished_include (C F D : PySet.t) : knot_stable (finished_include C F D).
Proof.
  intros s s' H (H1 & H2 & H3); destruct H; try (now repeat split).
  unfold mark_failed. repeat split; simpl; auto; intros x Hx; apply In_add; auto.
Qed.

Lemma frame_finished_include (C F D : PySet.t) : frame_stable (finished_include C F D).
Proof.
  unfold frame_stable.
  repeat (split; [intros s1 v1 H; exact H|]). intros s1 v1 H; exact H.
Qed.

Lemma handle_result_finished_include (C F D : PySet.t) (depth : nat) (r : reply)
  (success : bool) :
  preserves (finished_include C F D) (handle_result depth r success).
Proof.
  unfold handle_result. cbv zeta.
  repeat (lazymatch goal with
          | |- preserves _ (bind (if _ then _ else _) _) => fail
          | _ => pres_step frame_leaf
          end).
  unfold preserves, hoare. intros s (H1 & H2 & H3).
  destruct success; rewrite bind_bind, bind_get_self, bind_bind.
  - destruct (PyDict.get (rep_engine r) (completed s)) as [c|] eqn:E;
      [erewrite bind_getitem_some by exact E
      |erewrite bind_getitem_none by exact E; now repeat split].
    rewrite bind_bind, !bind_modify.
    apply stable_update_graph; [apply stable_finished_include|].
    repeat split; simpl; auto; intros x Hx; apply In_add; auto.
  - destruct (PyDict.get (rep_engine r) (failed s)) as [f|] eqn:E;
      [erewrite bind_getitem_some by exact E
      |erewrite bind_getitem_none by exact E; now repeat split].
    rewrite bind_bind, !bind_modify.
    apply stable_update_graph; [apply stable_finished_include|].
    repeat split; simpl; auto; intros x Hx; apply In_add; auto.
Qed.

(** No handler takes a task out of [all_completed], [all_failed] or
    [all_done], whatever the message and whether the handler returns or
    raises: a task that has finished stays finished. *)
Theorem finished_sets_grow depth (s : TaskScheduler) (ev : event) (x : string) :
  (In x (all_completed s) -> In x (all_completed (step depth s ev))) /\
  (In x (all_failed s) -> In x (all_failed (step depth s ev))) /\
  (In x (all_done s) -> In x (all_done (step depth s ev))).
Proof.
  assert (finished_include (all_completed s) (all_failed s) (all_done s)
            (step depth s ev)) as (H1 & H2 & H3).
  { apply step_preserves.
    - apply stable_finished_include.
    - apply frame_finished_include.
    - apply handle_result_finished_include.
    - now repeat split. }
  repeat split; auto.
Qed.


Lemma finished_sets_grow_witness :
  In "T1"%string (all_completed (run 5 (start 0 leastload) served_run)) /\
  In "T1"%string
     (all_completed (step 5 (run 5 (start 0 leastload) served_run)
                       (submit "T2" [] None MET))).
Proof.
  destruct (@finished_sets_grow 5 (run 5 (start 0 leastload) served_run)
              (submit "T2" [] None MET) "T1") as (H & _).
  assert (In "T1"%string (all_completed (run 5 (start 0 leastload) served_run))) as H1
    by (vm_compute; tauto).
  split; [exact H1|exact (H H1)].
Defined.

(** ** Unregistration *)

Lemma index_of_absent (x : ident) (l : list ident) : ~ In x l -> index_of x l = None.
Proof.
  induction l as [|y l IH]; simpl; intros H; [reflexivity|].
  destruct (String.eqb_spec x y) as [->|Hne]; [elim H; now left|].
  rewrite IH; [reflexivity|]. intros Hx. apply H. now right.
Qed.


(** A notice that an engine left which is not registered is swallowed by
    [dispatch_notification]: nothing is changed, but that the scheduler
    stops receiving submissions when exactly one engine is registered,
    which stays registered. *)
Theorem unregister_unknown_engine depth (uid : ident) (s : TaskScheduler) :
  ~ In uid (targets s) ->
  dispatch_notification depth (unregistration_notification uid) s =
    (Ok tt, if Nat.eqb (List.length (targets s)) 1 then set_receiving false s else s).
Proof.
  intros H. unfold dispatch_notification, try_pass, _unregister_engine.
  rewrite bind_modify, bind_get_self. cbv beta.
  destruct (Nat.eqb (List.length (targets s)) 1).
  - change (targets (set_receiving false s)) with (targets s).
    now rewrite (index_of_absent _ _ H).
  - now rewrite (index_of_absent _ _ H).
Qed.

Lemma unregister_unknown_engine_witness :
  let s := run 5 (start 0 leastload) [register "E1"] in
  ~ In "E2"%string (targets s) /\
  receiving s = true /\
  targets (step 5 s (Notification (unregistration_notification "E2"))) = ["E1"%string] /\
  receiving (step 5 s (Notification (unregistration_notification "E2"))) = false.
Proof.
  intros s.
  assert (~ In "E2"%string (targets s)) as H by (vm_compute; intuition discriminate).
  split; [exact H|]. split; [reflexivity|].
  unfold step. simpl handler. rewrite (@unregister_unknown_engine 5 "E2" s H).
  split; reflexivity.
Defined.




(** ** Submission of a task without constraints *)

Lemma submit_task_ok (m : string) (t : task) (s : TaskScheduler) (idx : nat)
  (e : ident) (l : Z) (p : PyDict.t task) :
  scheme s (loads s) = Ok idx ->
  nth_error (targets s) idx = Some e -> nth_error (loads s) idx = Some l ->
  PyDict.get e (pending s) = Some p ->
  submit_task m t None s =
    (Ok tt,
     set_sent (sent s ++ [EngineTask e m; MonTrackTask m e])
       (dispatched m (mkTask (t_raw t) (t_targets t) MET (t_follow t) (t_timeout t))
          idx e l p s)).
Proof.
  intros Hs He Hl Hp. unfold submit_task. cbv zeta.
  rewrite bind_get_self, bind_ret.
  unfold bind at 1. rewrite Hs. rewrite bind_ret.
  erewrite bind_getindex_some by exact He. rewrite bind_send.
  erewrite bind_eq by (apply add_job_ok; [exact He|exact Hl]).
  rewrite bind_get_self. simpl pending. erewrite bind_getitem_some by exact Hp.
  rewrite bind_modify. unfold send, modify, dispatched. simpl.
  rewrite <- app_assoc. simpl. now destruct s.
Qed.

Lemma leastload_ok (loads : list Z) :
  loads <> [] ->
  exists idx l, leastload loads = Ok idx /\ nth_error loads idx = Some l /\
                (forall x, In x loads -> l <= x) /\
                (forall j x, (j < idx)%nat -> nth_error loads j = Some x -> l < x).
Proof.
  intros H. destruct (list_min_nonempty H) as [mn Hm].
  destruct (list_min_spec _ Hm) as [Hin Hle].
  destruct (index_Z_spec _ _ Hin) as (i & Hi & Hn & Hfirst).
  exists i, mn. unfold leastload. rewrite Hm, Hi. repeat split; auto.
  intros j x Hj Hx. pose proof (Hfirst j x Hj Hx).
  pose proof (Hle x (nth_error_In _ _ Hx)). lia.
Qed.


Lemma maybe_run_unconstrained depth (m : string) (t : task) (s : TaskScheduler) :
  dep_ids (t_follow t) = [] -> deref s (t_targets t) = [] ->
  blacklist_of m s = [] -> hwm s = 0 ->
  maybe_run depth m t s =
    bind (submit_task m t None) (fun _ => ret true) (with_blacklist m s).
Proof.
  intros Hf Ht Hb Hh.
  destruct (with_blacklist_view m s) as (Hheap & Hh' & _).
  unfold maybe_run, maybe_run_body. rewrite bind_modify. cbv beta.
  fold (with_blacklist m s). rewrite bind_get_self.
  erewrite bind_getitem_some by apply get_with_blacklist. cbv zeta.
  unfold deref in *. rewrite Hheap, Hf, Ht, Hb, Hh', Hh. reflexivity.
Qed.

(** A task without targets, dependencies and blacklist goes to the least
    loaded engine when it is submitted: with the chooser [leastload], no
    high water mark and an engine registered, [dispatch_submission] returns
    after it has sent the task to the first engine of [targets] with the
    least load, moved that engine to the back with its load one higher,
    stored the task in the engine's [pending], and recorded the msg_id in
    [all_ids] and [retries]; [depending] is as before. *)
Theorem plain_submission_dispatched depth (now : Z) (raw : raw_msg) (s : TaskScheduler) :
  let hd := raw_header raw in
  let m := h_msg_id hd in
  h_targets hd = [] -> h_after hd = None -> dep_ids (h_follow hd) = [] ->
  hwm s = 0 -> scheme s = leastload -> blacklist_of m s = [] ->
  List.length (targets s) = List.length (loads s) -> targets s <> [] ->
  (forall e, In e (targets s) -> PyDict.get e (pending s) <> None) ->
  exists idx e l p t s',
    nth_error (targets s) idx = Some e /\ nth_error (loads s) idx = Some l /\
    (forall x, In x (loads s) -> l <= x) /\
    (forall j x, (j < idx)%nat -> nth_error (loads s) j = Some x -> l < x) /\
    PyDict.get e (pending s) = Some p /\
    dispatch_submission depth now raw s = (Ok tt, s') /\
    targets s' = remove_nth idx (targets s) ++ [e] /\
    loads s' = remove_nth idx (loads s) ++ [l + 1] /\
    pending s' = PyDict.set e (PyDict.set m t p) (pending s) /\
    t_raw t = raw /\ t_after t = MET /\
    sent s' = sent s ++ [MonInTask m; EngineTask e m; MonTrackTask m e] /\
    depending s' = depending s /\
    all_ids s' = PySet.add m (all_ids s) /\
    PyDict.get m (retries s') = Some (h_retries hd).
Proof.
  intros hd m Htg Hafter Hfollow Hh Hscheme Hbl Hlen Hne Hpend.
  assert (loads s <> []) as Hne' by (destruct (targets s), (loads s); simpl in *; congruence).
  destruct (leastload_ok Hne') as (idx & l & Hidx & Hl & Hmin & Hfirst).
  assert (exists e, nth_error (targets s) idx = Some e) as [e He].
  { destruct (nth_error (targets s) idx) as [e|] eqn:E; [now exists e|].
    apply nth_error_None in E. assert (idx < List.length (loads s))%nat; [|lia].
    apply nth_error_Some. congruence. }
  destruct (PyDict.get e (pending s)) as [p|] eqn:Hp;
    [|elim (Hpend e (nth_error_In _ _ He) Hp)].
  set (t := mkTask raw (List.length (heap s)) MET
              (mkDependency [] (dep_all (h_follow hd)) (dep_success (h_follow hd))
                 (dep_failure (h_follow hd)))
              match h_timeout hd with
              | Some t => if Z.eqb t 0 then None else Some (now + t)
              | None => None
              end).
  set (s2 := set_retries (PyDict.set m (h_retries hd) (retries s))
               (set_heap (heap s ++ [PySet.of_list (h_targets hd)])
                  (set_all_ids (PySet.add m (all_ids s))
                     (set_sent (sent s ++ [MonInTask m]) s)))).
  assert (dispatch_submission depth now raw s =
          bind (maybe_run depth m t)
            (fun ran : bool =>
               if ran then ret tt
               else bind get_self
                      (fun s => if PySet.mem m (all_failed s) then ret tt
                                else save_unmet m t)) s2) as Hds.
  { unfold dispatch_submission, as_dependency. fold hd. fold m.
    rewrite Hafter, Hfollow. reflexivity. }
  assert (deref s2 (t_targets t) = []) as Hderef.
  { subst s2 t. unfold deref. simpl. rewrite Htg.
    rewrite app_nth2, Nat.sub_diag by lia. reflexivity. }
  assert (maybe_run depth m t s2 =
          (Ok true,
           set_sent (sent s2 ++ [EngineTask e m; MonTrackTask m e])
             (dispatched m (mkTask (t_raw t) (t_targets t) MET (t_follow t) (t_timeout t))
                idx e l p (with_blacklist m s2)))) as Hrun.
  { rewrite maybe_run_unconstrained; auto.
    erewrite bind_eq; [reflexivity|].
    rewrite (@submit_task_ok m t (with_blacklist m s2) idx e l p);
      unfold with_blacklist; destruct (PyDict.contains m (blacklist s2)); auto;
      simpl; now rewrite Hscheme. }
  rewrite Hds. erewrite bind_eq by exact Hrun. cbv beta iota.
  exists idx, e, l, p, (mkTask (t_raw t) (t_targets t) MET (t_follow t) (t_timeout t)).
  eexists. split; [exact He|]. split; [exact Hl|]. split; [exact Hmin|].
  split; [exact Hfirst|]. split; [exact Hp|]. split; [reflexivity|].
  unfold with_blacklist, dispatched.
  destruct (PyDict.contains m (blacklist s2)); subst s2 t; simpl;
    rewrite <- ?app_assoc; repeat split; apply get_set_same.
Qed.


Lemma plain_submission_dispatched_witness :
  let s := two_engines_one_busy in
  let raw := plain_T2 in
  let hd := raw_header raw in
  let m := h_msg_id hd in
  (h_targets hd = [] /\ h_after hd = None /\ dep_ids (h_follow hd) = [] /\
   hwm s = 0 /\ scheme s = leastload /\ blacklist_of m s = [] /\
   List.length (targets s) = List.length (loads s) /\ targets s <> [] /\
   (forall e, In e (targets s) -> PyDict.get e (pending s) <> None)) /\
  exists idx e l p t s',
    nth_error (targets s) idx = Some e /\ nth_error (loads s) idx = Some l /\
    (forall x, In x (loads s) -> l <= x) /\
    (forall j x, (j < idx)%nat -> nth_error (loads s) j = Some x -> l < x) /\
    PyDict.get e (pending s) = Some p /\
    dispatch_submission 5 0 raw s = (Ok tt, s') /\
    targets s' = remove_nth idx (targets s) ++ [e] /\
    loads s' = remove_nth idx (loads s) ++ [l + 1] /\
    pending s' = PyDict.set e (PyDict.set m t p) (pending s) /\
    t_raw t = raw /\ t_after t = MET /\
    sent s' = sent s ++ [MonInTask m; EngineTask e m; MonTrackTask m e] /\
    depending s' = depending s /\
    all_ids s' = PySet.add m (all_ids s) /\
    PyDict.get m (retries s') = Some (h_retries hd).
Proof.
  intros s raw hd m.
  assert (forall e, In e (targets s) -> PyDict.get e (pending s) <> None) as H9.
  { intros e H. vm_compute in H. destruct H as [<-|[<-|[]]]; vm_compute; discriminate. }
  assert (targets s <> []) as H8 by (vm_compute; discriminate).
  split.
  - repeat (split; [reflexivity|]). split; [exact H8|exact H9].
  - exact (@plain_submission_dispatched 5 0 raw s eq_refl eq_refl eq_refl eq_refl
             eq_refl eq_refl eq_refl H8 H9).
Defined.


(** With no engine registered [submit_task] raises before it sends or
    records anything: [ValueError] from [min] of the empty list with the
    chooser [leastload], [IndexError] from [targets[0]] with [lru]. *)
Theorem submit_task_without_engines (m : string) (t : task) (s : TaskScheduler) :
  targets s = [] -> loads s = [] ->
  (scheme s = leastload -> submit_task m t None s = (Raise ValueError, s)) /\
  (scheme s = lru -> submit_task m t None s = (Raise IndexError, s)).
Proof.
  intros Ht Hl. split; intros Hs; unfold submit_task; cbv zeta;
    rewrite bind_get_self, bind_ret; unfold bind at 1; rewrite Hs, Hl; simpl.
  - reflexivity.
  - unfold bind, getindex. rewrite Ht. reflexivity.
Qed.

Lemma submit_task_without_engines_witness :
  targets (start 0 leastload) = [] /\ loads (start 0 leastload) = [] /\
  scheme (start 0 leastload) = leastload /\
  submit_task "T1" task_T1 None (start 0 leastload) = (Raise ValueError, start 0 leastload).
Proof.
  destruct (@submit_task_without_engines "T1" task_T1 (start 0 leastload)
              eq_refl eq_refl) as [H _].
  repeat (split; [reflexivity|]). exact (H eq_refl).
Defined.

(** ** Timeouts *)





(** ** Saving a task that cannot run yet *)

Lemma save_unmet_step (m d : string) (s : TaskScheduler) :
  exists g,
    bind (modify (fun s => if PyDict.contains d (graph s) then s
                           else set_graph (PyDict.set d [] (graph s)) s))
      (fun _ => bind get_self (fun s => bind (getitem d (graph s))
         (fun g => modify (set_graph (PyDict.set d (PySet.add m g) (graph s)))))) s =
      (Ok tt, set_graph (PyDict.set d (PySet.add m g) (graph s)) s) /\
    (forall x, In x (match PyDict.get d (graph s) with Some g0 => g0 | None => [] end) ->
               In x g).
Proof.
  rewrite bind_modify, bind_get_self. unfold PyDict.contains.
  destruct (PyDict.get d (graph s)) as [g|] eqn:E.
  - exists g. erewrite bind_getitem_some by exact E. split; [reflexivity|auto].
  - exists []. erewrite bind_getitem_some by (simpl; apply get_set_same).
    split; [|auto]. unfold modify. simpl. rewrite set_set. reflexivity.
Qed.

Lemma save_unmet_loop (m : string) (L : list string) (s : TaskScheduler) :
  exists s',
    for_each L
      (fun dep_id =>
         bind (modify (fun s => if PyDict.contains dep_id (graph s) then s
                                else set_graph (PyDict.set dep_id [] (graph s)) s))
           (fun _ => bind get_self (fun s => bind (getitem dep_id (graph s))
              (fun g => modify (set_graph
                                  (PyDict.set dep_id (PySet.add m g) (graph s))))))) s =
      (Ok tt, s') /\
    s' = set_graph (graph s') s /\
    (forall d, In d L -> exists g, PyDict.get d (graph s') = Some g /\ In m g) /\
    (forall d g x, PyDict.get d (graph s) = Some g -> In x g ->
                   exists g', PyDict.get d (graph s') = Some g' /\ In x g').
Proof.
  revert s. induction L as [|d L IH]; intros s.
  - exists s. split; [reflexivity|]. split; [now destruct s|]. split; [intros d []|].
    intros d g x Hg Hx. now exists g.
  - destruct (save_unmet_step m d s) as (g & E & Hg).
    destruct (IH (set_graph (PyDict.set d (PySet.add m g) (graph s)) s))
      as (s' & E' & Hs' & Hin & Hkeep).
    exists s'. split; [|split; [|split]].
    + simpl for_each. unfold bind at 1. rewrite E. exact E'.
    + rewrite Hs' at 1. now destruct s.
    + intros d' [<-|Hd']; [|now apply Hin].
      apply (Hkeep d (PySet.add m g) m); [apply get_set_same|].
      apply In_add. now left.
    + intros d' g' x Hg' Hx.
      destruct (String.eqb_spec d' d) as [->|Hne].
      * apply (Hkeep d (PySet.add m g) x); [apply get_set_same|].
        apply In_add. right. apply Hg. now rewrite Hg'.
      * apply (Hkeep d' g' x); [|exact Hx]. simpl. now rewrite get_set_other.
Qed.

(** [save_unmet] always returns.  It stores the task in [depending] under
    its msg_id and adds the msg_id to the waiters in [graph] of each
    dependency ([after] and [follow]) that is not in [all_done]; every
    waiter of [graph] stays, and nothing else is assigned. *)
Theorem save_unmet_registers (m : string) (t : task) (s : TaskScheduler) :
  exists s',
    save_unmet m t s = (Ok tt, s') /\
    PyDict.get m (depending s') = Some t /\
    (forall d, In d (dep_ids (t_after t)) \/ In d (dep_ids (t_follow t)) ->
               ~ In d (all_done s) ->
               exists g, PyDict.get d (graph s') = Some g /\ In m g) /\
    (forall d g x, PyDict.get d (graph s) = Some g -> In x g ->
                   exists g', PyDict.get d (graph s') = Some g' /\ In x g') /\
    s' = set_graph (graph s') (set_depending (PyDict.set m t (depending s)) s).
Proof.
  unfold save_unmet. rewrite bind_modify, bind_get_self. cbv beta.
  destruct (save_unmet_loop m
              (PySet.difference (PySet.union (dep_ids (t_after t)) (dep_ids (t_follow t)))
                 (all_done s))
              (set_depending (PyDict.set m t (depending s)) s))
    as (s' & E & Hs' & Hin & Hkeep).
  exists s'. split; [exact E|]. split; [|split; [|split]].
  - rewrite Hs'. simpl. apply get_set_same.
  - intros d Hd Hnd. apply Hin. apply In_difference. split; [|exact Hnd].
    now apply In_union.
  - exact Hkeep.
  - exact Hs'.
Qed.

(** ** A final reply *)

Lemma stable_recorded (r : reply) (c f : PySet.t) (s : TaskScheduler) :
  knot_stable (recorded r c f s).
Proof.
  intros s1 s2 H (Hr & Hn & Hd & Ha & Hc). unfold recorded.
  destruct H; simpl; try (repeat split; assumption).
  - repeat split; auto using mem_add_mono.
    destruct (rep_ok r); [assumption|].
    destruct Hc as (? & ? & ? & ?). repeat split; auto using mem_add_mono.
  - repeat split; auto. unfold relayed in *. simpl.
    rewrite relayed_snoc by now apply not_relay. assumption.
Qed.

Ltac bind_norm :=
  repeat first [ rewrite bind_bind | rewrite bind_send | rewrite bind_modify
               | rewrite bind_get_self ].

Lemma final_reply_eq (depth : nat) (s : TaskScheduler) (r : reply) (n : Z)
  (p : PyDict.t task) (t : task) (c f : PySet.t) :
  List.length (targets s) = List.length (loads s) ->
  rep_dependencies_met r = true ->
  PyDict.get (rep_msg_id r) (retries s) = Some n ->
  rep_ok r = true \/ n <= 0 ->
  PyDict.get (rep_engine r) (pending s) = Some p ->
  PyDict.get (rep_msg_id r) p = Some t ->
  PyDict.get (rep_engine r) (completed s) = Some c ->
  PyDict.get (rep_engine r) (failed s) = Some f ->
  exists s2,
    recorded r c f s s2 /\
    dispatch_result depth r s =
      bind (update_graph depth (Some (rep_msg_id r)) (rep_ok r))
           (fun _ => send (MonOutTask (rep_msg_id r))) s2.
Proof.
  intros Hlen Hmet Hn Hfinal Hp Ht Hc Hf.
  unfold dispatch_result, try_or_return.
  destruct (finish_part_ok s (rep_engine r) Hlen) as [v ->].
  rewrite Hmet, bind_get_self. simpl retries.
  erewrite bind_getitem_some by exact Hn.
  assert (negb (rep_ok r) && (0 <? n) = false) as ->.
  { destruct Hfinal as [-> | Hle]; [reflexivity|].
    assert ((0 <? n) = false) as -> by (apply Z.ltb_ge; lia). apply andb_false_r. }
  cbv iota. rewrite bind_modify. unfold handle_result.
  bind_norm. simpl pending.
  erewrite bind_getitem_some by exact Hp. bind_norm.
  erewrite bind_getitem_some by exact Ht. bind_norm.
  unfold recorded.
  destruct (rep_ok r) eqn:Hok; cbv iota; bind_norm.
  - simpl completed. erewrite bind_getitem_some by exact Hc. bind_norm.
    eexists. split; [|reflexivity]. simpl. repeat split.
    + unfold relayed. simpl. rewrite filter_app. reflexivity.
    + apply get_remove_same.
    + apply get_set_same.
    + apply mem_add_same.
  - simpl failed. erewrite bind_getitem_some by exact Hf. bind_norm.
    eexists. split; [|reflexivity]. simpl. repeat split.
    + unfold relayed. simpl. rewrite filter_app. reflexivity.
    + apply get_remove_same.
    + apply get_set_same.
    + apply mem_add_same.
    + apply mem_add_same.
Qed.

(** A reply that is final (status ok, or an error with no retry left) for a
    task pending on the replying engine is relayed to the client exactly
    once and recorded: the retry count is deleted, the task is in
    [all_done], its destination is the replying engine, and it is added to
    the completed sets on success and to the failed sets on error.  This
    holds whether the following [update_graph] returns or raises; when it
    returns, the monitor is told that the task is out. *)
Theorem final_reply_recorded (depth : nat) (s : TaskScheduler) (r : reply) (n : Z)
  (p : PyDict.t task) (t : task) (c f : PySet.t) :
  List.length (targets s) = List.length (loads s) ->
  rep_dependencies_met r = true ->
  PyDict.get (rep_msg_id r) (retries s) = Some n ->
  rep_ok r = true \/ n <= 0 ->
  PyDict.get (rep_engine r) (pending s) = Some p ->
  PyDict.get (rep_msg_id r) p = Some t ->
  PyDict.get (rep_engine r) (completed s) = Some c ->
  PyDict.get (rep_engine r) (failed s) = Some f ->
  let out := dispatch_result depth r s in
  let s' := snd out in
  relayed s' =
    relayed s ++ [ClientRelay (rep_client r) (rep_engine r) (rep_msg_id r) (rep_ok r)] /\
  PyDict.get (rep_msg_id r) (retries s') = None /\
  PyDict.get (rep_msg_id r) (destinations s') = Some (rep_engine r) /\
  PySet.mem (rep_msg_id r) (all_done s') = true /\
  (if rep_ok r
   then all_completed s' = PySet.add (rep_msg_id r) (all_completed s) /\
        completed s' =
          PyDict.set (rep_engine r) (PySet.add (rep_msg_id r) c) (completed s) /\
        failed s' = failed s
   else PySet.mem (rep_msg_id r) (all_failed s') = true /\
        failed s' = PyDict.set (rep_engine r) (PySet.add (rep_msg_id r) f) (failed s) /\
        completed s' = completed s /\ all_completed s' = all_completed s) /\
  (fst out = Ok tt -> last (sent s') (MonOutTask "") = MonOutTask (rep_msg_id r)).
Proof.
  intros Hlen Hmet Hn Hfinal Hp Ht Hc Hf out s'.
  destruct (final_reply_eq depth s r Hlen Hmet Hn Hfinal Hp Ht Hc Hf) as (s2 & H2 & Heq).
  subst s' out. rewrite Heq. clear Heq.
  pose proof (@stable_update_graph _ depth (Some (rep_msg_id r)) (rep_ok r)
                (@stable_recorded r c f s) s2 H2) as Hu.
  unfold bind.
  destruct (update_graph depth (Some (rep_msg_id r)) (rep_ok r) s2) as [[[]|e] s3];
    simpl in Hu |- *.
  - destruct Hu as (Hr & Hrest). unfold recorded in Hrest.
    split; [|split; [tauto|split; [tauto|split; [tauto|split; [tauto|]]]]].
    + unfold relayed in *. simpl. rewrite relayed_snoc by reflexivity. exact Hr.
    + intros _. apply last_last.
  - destruct Hu as (Hr & Hrest).
    split; [exact Hr|]. split; [tauto|split; [tauto|split; [tauto|split; [tauto|]]]].
    intros H; discriminate.
Qed.

Lemma final_reply_recorded_witness :
  let s := two_engines_one_busy in
  let r := mkReply "E2" "client" "T1" true true in
  let out := dispatch_result 5 r s in
  let s' := snd out in
  relayed s' =
    relayed s ++ [ClientRelay (rep_client r) (rep_engine r) (rep_msg_id r) (rep_ok r)] /\
  PyDict.get (rep_msg_id r) (retries s') = None /\
  PyDict.get (rep_msg_id r) (destinations s') = Some (rep_engine r) /\
  PySet.mem (rep_msg_id r) (all_done s') = true /\
  (if rep_ok r
   then all_completed s' = PySet.add (rep_msg_id r) (all_completed s) /\
        completed s' =
          PyDict.set (rep_engine r) (PySet.add (rep_msg_id r) []) (completed s) /\
        failed s' = failed s
   else PySet.mem (rep_msg_id r) (all_failed s') = true /\
        failed s' = PyDict.set (rep_engine r) (PySet.add (rep_msg_id r) []) (failed s) /\
        completed s' = completed s /\ all_completed s' = all_completed s) /\
  (fst out = Ok tt -> last (sent s') (MonOutTask "") = MonOutTask (rep_msg_id r)).
Proof.
  intros s r.
  apply (@final_reply_recorded 5 s r 0
           [("T1", mkTask (mkRaw "client" (mkHeader "T1" [] 0 None MET None)) 0 MET MET None)]
           (mkTask (mkRaw "client" (mkHeader "T1" [] 0 None MET None)) 0 MET MET None)
           [] []);
    first [reflexivity | left; reflexivity].
Defined.

(** ** Where [maybe_run] sends a task *)

Lemma bind_reads_inv (A B : Type) (m : M A) (k : A -> M B) (s s' : TaskScheduler)
  (b : B) :
  reads m -> bind m k s = (Ok b, s') ->
  exists a, fst (m s) = Ok a /\ k a s = (Ok b, s').
Proof.
  intros Hm H. unfold bind in H. pose proof (Hm s) as Hs.
  destruct (m s) as [[a|e] s1]; simpl in Hs; subst s1; [|discriminate].
  exists a. split; [reflexivity|exact H].
Qed.

Lemma submit_task_sent (m : string) (t : task) (indices : option (list nat))
  (s s' : TaskScheduler) :
  submit_task m t indices s = (Ok tt, s') ->
  exists idx e l p,
    nth_error (targets s) idx = Some e /\ nth_error (loads s) idx = Some l /\
    PyDict.get e (pending s) = Some p /\
    match indices with
    | Some (i :: L) => In idx (i :: L)
    | _ => True
    end /\
    s' = set_sent (sent s ++ [EngineTask e m; MonTrackTask m e])
           (dispatched m (mkTask (t_raw t) (t_targets t) MET (t_follow t) (t_timeout t))
              idx e l p s).
Proof.
  unfold submit_task. cbv zeta. rewrite bind_get_self. intros H.
  apply bind_reads_inv in H;
    [|destruct indices as [[|? ?]|]; first [apply reads_for_indices|apply reads_ret]].
  destruct H as (lds & _ & H).
  apply bind_reads_inv in H; [|apply reads_read]. destruct H as (idx0 & _ & H).
  apply bind_reads_inv in H;
    [|destruct indices as [[|? ?]|]; first [apply reads_getindex|apply reads_ret]].
  destruct H as (idx & Hidx & H).
  apply bind_reads_inv in H; [|apply reads_getindex]. destruct H as (e & He & H).
  apply getindex_ok in He. rewrite bind_send in H.
  destruct (nth_error (loads s) idx) as [l|] eqn:Hl.
  - erewrite bind_eq in H by (apply add_job_ok; [exact He|exact Hl]).
    rewrite bind_get_self in H. simpl pending in H.
    apply bind_reads_inv in H; [|apply reads_getitem]. destruct H as (p & Hp & H).
    apply getitem_ok in Hp. rewrite bind_modify in H.
    exists idx, e, l, p. repeat split; try assumption.
    + destruct indices as [[|i L]|]; try exact I.
      apply getindex_ok in Hidx. eapply nth_error_In, Hidx.
    + unfold send, modify in H. injection H as <-. unfold dispatched. simpl.
      rewrite <- app_assoc. simpl. now destruct s.
  - unfold bind in H. rewrite add_job_raises in H by exact Hl. discriminate H.
Qed.

Lemma can_run_true (t : task) (bl : PySet.t) (idx : nat) (e : ident)
  (s : TaskScheduler) :
  fst (can_run t bl idx s) = Ok true -> nth_error (targets s) idx = Some e ->
  PySet.mem e bl = false /\
  (PySet.truthy (deref s (t_targets t)) = true ->
   PySet.mem e (deref s (t_targets t)) = true) /\
  exists c f, PyDict.get e (completed s) = Some c /\
              PyDict.get e (failed s) = Some f /\
              dep_check (t_follow t) c f = true.
Proof.
  intros H He. unfold can_run in H. rewrite bind_get_self in H.
  unfold bind in H.
  destruct ((if hwm s =? 0 then ret 0 else getindex idx (loads s)) s)
    as [[l|x] s1] eqn:El; [|discriminate].
  assert (s1 = s) as ->.
  { destruct (hwm s =? 0); [now injection El|].
    unfold getindex in El. destruct (nth_error (loads s) idx); now injection El. }
  destruct (negb (hwm s =? 0) && (l =? hwm s)); [discriminate|].
  unfold getindex in H. rewrite He in H. unfold ret in H.
  destruct (PySet.mem e bl); [discriminate|]. split; [reflexivity|].
  destruct (PySet.truthy (deref s (t_targets t))) eqn:Et; simpl in H.
  - destruct (PySet.mem e (deref s (t_targets t))); [|discriminate]. simpl in H.
    split; [reflexivity|].
    unfold getitem in H.
    destruct (PyDict.get e (completed s)) as [c|]; [|discriminate].
    destruct (PyDict.get e (failed s)) as [f|]; [|discriminate].
    exists c, f. simpl in H. repeat split. congruence.
  - split; [discriminate|].
    unfold getitem in H.
    destruct (PyDict.get e (completed s)) as [c|]; [|discriminate].
    destruct (PyDict.get e (failed s)) as [f|]; [|discriminate].
    exists c, f. simpl in H. repeat split. congruence.
Qed.

Lemma never_true_bind (A : Type) (m : M A) (k : A -> M bool) (s : TaskScheduler) :
  (forall a s1, fst (k a s1) <> Ok true) -> fst (bind m k s) <> Ok true.
Proof.
  intros H. unfold bind. destruct (m s) as [[a|e] s1]; [apply H|discriminate].
Qed.

Ltac never_true :=
  repeat first
    [ discriminate
    | apply never_true_bind; intros ? ?
    | match goal with
      | |- fst ((if ?b then _ else _) _) <> _ => destruct b
      end ].

(** When [maybe_run] returns [True] it has sent the task to one engine
    and stored it in that engine's [pending], and that engine was allowed:
    it is not in [blacklist[msg_id]], it is one of the task's targets when
    the task has any, its load is not the high water mark when there is
    one, and the [follow] dependency is met by what the engine completed
    and failed. *)
Theorem maybe_run_dispatch_eligible depth (m : string) (t : task)
  (s s' : TaskScheduler) :
  maybe_run depth m t s = (Ok true, s') ->
  exists idx e l p,
    nth_error (targets s) idx = Some e /\ nth_error (loads s) idx = Some l /\
    PyDict.get e (pending s) = Some p /\
    s' = set_sent (sent s ++ [EngineTask e m; MonTrackTask m e])
           (dispatched m (mkTask (t_raw t) (t_targets t) MET (t_follow t) (t_timeout t))
              idx e l p (with_blacklist m s)) /\
    PySet.mem e (blacklist_of m s) = false /\
    (PySet.truthy (deref s (t_targets t)) = true ->
     PySet.mem e (deref s (t_targets t)) = true) /\
    (hwm s <> 0 -> l <> hwm s) /\
    (forall c f, PyDict.get e (completed s) = Some c ->
                 PyDict.get e (failed s) = Some f ->
                 dep_check (t_follow t) c f = true).
Proof.
  intros H.
  destruct (with_blacklist_view m s)
    as (Hheap & Hh & Hl & Ht & Hc & Hf & _).
  unfold maybe_run, maybe_run_body in H. rewrite bind_modify in H. cbv beta in H.
  fold (with_blacklist m s) in H. rewrite bind_get_self in H.
  erewrite bind_getitem_some in H by apply get_with_blacklist. cbv zeta in H.
  assert (pending (with_blacklist m s) = pending s) as Hpe
    by (unfold with_blacklist; now destruct (PyDict.contains m (blacklist s))).
  assert (sent (with_blacklist m s) = sent s) as Hse
    by (unfold with_blacklist; now destruct (PyDict.contains m (blacklist s))).
  set (s1 := with_blacklist m s) in *.
  assert (deref s1 (t_targets t) = deref s (t_targets t)) as Hd
    by (unfold deref; now rewrite Hheap).
  destruct (PySet.truthy (dep_ids (t_follow t)) || PySet.truthy (deref s1 (t_targets t))
            || PySet.truthy (blacklist_of m s) || negb (hwm s1 =? 0)) eqn:Hc0.
  - apply bind_reads_inv in H; [|apply reads_filter_m; intros; apply reads_can_run].
    destruct H as (indices & Hind & H).
    destruct indices as [|i L].
    + exfalso. apply (f_equal fst) in H. simpl in H. revert H. never_true.
    + unfold bind in H.
      destruct (submit_task m t (Some (i :: L)) s1) as [[[]|x] s2] eqn:Es;
        [|discriminate].
      injection H as <-.
      destruct (submit_task_sent _ _ _ _ Es) as (idx & e & l & p & He & Hl' & Hp & Hin & ->).
      assert (forall x, reads (can_run t (blacklist_of m s) x)) as Hreads
        by (intros; apply reads_can_run).
      destruct (@filter_m_In _ _ _ _ idx s1 Hreads Hind Hin) as [_ Hrun].
      destruct (can_run_true _ _ _ _ Hrun He) as (Hbl & Htg & c & f & Hgc & Hgf & Hchk).
      exists idx, e, l, p.
      rewrite <- Ht, <- Hl. split; [exact He|split; [exact Hl'|]].
      split; [now rewrite <- Hpe|]. split; [now rewrite <- Hse|].
      split; [exact Hbl|]. split; [now rewrite <- Hd|]. split.
      * intros Hnz. destruct (@can_run_true_free _ _ _ _ _ Hrun Hl') as [H0|Hne];
          [rewrite Hh in H0; contradiction|now rewrite <- Hh].
      * intros c' f' Hc' Hf'. rewrite <- Hc in Hc'. rewrite <- Hf in Hf'. congruence.
  - apply orb_false_elim in Hc0. destruct Hc0 as [Hc0 Hhw].
    apply orb_false_elim in Hc0. destruct Hc0 as [Hc0 Hb].
    apply orb_false_elim in Hc0. destruct Hc0 as [Hfo Htg].
    unfold bind in H.
    destruct (submit_task m t None s1) as [[[]|x] s2] eqn:Es; [|discriminate].
    injection H as <-.
    destruct (submit_task_sent _ _ _ _ Es) as (idx & e & l & p & He & Hl' & Hp & _ & ->).
    exists idx, e, l, p.
    rewrite <- Ht, <- Hl. split; [exact He|split; [exact Hl'|]].
    split; [now rewrite <- Hpe|]. split; [now rewrite <- Hse|].
    split; [destruct (blacklist_of m s); [reflexivity|discriminate]|].
    split; [rewrite <- Hd, Htg; discriminate|]. split.
    + intros Hnz. apply negb_false_iff, Z.eqb_eq in Hhw. rewrite Hh in Hhw. contradiction.
    + intros c f _ _. unfold dep_check.
      destruct (dep_ids (t_follow t)); [reflexivity|discriminate].
Qed.

Lemma maybe_run_dispatch_eligible_witness :
  let s := set_heap [["E2"]] two_engines_one_busy in
  let t := mkTask plain_T2 0 MET MET None in
  let s' := snd (maybe_run 5 "T2" t s) in
  maybe_run 5 "T2" t s = (Ok true, s') /\
  exists idx e l p,
    nth_error (targets s) idx = Some e /\ nth_error (loads s) idx = Some l /\
    PyDict.get e (pending s) = Some p /\
    s' = set_sent (sent s ++ [EngineTask e "T2"; MonTrackTask "T2" e])
           (dispatched "T2" (mkTask (t_raw t) (t_targets t) MET (t_follow t) (t_timeout t))
              idx e l p (with_blacklist "T2" s)) /\
    PySet.mem e (blacklist_of "T2" s) = false /\
    (PySet.truthy (deref s (t_targets t)) = true ->
     PySet.mem e (deref s (t_targets t)) = true) /\
    (hwm s <> 0 -> l <> hwm s) /\
    (forall c f, PyDict.get e (completed s) = Some c ->
                 PyDict.get e (failed s) = Some f ->
                 dep_check (t_follow t) c f = true).
Proof.
  intros s t s'.
  assert (maybe_run 5 "T2" t s = (Ok true, s')) as H by (vm_compute; reflexivity).
  split; [exact H|]. exact (maybe_run_dispatch_eligible 5 "T2" t s H).
Defined.

(** ** Failing a task that [graph] does not know *)

Lemma scrub_unregistered (m : string) (l : list string) (s : TaskScheduler) :
  unregistered m s ->
  for_each l
    (fun mid =>
       s <- get_self ;;
       match PyDict.get mid (graph s) with
       | None => ret tt
       | Some g =>
           if PySet.mem m g
           then modify (set_graph (PyDict.set mid (PySet.discard m g) (graph s)))
           else raise (KeyError m)
       end)%py s =
  if awaited l s then (Raise (KeyError m), s) else (Ok tt, s).
Proof.
  intros Hun. unfold awaited. induction l as [|mid l IH]; [reflexivity|].
  simpl for_each. simpl existsb. rewrite bind_bind, bind_get_self.
  unfold PyDict.contains.
  destruct (PyDict.get mid (graph s)) as [g|] eqn:Eg.
  - rewrite (Hun mid g Eg). reflexivity.
  - rewrite bind_ret. exact IH.
Qed.

Lemma fail_unreachable_unregistered_eq depth (m : string) (w : why) (t : task)
  (s : TaskScheduler) :
  PyDict.get m (depending s) = Some t ->
  unregistered m s ->
  fail_unreachable depth m w s =
    if awaited (PySet.union (dep_ids (t_follow t)) (dep_ids (t_after t))) s
    then (Raise (KeyError m), set_depending (PyDict.remove m (depending s)) s)
    else update_graph depth (Some m) false (failed_task m (raw_client (t_raw t)) w s).
Proof.
  intros Hdep Hun. unfold fail_unreachable, fail_unreachable_body.
  rewrite bind_get_self, Hdep, bind_modify. unfold scrub_graph.
  set (s1 := set_depending _ s).
  assert (unregistered m s1) as Hun1 by exact Hun.
  unfold bind at 1. rewrite (scrub_unregistered _ Hun1).
  change (awaited ?l s1) with (awaited l s).
  destruct (awaited _ s); [reflexivity|].
  rewrite !bind_modify, !bind_send. unfold failed_task, mark_failed. simpl.
  rewrite <- app_assoc. reflexivity.
Qed.

(** [fail_unreachable] on a waiting task that is in no set of [graph]
    (it was stored in [depending] without [save_unmet]): when one of its
    dependencies has waiters in [graph], [graph[mid].remove(msg_id)] raises
    [KeyError] after the task has left [depending] and before anything is
    recorded or sent; otherwise the task is recorded as failed, the error is
    sent to its client, and [update_graph(msg_id, False)] runs. *)
Theorem fail_unreachable_unregistered depth (m : string) (w : why) (t : task)
  (s : TaskScheduler) :
  PyDict.get m (depending s) = Some t ->
  unregistered m s ->
  fail_unreachable depth m w s =
    if awaited (PySet.union (dep_ids (t_follow t)) (dep_ids (t_after t))) s
    then (Raise (KeyError m), set_depending (PyDict.remove m (depending s)) s)
    else update_graph depth (Some m) false (failed_task m (raw_client (t_raw t)) w s).
Proof. apply fail_unreachable_unregistered_eq. Qed.

Lemma remove_set_same (V : Type) (k : string) (v : V) (d : PyDict.t V) :
  PyDict.remove k (PyDict.set k v d) = PyDict.remove k d.
Proof.
  unfold PyDict.remove. induction d as [|[k' v'] d IH]; simpl.
  - now rewrite String.eqb_refl.
  - destruct (String.eqb k k') eqn:E; simpl; rewrite E; simpl; [reflexivity|].
    now rewrite IH.
Qed.

(** A submission whose dependencies are invalid (the task depends on
    itself or on a msg_id that was never submitted) or unreachable is not
    always answered: when one of the msg_ids it depends on has waiters in
    [graph], [dispatch_submission] raises [KeyError] and the client gets no
    reply, although the msg_id stays in [all_ids] and [retries]; otherwise
    the task is failed with [InvalidDependency] or [ImpossibleDependency]
    and [update_graph(msg_id, False)] runs. *)
Theorem rejected_submission depth (now : Z) (raw : raw_msg) (s : TaskScheduler) :
  let m := h_msg_id (raw_header raw) in
  let t := submission_args now raw s in
  submission_verdict now raw s <> Valid ->
  unregistered m s ->
  dispatch_submission depth now raw s =
    if awaited (PySet.union (dep_ids (t_follow t)) (dep_ids (t_after t))) s
    then (Raise (KeyError m),
          set_depending (PyDict.remove m (depending s)) (submitted raw s))
    else update_graph depth (Some m) false
           (failed_task m (raw_client raw)
              (match submission_verdict now raw s with
               | Invalid => InvalidDependency
               | _ => ImpossibleDependency
               end)
              (set_depending (PyDict.set m t (depending s)) (submitted raw s))).
Proof.
  intros m t Hv Hun.
  set (s1 := set_depending (PyDict.set m t (depending s)) (submitted raw s)).
  assert (forall w, fail_unreachable depth m w s1 =
            if awaited (PySet.union (dep_ids (t_follow t)) (dep_ids (t_after t))) s
            then (Raise (KeyError m),
                  set_depending (PyDict.remove m (depending s)) (submitted raw s))
            else update_graph depth (Some m) false (failed_task m (raw_client raw) w s1))
    as Hfail.
  { intros w.
    rewrite (@fail_unreachable_unregistered_eq depth m w t s1);
      [|apply get_set_same|exact Hun].
    change (awaited ?l s1) with (awaited l s).
    destruct (awaited _ s); [|reflexivity].
    subst s1. simpl depending. rewrite remove_set_same. reflexivity. }
  set (v := submission_verdict now raw s) in *.
  assert (dispatch_submission depth now raw s =
          fail_unreachable depth m
            match v with Invalid => InvalidDependency | _ => ImpossibleDependency end
            s1) as Hds.
  { unfold dispatch_submission. cbv zeta.
    rewrite bind_send, bind_modify, bind_get_self, !bind_modify, bind_get_self.
    match goal with
    | |- match ?V with _ => _ end _ = _ => change V with v
    end.
    destruct v; [congruence|reflexivity|reflexivity]. }
  rewrite Hds. apply Hfail.
Qed.

Lemma get_In (V : Type) (k : string) (v : V) (d : PyDict.t V) :
  PyDict.get k d = Some v -> In (k, v) d.
Proof.
  induction d as [|[k' v'] d IH]; simpl; [discriminate|].
  destruct (String.eqb_spec k k') as [->|Hne].
  - intros [= ->]. now left.
  - intros Hg. right. now apply IH.
Qed.

Lemma unregistered_dec (m : string) (s : TaskScheduler) :
  forallb (fun kv => negb (PySet.mem m (snd kv))) (graph s) = true -> unregistered m s.
Proof.
  intros H mid g Hg. rewrite forallb_forall in H.
  apply negb_true_iff. exact (H _ (get_In _ _ Hg)).
Qed.

Lemma fail_unreachable_unregistered_witness :
  let s := run 5 (start 1 leastload) full_target_stays in
  let t := mkTask (mkRaw "client" (mkHeader "T2" ["E1"] 0 None MET None)) 1 MET
             (as_dependency MET) None in
  fail_unreachable 5 "T2" TaskTimeout s =
    if awaited (PySet.union (dep_ids (t_follow t)) (dep_ids (t_after t))) s
    then (Raise (KeyError "T2"), set_depending (PyDict.remove "T2" (depending s)) s)
    else update_graph 5 (Some "T2") false
           (failed_task "T2" (raw_client (t_raw t)) TaskTimeout s).
Proof.
  intros s t.
  apply (@fail_unreachable_unregistered 5 "T2" TaskTimeout t s).
  - vm_compute. reflexivity.
  - apply unregistered_dec. vm_compute. reflexivity.
Defined.

Lemma rejected_submission_witness :
  let s := run 5 (start 0 leastload) one_running_one_waiting in
  let raw := after_unknown_T3 in
  let m := h_msg_id (raw_header raw) in
  let t := submission_args 0 raw s in
  dispatch_submission 5 0 raw s =
    if awaited (PySet.union (dep_ids (t_follow t)) (dep_ids (t_after t))) s
    then (Raise (KeyError m),
          set_depending (PyDict.remove m (depending s)) (submitted raw s))
    else update_graph 5 (Some m) false
           (failed_task m (raw_client raw)
              (match submission_verdict 0 raw s with
               | Invalid => InvalidDependency
               | _ => ImpossibleDependency
               end)
              (set_depending (PyDict.set m t (depending s)) (submitted raw s))).
Proof.
  intros s raw.
  apply (@rejected_submission 5 0 raw s).
  - vm_compute. discriminate.
  - apply unregistered_dec. vm_compute. reflexivity.
Defined.

(** The submission of [after_unknown_T3] raises: ["T2"] waits for ["T1"]. *)
Lemma after_unknown_T3_raises :
  let s := run 5 (start 0 leastload) one_running_one_waiting in
  fst (dispatch_submission 5 0 after_unknown_T3 s) = Raise (KeyError "T3") /\
  submission_verdict 0 after_unknown_T3 s = Invalid.
Proof. vm_compute. split; reflexivity. Qed.

(** ** The tasks of an engine that is gone *)

Lemma snd_bind_reads (A B : Type) (Q : TaskScheduler -> Prop) (m : M A)
  (k : A -> M B) (s : TaskScheduler) :
  reads m -> Q s -> (forall a, fst (m s) = Ok a -> Q (snd (k a s))) ->
  Q (snd (bind m k s)).
Proof.
  intros Hm Hs Hk. unfold bind. pose proof (Hm s) as E.
  destruct (m s) as [[a|x] s1]; simpl in E; subst s1; simpl; auto.
Qed.

Section Parked.
Variable e : ident.
Variable v : option (PyDict.t task).

Ltac leaf :=
  intros ? ?;
  first
    [ assumption
    | match goal with
      | |- context [if ?b then _ else _] => destruct b; assumption
      | |- context [match ?d with Some _ => _ | None => _ end] => destruct d; assumption
      end ].

Lemma parked_submit_task (m : string) (t : task) (indices : option (list nat)) :
  preserves (parked e v) (submit_task m t indices).
Proof.
  intros s H. unfold submit_task. cbv zeta. rewrite bind_get_self.
  apply snd_bind_reads;
    [destruct indices as [[|? ?]|]; first [apply reads_for_indices|apply reads_ret]
    | exact H | intros lds _].
  apply snd_bind_reads; [apply reads_read | exact H | intros idx0 _].
  apply snd_bind_reads;
    [destruct indices as [[|? ?]|]; first [apply reads_getindex|apply reads_ret]
    | exact H | intros idx _].
  apply snd_getindex; [exact H|]. intros target Htarget.
  rewrite bind_send.
  destruct (nth_error (loads s) idx) as [l|] eqn:Hl.
  - erewrite bind_eq by (apply add_job_ok; [exact Htarget|exact Hl]).
    rewrite bind_get_self. simpl pending.
    destruct H as [Hne Hp].
    assert (target <> e) as Hte.
    { intros ->. apply Hne. eapply nth_error_In, Htarget. }
    apply snd_getitem.
    + split; simpl; [|exact Hp]. intros Hin. apply Hne.
      eapply In_rotate; [exact Htarget|exact Hin].
    + intros p _. rewrite bind_modify. unfold send, modify. simpl. split; simpl.
      * intros Hin. apply Hne. eapply In_rotate; [exact Htarget|exact Hin].
      * rewrite get_set_other by congruence. exact Hp.
  - unfold bind. rewrite add_job_raises by exact Hl. simpl. exact H.
Qed.

Lemma parked_send (f : frame) : preserves (parked e v) (send f).
Proof. unfold send. apply hoare_modify. intros s H. exact H. Qed.

Lemma parked_scrub_graph (msg_id : string) (follow after : Dependency) :
  preserves (parked e v) (scrub_graph msg_id follow after).
Proof. unfold scrub_graph. pres leaf. Qed.


Lemma parked_dests (ds : PyDict.t ident) (l : list string) (init : M PySet.t) :
  preserves (parked e v) init ->
  preserves (parked e v)
    (fold_left (fun acc m => bind acc (fun d => bind (getitem m ds)
                                                  (fun e => ret (PySet.add e d)))) l init).
Proof.
  revert init. induction l as [|x l IH]; simpl; intros init H; auto.
  apply IH. pres leaf. exact H.
Qed.

Section Body.
Variable upd : option string -> bool -> M unit.
Hypothesis upd_parked : forall d b, preserves (parked e v) (upd d b).

Ltac known :=
  first
    [ apply upd_parked
    | apply parked_scrub_graph
    | apply parked_submit_task
    | apply parked_send
    | apply parked_dests; apply preserves_ret ].





End Body.





End Parked.





(** ** A final reply that nobody waits for *)



